(** * Stock-Price-Predictor: a shallow embedding of [stock_price_predictor.py]

    The development follows the program file top to bottom:
    - [Float64]: Python floats (IEEE binary64) with the three library
      operations the program applies to prices: [round(x, 2)],
      [f"{x:.2f}"] and [float(str)];
    - [Calendar]: [datetime.date], [strptime("%d-%m-%Y")],
      [strftime("%d-%m-%Y")] and [+ timedelta(days=1)];
    - the Python object model the program needs: row dictionaries live in a
      store and are shared by reference, exceptions, the console;
    - the functions of the program, in source order;
    - the properties of the specification, one theorem per claim (C1 to
      C10);
    - further properties of the program, read off its code (X1 to X20):
      what the sampler accepts and reports, what the forecaster and the
      writer leave alone, how the three compose for one file, and which
      files a run opens and writes. *)

From Stdlib Require Import ZArith Lia List String Ascii Bool Sorted.
From Stdlib Require Import Floats.SpecFloat.
From stdpp Require Import base list strings.

Local Open Scope Z_scope.

(** ** Python floats *)

Module Float64.

(** A Python float is an IEEE 754 binary64 value.  [spec_float] is the
    Standard Library's specification of such values: sign, mantissa and
    binary exponent, two zeros, two infinities and NaN. *)
Definition float := spec_float.

Definition prec : Z := 53.
Definition emax : Z := 1024.

Definition fadd : float -> float -> float := SFadd prec emax.
Definition fsub : float -> float -> float := SFsub prec emax.
Definition fdiv : float -> float -> float := SFdiv prec emax.

(** [x == y], [x < y] on floats: false as soon as one side is NaN, and
    [0.0 == -0.0]. *)
Definition feqb : float -> float -> bool := SFeqb.
Definition fltb : float -> float -> bool := SFltb.

Definition is_nan (x : float) : bool :=
  match x with S754_nan => true | _ => false end.

Definition is_finite (x : float) : bool :=
  match x with S754_zero _ | S754_finite _ _ _ => true | _ => false end.

(** The float nearest to the integer [n] (used for the literals [2] and
    [4], which the interpreter converts before dividing). *)
Definition of_Z (n : Z) : float := binary_normalize prec emax n 0 false.

(** The float nearest to [num / den], sign [s], ties to even: what
    [strtod] returns for a decimal numeral of that value. *)
Definition nearest_ratio (s : bool) (num : Z) (den : positive) : float :=
  match num with
  | Zpos n => fdiv (S754_finite s n 0) (S754_finite false den 0)
  | _ => S754_zero s
  end.

(** The float nearest to [k * 10^e10], sign [s]. *)
Definition strtod (s : bool) (k : Z) (e10 : Z) : float :=
  match e10 with
  | Zneg p => nearest_ratio s k (10 ^ p)%positive
  | _ => nearest_ratio s (k * 10 ^ e10) 1
  end.

(** *** Rounding to two decimals

    [round(x, 2)] and the format [.2f] both start from the same correctly
    rounded conversion of the exact binary value to a decimal with two
    digits after the point, ties to even (dtoa, mode 3).  The result is
    kept as a whole number of hundredths. *)
Definition hundredths (m : positive) (e : Z) : Z :=
  match e with
  | Zneg p =>
      let d := Zpos (2 ^ p)%positive in
      let n := 100 * Zpos m in
      let q := n / d in
      let r := n mod d in
      match 2 * r ?= d with
      | Lt => q
      | Gt => q + 1
      | Eq => if Z.even q then q else q + 1
      end
  | _ => 100 * Zpos m * 2 ^ e
  end.

(** [round(x, 2)]: infinities and NaN round to themselves, a finite value
    goes to the decimal string and back through [strtod]. *)
Definition round2 (x : float) : float :=
  match x with
  | S754_finite s m e => strtod s (hundredths m e) (-2)
  | _ => x
  end.

(** *** Decimal numerals *)

Definition digit_char (d : Z) : ascii :=
  ascii_of_nat (48 + Z.to_nat d).

Definition is_digit (c : ascii) : bool :=
  let n := Z.of_nat (nat_of_ascii c) in (48 <=? n) && (n <=? 57).

Definition digit_val (c : ascii) : Z := Z.of_nat (nat_of_ascii c) - 48.

(** Decimal digits of [n >= 0], most significant first; [fuel] bounds the
    number of digits. *)
Fixpoint digits_fuel (fuel : nat) (n : Z) (acc : string) : string :=
  match fuel with
  | O => acc
  | S fuel' =>
      let acc' := String (digit_char (n mod 10)) acc in
      if n / 10 =? 0 then acc' else digits_fuel fuel' (n / 10) acc'
  end.

Definition digits (n : Z) : string :=
  digits_fuel (S (Z.to_nat (Z.log2 n))) n EmptyString.

(** The value of a string of decimal digits read after the accumulator
    [acc]. *)
Fixpoint digits_value (acc : Z) (s : string) : Z :=
  match s with
  | EmptyString => acc
  | String c s' => digits_value (10 * acc + digit_val c) s'
  end.

Fixpoint all_digits (s : string) : bool :=
  match s with
  | EmptyString => true
  | String c s' => is_digit c && all_digits s'
  end.

(** *** [f"{x:.2f}"] *)

Definition sign_prefix (s : bool) : string := if s then "-" else "".

Definition fixed2 (s : bool) (k : Z) : string :=
  sign_prefix s ++ digits (k / 100) ++ "."
    ++ String (digit_char (k mod 100 / 10))
         (String (digit_char (k mod 10)) EmptyString).

Definition format_2f (x : float) : string :=
  match x with
  | S754_zero s => fixed2 s 0
  | S754_finite s m e => fixed2 s (hundredths m e)
  | S754_infinity s => sign_prefix s ++ "inf"
  | S754_nan => "nan"
  end.

(** *** White space

    Strings are ASCII strings here: the text of a file is taken to hold no
    code point above 127, and the digits and spaces that Python knows
    outside ASCII are not modelled.

    [str.strip()] removes the characters that [str.isspace] accepts: tab,
    line feed, vertical tab, form feed, carriage return, the four
    separators 28 to 31 and the space. *)

Definition is_space (c : ascii) : bool :=
  let n := Z.of_nat (nat_of_ascii c) in
  ((9 <=? n) && (n <=? 13)) || ((28 <=? n) && (n <=? 32)).

Fixpoint lstrip (s : string) : string :=
  match s with
  | EmptyString => EmptyString
  | String c s' => if is_space c then lstrip s' else s
  end.

Fixpoint rstrip (s : string) : string :=
  match s with
  | EmptyString => EmptyString
  | String c s' =>
      match rstrip s' with
      | EmptyString => if is_space c then EmptyString else String c EmptyString
      | t => String c t
      end
  end.

(** [s.strip()] *)
Definition strip (s : string) : string := rstrip (lstrip s).

(** *** [float(str)]

    The constructor removes the white space of the C locale at both ends
    (tab, line feed, vertical tab, form feed, carriage return and space:
    the separators 28 to 31 are not removed, and make the string no
    float), accepts underscores between digits, an optional sign, then
    [inf], [infinity] or [nan] in any case, or a decimal numeral with
    optional fraction and exponent. *)

Definition is_c_space (c : ascii) : bool :=
  let n := Z.of_nat (nat_of_ascii c) in
  ((9 <=? n) && (n <=? 13)) || (n =? 32).

Fixpoint ltrim (s : string) : string :=
  match s with
  | EmptyString => EmptyString
  | String c s' => if is_c_space c then ltrim s' else s
  end.

Fixpoint rtrim (s : string) : string :=
  match s with
  | EmptyString => EmptyString
  | String c s' =>
      match rtrim s' with
      | EmptyString => if is_c_space c then EmptyString else String c EmptyString
      | t => String c t
      end
  end.

Definition trim (s : string) : string := rtrim (ltrim s).

Definition is_underscore (c : ascii) : bool :=
  Nat.eqb (nat_of_ascii c) 95.

(** Underscores are dropped when each of them stands between two digits;
    [prev] is the character read last. *)
Fixpoint drop_underscores (prev : option ascii) (s : string) : option string :=
  match s with
  | EmptyString =>
      match prev with
      | Some p => if is_underscore p then None else Some EmptyString
      | None => Some EmptyString
      end
  | String c s' =>
      if is_underscore c then
        match prev with
        | Some p => if is_digit p then drop_underscores (Some c) s' else None
        | None => None
        end
      else
        let after_underscore :=
          match prev with Some p => is_underscore p | None => false end in
        if after_underscore && negb (is_digit c) then None
        else option_map (String c) (drop_underscores (Some c) s')
  end.

(** An optional sign: [true] for minus. *)
Definition take_sign (s : string) : bool * string :=
  match s with
  | String "-" s' => (true, s')
  | String "+" s' => (false, s')
  | _ => (false, s)
  end.

Definition lower (c : ascii) : ascii :=
  let n := nat_of_ascii c in
  if (Nat.leb 65 n && Nat.leb n 90)%bool then ascii_of_nat (n + 32) else c.

Fixpoint lower_string (s : string) : string :=
  match s with
  | EmptyString => EmptyString
  | String c s' => String (lower c) (lower_string s')
  end.

(** The longest prefix of digits, and what follows it. *)
Fixpoint span_digits (s : string) : string * string :=
  match s with
  | EmptyString => (EmptyString, EmptyString)
  | String c s' =>
      if is_digit c then
        let '(ds, rest) := span_digits s' in (String c ds, rest)
      else (EmptyString, s)
  end.

(** What follows the mantissa: nothing, or [e], an optional sign and at
    least one digit. *)
Definition parse_exponent (s : string) : option Z :=
  match s with
  | EmptyString => Some 0
  | String c s' =>
      if String.eqb (String (lower c) EmptyString) "e" then
        let '(neg, s1) := take_sign s' in
        match span_digits s1 with
        | (EmptyString, _) => None
        | (ds, EmptyString) =>
            Some (if neg then - digits_value 0 ds else digits_value 0 ds)
        | _ => None
        end
      else None
  end.

(** A decimal numeral as the pair [(k, e10)] of value [k * 10^e10]. *)
Definition parse_decimal (s : string) : option (Z * Z) :=
  let '(ip, r) := span_digits s in
  let '(fp, r') :=
    match r with
    | String "." r1 => span_digits r1
    | _ => (EmptyString, r)
    end in
  match (ip ++ fp)%string with
  | EmptyString => None
  | ds =>
      match parse_exponent r' with
      | Some e => Some (digits_value 0 ds, e - Z.of_nat (String.length fp))
      | None => None
      end
  end.

(** [float(s)] for a string [s]; [None] stands for [ValueError]. *)
Definition float_of_str (s : string) : option float :=
  match drop_underscores None (trim s) with
  | None => None
  | Some t =>
      let '(neg, body) := take_sign t in
      let word := lower_string body in
      if String.eqb word "inf" || String.eqb word "infinity"
      then Some (S754_infinity neg)
      else if String.eqb word "nan" then Some S754_nan
      else
        match parse_decimal body with
        | Some (k, e10) => Some (strtod neg k e10)
        | None => None
        end
  end.

End Float64.

(** ** Calendar dates *)

Module Calendar.
Import Float64.

(** A [datetime.date]: a day of the proleptic Gregorian calendar between
    0001-01-01 and 9999-12-31. *)
Record date := mkdate { year : Z; month : Z; day : Z }.

Definition is_leap (y : Z) : bool :=
  (y mod 4 =? 0) && (negb (y mod 100 =? 0) || (y mod 400 =? 0)).

Definition days_in_month (y m : Z) : Z :=
  if m =? 2 then (if is_leap y then 29 else 28)
  else if (m =? 4) || (m =? 6) || (m =? 9) || (m =? 11) then 30
  else 31.

Definition valid_date (d : date) : bool :=
  (1 <=? year d) && (year d <=? 9999)
  && (1 <=? month d) && (month d <=? 12)
  && (1 <=? day d) && (day d <=? days_in_month (year d) (month d)).

Definition max_date : date := mkdate 9999 12 31.

Definition date_eqb (a b : date) : bool :=
  (year a =? year b) && (month a =? month b) && (day a =? day b).

(** The day after [d]. *)
Definition next_day (d : date) : date :=
  if day d <? days_in_month (year d) (month d)
  then mkdate (year d) (month d) (day d + 1)
  else if month d <? 12
  then mkdate (year d) (month d + 1) 1
  else mkdate (year d + 1) 1 1.

(** [d + timedelta(days=1)]; [None] stands for [OverflowError], raised
    when the result would pass [date.max]. *)
Definition add_one_day (d : date) : option date :=
  if date_eqb d max_date then None else Some (next_day d).

(** [d.toordinal()]: the number of days from 0001-01-01, which is day 1. *)
Definition days_before_year (y : Z) : Z :=
  (y - 1) * 365 + (y - 1) / 4 - (y - 1) / 100 + (y - 1) / 400.

Definition days_before_month (y m : Z) : Z :=
  nth (Z.to_nat m) [0; 0; 31; 59; 90; 120; 151; 181; 212; 243; 273; 304; 334] 0
  + (if (2 <? m) && is_leap y then 1 else 0).

Definition toordinal (d : date) : Z :=
  days_before_year (year d) + days_before_month (year d) (month d) + day d.

(** *** [d.strftime("%d-%m-%Y")]

    Day and month on two digits.  The year is written by the C library:
    glibc, which the program runs on, writes it without leading zeros, so
    that the years below 1000 have fewer than four digits. *)
Definition two_digits (n : Z) : string :=
  String (digit_char (n / 10)) (String (digit_char (n mod 10)) EmptyString).

Definition strftime_dmy (d : date) : string :=
  (two_digits (day d) ++ "-" ++ two_digits (month d) ++ "-"
     ++ digits (year d))%string.

(** A number below 10000 on four digits: what [digits] writes from 1000
    on. *)
Definition four_digits (n : Z) : string :=
  (two_digits (n / 100) ++ two_digits (n mod 100))%string.

(** *** [str.split(sep)] for a one-character separator *)
Fixpoint split_on (sep : ascii) (s : string) : list string :=
  match s with
  | EmptyString => [EmptyString]
  | String c s' =>
      if Ascii.eqb c sep then EmptyString :: split_on sep s'
      else
        match split_on sep s' with
        | p :: ps => String c p :: ps
        | [] => [String c EmptyString]
        end
  end.

(** *** [datetime.strptime(s, "%d-%m-%Y").date()]

    The day is one or two digits (or a space and a digit) and lies in
    1..31, the month one or two digits in 1..12, the year exactly four
    digits; the three are joined by hyphens and nothing may follow.
    [None] stands for [ValueError]. *)
Definition field_1_or_2_digits (allow_space : bool) (s : string) : option Z :=
  match s with
  | String a EmptyString =>
      if is_digit a && negb (digit_val a =? 0) then Some (digit_val a) else None
  | String a (String b EmptyString) =>
      if is_digit a && is_digit b then
        let v := 10 * digit_val a + digit_val b in
        if v =? 0 then None else Some v
      else if allow_space && Ascii.eqb a " " && is_digit b
              && negb (digit_val b =? 0)
      then Some (digit_val b)
      else None
  | _ => None
  end.

Definition field_4_digits (s : string) : option Z :=
  if (String.length s =? 4)%nat && all_digits s
  then Some (digits_value 0 s) else None.

Definition strptime_dmy (s : string) : option date :=
  match split_on "-" s with
  | [ds; ms; ys] =>
      match field_1_or_2_digits true ds, field_1_or_2_digits false ms,
            field_4_digits ys with
      | Some d, Some m, Some y =>
          let dt := mkdate y m d in
          if (d <=? 31) && (m <=? 12) && valid_date dt then Some dt else None
      | _, _, _ => None
      end
  | _ => None
  end.

End Calendar.

Import Float64 Calendar.

(** ** The objects of the program *)

(** The values stored under the keys of a row: the stock identifier is a
    string; the timestamp is a date until [format_rows] replaces it by a
    string; the price is a float until [format_rows] replaces it by a
    string. *)
Inductive value :=
| VStr (s : string)
| VDate (d : date)
| VFloat (x : float).

(** A row is a dictionary; a dictionary keeps its keys in insertion order,
    and assigning to a key that is present keeps the key where it is. *)
Definition dict := list (string * value).

Fixpoint dict_get (k : string) (d : dict) : option value :=
  match d with
  | [] => None
  | (k', v) :: d' => if String.eqb k' k then Some v else dict_get k d'
  end.

Fixpoint dict_set (k : string) (v : value) (d : dict) : dict :=
  match d with
  | [] => [(k, v)]
  | (k', v') :: d' =>
      if String.eqb k' k then (k', v) :: d' else (k', v') :: dict_set k v d'
  end.

(** Dictionaries are objects: the program holds references to them, and
    [format_rows] updates them in place.  A list of rows is a list of such
    references; the one list that the program builds for a file is passed
    from function to function, and a function that appends to it returns
    it with the new references at its end. *)
Definition loc := nat.

Inductive exn :=
| FileNotFoundError
| PermissionError
| OSError
| IndexError
| KeyError
| ValueError
| TypeError
| AttributeError
| OverflowError.

(** The lines the program prints, all of them starting with [ERROR:]. *)
Inductive diagnostic :=
| FileDoesNotExist (path : string)
| DirectoryDoesNotExist (path : string)
| PermissionDenied (path : string)
| UnexpectedError (e : exn).

(** What the program reads from its environment: directory listings, file
    kinds and file contents under the input root, and whether a directory
    or a file under the output root can be created. *)
Record filesystem := mkfs {
  listdir : string -> exn + list string;
  isfile : string -> bool;
  isdir : string -> bool;
  read_lines : string -> exn + list string;
  makedirs : string -> option exn;
  open_write : string -> option exn
}.

(** What the program changes: the store of row dictionaries, the console,
    the clock, the files it opened for reading and the files it wrote (the
    cells of each row, in order). *)
Record state := mkstate {
  heap : list dict;
  console : list diagnostic;
  clock : Z;
  reads : list string;
  written : list (string * list (list value))
}.

Inductive result (A : Type) :=
| Ok (a : A)
| Raise (e : exn).
Arguments Ok {A} a.
Arguments Raise {A} e.

(** A computation runs from a state, ends in a value or in an exception,
    and leaves a state behind in both cases. *)
Definition M (A : Type) : Type := state -> result A * state.

Definition ret {A} (a : A) : M A := fun st => (Ok a, st).

Definition raise {A} (e : exn) : M A := fun st => (Raise e, st).

Definition bind {A B} (c : M A) (k : A -> M B) : M B :=
  fun st =>
    match c st with
    | (Ok a, st') => k a st'
    | (Raise e, st') => (Raise e, st')
    end.

(** [try: body except Exception: handler]; every exception of [exn] is an
    [Exception]. *)
Definition try_except {A} (body : M A) (handler : exn -> M A) : M A :=
  fun st =>
    match body st with
    | (Ok a, st') => (Ok a, st')
    | (Raise e, st') => handler e st'
    end.

Notation "'do' x <- c ;; k" := (bind c (fun x => k))
  (at level 100, x name, c at next level, k at level 200,
   right associativity, only parsing).

Definition of_option {A} (e : exn) (o : option A) : M A :=
  match o with Some a => ret a | None => raise e end.

Definition of_sum {A} (r : exn + A) : M A :=
  match r with inl e => raise e | inr a => ret a end.

Definition print (d : diagnostic) : M unit :=
  fun st => (Ok tt, mkstate (heap st) (console st ++ [d]) (clock st)
                            (reads st) (written st)).

(** [datetime.now().timestamp()]: the clock is read and moves on. *)
Definition now : M Z :=
  fun st => (Ok (clock st), mkstate (heap st) (console st) (clock st + 1)
                                    (reads st) (written st)).

(** A dictionary display [{...}] makes a new object. *)
Definition alloc (d : dict) : M loc :=
  fun st => (Ok (length (heap st)),
             mkstate (heap st ++ [d]) (console st) (clock st)
                     (reads st) (written st)).

Definition deref (l : loc) : M dict :=
  fun st => match heap st !! l with
            | Some d => (Ok d, st)
            | None => (Raise KeyError, st)
            end.

(** [row[k]] *)
Definition getitem (l : loc) (k : string) : M value :=
  do d <- deref l ;; of_option KeyError (dict_get k d).

(** [row[k] = v] *)
Definition setitem (l : loc) (k : string) (v : value) : M unit :=
  fun st => match heap st !! l with
            | Some d =>
                (Ok tt, mkstate (<[l := dict_set k v d]> (heap st)) (console st)
                                (clock st) (reads st) (written st))
            | None => (Raise KeyError, st)
            end.

(** [xs[i]] for [0 <= i], and [xs[-1]] *)
Definition index {A} (xs : list A) (i : nat) : M A :=
  of_option IndexError (xs !! i).

Definition last_item {A} (xs : list A) : M A :=
  of_option IndexError (last xs).

(** [os.path.join(a, b)] for a relative [b] *)
Definition path_join (a b : string) : string :=
  if String.eqb a "" then b
  else if String.eqb (substring (String.length a - 1) 1 a) "/"
  then (a ++ b)%string
  else (a ++ "/" ++ b)%string.

(** [s.endswith(suffix)] *)
Definition endswith (suffix s : string) : bool :=
  let n := String.length s in
  let k := String.length suffix in
  Nat.leb k n && String.eqb (substring (n - k) k s) suffix.

(** [open(path, mode='r')] and the lines of the file *)
Definition open_for_reading (fs : filesystem) (path : string) : M (list string) :=
  fun st =>
    let st' := mkstate (heap st) (console st) (clock st)
                       (reads st ++ [path]) (written st) in
    match read_lines fs path with
    | inl e => (Raise e, st')
    | inr lines => (Ok lines, st')
    end.

(** [if not os.path.exists(p): os.makedirs(p)] *)
Definition ensure_directory (fs : filesystem) (path : string) : M unit :=
  match makedirs fs path with
  | Some e => raise e
  | None => ret tt
  end.

(** [open(path, 'w')]: the file is created, or emptied when it exists. *)
Definition open_for_writing (fs : filesystem) (path : string) : M unit :=
  fun st =>
    match open_write fs path with
    | Some e => (Raise e, st)
    | None =>
        (Ok tt,
         mkstate (heap st) (console st) (clock st) (reads st)
                 (filter (fun f => negb (String.eqb (fst f) path)) (written st)
                    ++ [(path, [])]))
    end.

(** [writer.writerow(cells)] on the file opened at [path] *)
Definition writerow (path : string) (cells : list value) : M unit :=
  fun st =>
    (Ok tt,
     mkstate (heap st) (console st) (clock st) (reads st)
             (map (fun f => if String.eqb (fst f) path
                            then (fst f, snd f ++ [cells]) else f)
                  (written st))).

(** The text that [csv.writer] makes of a record whose cells are strings,
    in the default dialect: a cell that holds a comma, a double quote, a
    carriage return or a line feed is written between double quotes, its
    own double quotes doubled; any other cell is copied as it is; the
    cells are separated by commas, and a record of one empty cell is
    written as two double quotes.  The writer then ends the record with
    carriage return and line feed, which the reader of the file takes as
    the end of the line.  [writerow] above keeps the cells; the text is
    what a later run reads. *)
Definition double_quote : ascii := ascii_of_nat 34.

Definition is_special (c : ascii) : bool :=
  Ascii.eqb c "," || Ascii.eqb c double_quote
  || Ascii.eqb c (ascii_of_nat 13) || Ascii.eqb c (ascii_of_nat 10).

Fixpoint needs_quotes (s : string) : bool :=
  match s with
  | EmptyString => false
  | String c s' => is_special c || needs_quotes s'
  end.

Fixpoint double_quotes (s : string) : string :=
  match s with
  | EmptyString => EmptyString
  | String c s' =>
      if Ascii.eqb c double_quote then String c (String c (double_quotes s'))
      else String c (double_quotes s')
  end.

Definition csv_field (s : string) : string :=
  if needs_quotes s
  then String double_quote (double_quotes s ++ String double_quote EmptyString)
  else s.

Definition csv_record (cells : list string) : string :=
  match cells with
  | [EmptyString] => String double_quote (String double_quote EmptyString)
  | _ => String.concat "," (map csv_field cells)
  end.

(** [set(xs)]: an element joins the set unless an equal one is in it.  The
    list keeps the elements in the order of their arrival; a set hands them
    over in an order of its own, which the sort that follows makes
    irrelevant. *)
Definition set_add (acc : list float) (x : float) : list float :=
  if existsb (fun y => feqb y x) acc then acc else acc ++ [x].

Definition py_set (xs : list float) : list float := fold_left set_add xs [].

(** [sorted(xs, reverse=True)]: the list in descending order.  Sorting
    compares with [<] only; with a NaN in the list no comparison holds and
    the order of the result is that of the comparisons made, which is why
    the properties of the forecaster are stated for prices that are
    numbers. *)
Fixpoint insert_desc (x : float) (l : list float) : list float :=
  match l with
  | [] => [x]
  | y :: l' => if fltb y x then x :: l else y :: insert_desc x l'
  end.

Definition sorted_desc (xs : list float) : list float :=
  fold_right insert_desc [] xs.

(** [float(v)] *)
Definition to_float (v : value) : M float :=
  match v with
  | VFloat x => ret x
  | VStr s => of_option ValueError (float_of_str s)
  | VDate _ => raise TypeError
  end.

(** The price of a row as the operand of float arithmetic.  Every row that
    [get_random_rows] builds has a float there; any other value is reported
    as [TypeError]. *)
Definition as_float (v : value) : M float :=
  match v with
  | VFloat x => ret x
  | _ => raise TypeError
  end.

(** [v.strftime('%d-%m-%Y')] *)
Definition strftime (v : value) : M string :=
  match v with
  | VDate d => ret (strftime_dmy d)
  | _ => raise AttributeError
  end.

(** [v + timedelta(days=1)] *)
Definition add_timedelta_1 (v : value) : M value :=
  match v with
  | VDate d => of_option OverflowError (option_map VDate (add_one_day d))
  | _ => raise TypeError
  end.

(** ** The program *)

Section Program.

(** [random.seed(t); random.randint(a, b)] as a function of the seed [t]
    and of the bounds. *)
Variable randint : Z -> Z -> Z -> Z.

Variable fs : filesystem.

Definition generate_random_start_row (total_row_count : Z) : M Z :=
  if total_row_count <? 10 then ret 0
  else
    do current_timestamp <- now ;;
    ret (randint current_timestamp 0 (total_row_count - 10)).

(** Lines 70 to 75: one line of the file becomes a row. *)
Definition parse_row (row : string) : M dict :=
  let splitted_row := split_on "," (strip row) in
  do stock_id <- index splitted_row 0 ;;
  do field1 <- index splitted_row 1 ;;
  do timestamp <- of_option ValueError (strptime_dmy field1) ;;
  do field2 <- index splitted_row 2 ;;
  do price <- of_option ValueError (float_of_str field2) ;;
  ret [("Stock-ID"%string, VStr stock_id);
       ("Timestamp"%string, VDate timestamp);
       ("Stock Price Value"%string, VFloat price)].

(** Lines 65 to 76: the loop over the lines of the file. *)
Fixpoint read_rows (start_row : Z) (lines : list string) (current_row : Z)
    (random_rows : list loc) : M (list loc) :=
  match lines with
  | [] => ret random_rows
  | row :: rest =>
      if current_row >=? start_row + 10 then ret random_rows
      else
        do random_rows' <-
          (if current_row >=? start_row then
             do d <- parse_row row ;;
             do l <- alloc d ;;
             ret (random_rows ++ [l])
           else ret random_rows) ;;
        read_rows start_row rest (current_row + 1) random_rows'
  end.

Definition get_random_rows (file_path : string) : M (option (list loc)) :=
  try_except
    (do lines <- open_for_reading fs file_path ;;
     let total_row_count := Z.of_nat (length lines) in
     do start_row <- generate_random_start_row total_row_count ;;
     do random_rows <- read_rows start_row lines 0 [] ;;
     ret (Some random_rows))
    (fun e =>
       do _ <- print match e with
                     | FileNotFoundError => FileDoesNotExist file_path
                     | PermissionError => PermissionDenied file_path
                     | _ => UnexpectedError e
                     end ;;
       ret None).

(** Line 99: the prices of the rows, in order. *)
Fixpoint prices_of (random_rows : list loc) : M (list float) :=
  match random_rows with
  | [] => ret []
  | row :: rest =>
      do v <- getitem row "Stock Price Value" ;;
      do x <- as_float v ;;
      do xs <- prices_of rest ;;
      ret (x :: xs)
  end.

(** Lines 112 to 117: each predicted value is appended as a row that
    copies the identifier of the row before it and follows it by one
    day. *)
Fixpoint append_predicted (predicted_values : list float)
    (random_rows : list loc) : M (list loc) :=
  match predicted_values with
  | [] => ret random_rows
  | stock_price_values :: rest =>
      do last1 <- last_item random_rows ;;
      do stock_id <- getitem last1 "Stock-ID" ;;
      do last2 <- last_item random_rows ;;
      do ts <- getitem last2 "Timestamp" ;;
      do ts' <- add_timedelta_1 ts ;;
      do l <- alloc [("Stock-ID"%string, stock_id);
                     ("Timestamp"%string, ts');
                     ("Stock Price Value"%string, VFloat stock_price_values)] ;;
      append_predicted rest (random_rows ++ [l])
  end.

Definition predict_next_values (random_rows : option (list loc)) : M (list loc) :=
  do rows <- of_option TypeError random_rows ;;
  do prices <- prices_of rows ;;
  let unique_stock_price_values := py_set prices in
  let sorted_stock_price_values := sorted_desc unique_stock_price_values in
  do last_row <- last_item rows ;;
  do nv <- getitem last_row "Stock Price Value" ;;
  do n <- as_float nv ;;
  do p0 <- index sorted_stock_price_values 1 ;;
  let p1 := round2 (fadd p0 (fdiv (fsub n p0) (of_Z 2))) in
  let p2 := round2 (fadd p1 (fdiv (fsub p0 p1) (of_Z 4))) in
  append_predicted [p0; p1; p2] rows.

(** Lines 132 to 134: the loop of [format_rows]. *)
Fixpoint format_each (rows : list loc) : M unit :=
  match rows with
  | [] => ret tt
  | row :: rest =>
      do ts <- getitem row "Timestamp" ;;
      do s <- strftime ts ;;
      do _ <- setitem row "Timestamp" (VStr s) ;;
      do v <- getitem row "Stock Price Value" ;;
      do x <- to_float v ;;
      do _ <- setitem row "Stock Price Value" (VStr (format_2f x)) ;;
      format_each rest
  end.

Definition format_rows (rows : list loc) : M (list loc) :=
  do _ <- format_each rows ;;
  ret rows.

(** Lines 163 and 164: one line of the output file per row. *)
Fixpoint write_rows (file_path : string) (rows : list loc) : M unit :=
  match rows with
  | [] => ret tt
  | row :: rest =>
      do d <- deref row ;;
      do _ <- writerow file_path (map snd d) ;;
      write_rows file_path rest
  end.

Definition save_predicted_stock_rows (output_path exchange_name file_name : string)
    (predicted_rows : list loc) : M unit :=
  try_except
    (let exchange_path := path_join output_path exchange_name in
     do _ <- ensure_directory fs exchange_path ;;
     do formated_rows <- format_rows predicted_rows ;;
     let file_path := path_join exchange_path file_name in
     do _ <- open_for_writing fs file_path ;;
     write_rows file_path formated_rows)
    (fun e =>
       print match e with
             | FileNotFoundError => DirectoryDoesNotExist output_path
             | PermissionError => PermissionDenied output_path
             | _ => UnexpectedError e
             end).

(** Lines 189 to 200: the loop over the entries of the exchange. *)
Fixpoint process_entries (n : Z) (exchange_path output_path exchange_name : string)
    (entries : list string) (processed_files_count : Z) : M unit :=
  match entries with
  | [] => ret tt
  | file_name :: rest =>
      let file_path := path_join exchange_path file_name in
      do processed_files_count' <-
        (if isfile fs file_path && endswith ".csv" (lower_string file_name) then
           do random_rows <- get_random_rows file_path ;;
           do predicted_rows <- predict_next_values random_rows ;;
           do _ <- save_predicted_stock_rows output_path exchange_name
                     file_name predicted_rows ;;
           ret (processed_files_count + 1)
         else ret processed_files_count) ;;
      if processed_files_count' =? n then ret tt
      else process_entries n exchange_path output_path exchange_name rest
             processed_files_count'
  end.

Definition process_files_from_exchange (n : Z)
    (input_path output_path exchange_name : string) : M unit :=
  let exchange_path := path_join input_path exchange_name in
  try_except
    (do entries <- of_sum (listdir fs exchange_path) ;;
     process_entries n exchange_path output_path exchange_name entries 0)
    (fun e =>
       print match e with
             | FileNotFoundError => DirectoryDoesNotExist exchange_path
             | PermissionError => PermissionDenied exchange_path
             | _ => UnexpectedError e
             end).

(** Lines 221 to 225: the loop over the entries of the input root. *)
Fixpoint process_each_exchange (n : Z) (input_path output_path : string)
    (entries : list string) : M unit :=
  match entries with
  | [] => ret tt
  | exchange_name :: rest =>
      let exchange_path := path_join input_path exchange_name in
      do _ <-
        (if isdir fs exchange_path
         then process_files_from_exchange n input_path output_path exchange_name
         else ret tt) ;;
      process_each_exchange n input_path output_path rest
  end.

Definition process_exchanges (n : Z) (input_path output_path : string) : M unit :=
  try_except
    (do entries <- of_sum (listdir fs input_path) ;;
     process_each_exchange n input_path output_path entries)
    (fun e =>
       print match e with
             | FileNotFoundError => DirectoryDoesNotExist input_path
             | PermissionError => PermissionDenied input_path
             | _ => UnexpectedError e
             end).

(** The arguments of the command line: [--n], [--input], [--output]. *)
Record arguments := mkargs {
  args_n : Z;
  args_input : string;
  args_output : string
}.

Definition main (args : arguments) : M unit :=
  process_exchanges (args_n args) (args_input args) (args_output args).

End Program.

(** ** Vocabulary of the specification *)

(** A StockRow of the specification, and the dictionary that holds it
    before and after formatting. *)
Record StockRow := mkrow {
  stock_id : string;
  timestamp : date;
  price : float
}.

Definition row_dict (r : StockRow) : dict :=
  [("Stock-ID"%string, VStr (stock_id r));
   ("Timestamp"%string, VDate (timestamp r));
   ("Stock Price Value"%string, VFloat (price r))].

Definition display_dict (r : StockRow) : dict :=
  [("Stock-ID"%string, VStr (stock_id r));
   ("Timestamp"%string, VStr (strftime_dmy (timestamp r)));
   ("Stock Price Value"%string, VStr (format_2f (price r)))].

(** The references [rows] point, in the store of [st], to the dictionaries
    of the rows [ws], in order. *)
Definition holds_rows (st : state) (rows : list loc) (ws : list StockRow) : Prop :=
  Forall2 (fun l w => heap st !! l = Some (row_dict w)) rows ws.

Definition with_heap (st : state) (h : list dict) : state :=
  mkstate h (console st) (clock st) (reads st) (written st).

Definition with_console (st : state) (c : list diagnostic) : state :=
  mkstate (heap st) c (clock st) (reads st) (written st).

(** [k] days after [d], when the calendar has them. *)
Fixpoint add_days (k : nat) (d : date) : option date :=
  match k with
  | O => Some d
  | S k' =>
      match add_one_day d with
      | Some d' => add_days k' d'
      | None => None
      end
  end.

(** The rows that follow a row of identifier [sid] dated [d], one per value
    and one day apart. *)
Fixpoint forecast_rows (sid : string) (d : date) (vs : list float) : list StockRow :=
  match vs with
  | [] => []
  | v :: vs' =>
      match add_one_day d with
      | Some d' => mkrow sid d' v :: forecast_rows sid d' vs'
      | None => []
      end
  end.

(** No price of the list is NaN: prices are numbers. *)
Definition no_nan (xs : list float) : Prop :=
  Forall (fun x => is_nan x = false) xs.

(** The list has at least two distinct values. *)
Definition two_distinct (xs : list float) : Prop :=
  exists x y, In x xs /\ In y xs /\ feqb x y = false.

(** All the values of the list are equal. *)
Definition one_distinct (xs : list float) : Prop :=
  exists p, In p xs /\ Forall (fun x => feqb p x = true) xs.

(** The values of the list are pairwise different. *)
Definition distinct (l : list float) : Prop :=
  StronglySorted (fun a b => feqb a b = false) l.

(** The list is in strictly descending order. *)
Definition descending (l : list float) : Prop :=
  StronglySorted (fun a b => fltb b a = true) l.

(** [m] is a largest value of the list. *)
Definition is_max (xs : list float) (m : float) : Prop :=
  In m xs /\ forall x, In x xs -> fltb m x = false.

(** [p] is the second-largest distinct value of the list: it occurs in the
    list, some value is larger, and every larger value is a largest one. *)
Definition second_largest (xs : list float) (p : float) : Prop :=
  In p xs
  /\ (exists m, is_max xs m /\ fltb p m = true)
  /\ (forall x, In x xs -> fltb p x = true -> is_max xs x).

(** [p1] and [p2] as lines 108 and 109 compute them. *)
Definition forecast_p1 (p0 n : float) : float :=
  round2 (fadd p0 (fdiv (fsub n p0) (of_Z 2))).

Definition forecast_p2 (p0 p1 : float) : float :=
  round2 (fadd p1 (fdiv (fsub p0 p1) (of_Z 4))).


(** The position of a float in the order that [<] and [==] decide: the
    class first (negative infinity, negative, zero, positive, positive
    infinity), then exponent and mantissa. *)
Definition order_key (x : float) : Z * Z * Z :=
  match x with
  | S754_nan => (0, 0, 0)
  | S754_zero _ => (0, 0, 0)
  | S754_infinity true => (-2, 0, 0)
  | S754_infinity false => (2, 0, 0)
  | S754_finite true m e => (-1, - e, - Zpos m)
  | S754_finite false m e => (1, e, Zpos m)
  end.

Definition lex3 (a b : Z * Z * Z) : comparison :=
  let '(a1, a2, a3) := a in
  let '(b1, b2, b3) := b in
  match a1 ?= b1 with
  | Eq => match a2 ?= b2 with
          | Eq => a3 ?= b3
          | c => c
          end
  | c => c
  end.

(** The whole number of hundredths [k] is nearest to the value [m * 2^e]:
    equal to a hundred times the value when that is whole, within half a
    unit of it otherwise. *)
Definition nearest_hundredths (m : positive) (e : Z) (k : Z) : Prop :=
  match e with
  | Zneg p =>
      2 * Z.abs (k * Zpos (2 ^ p)%positive - 100 * Zpos m) <= Zpos (2 ^ p)%positive
  | _ => k = 100 * Zpos m * 2 ^ e
  end.


(** A string without white space and without underscore. *)
Fixpoint plain (s : string) : bool :=
  match s with
  | EmptyString => true
  | String c s' => negb (is_space c) && negb (is_underscore c) && plain s'
  end.

(** The line [line] of a file is the row [d]: lines 70 to 75 build [d] from
    it, whatever the state. *)
Definition parses_to (line : string) (d : dict) : Prop :=
  forall st, parse_row line st = (Ok d, st).

(** The state once [path] has been opened for reading. *)
Definition opened (st : state) (path : string) : state :=
  mkstate (heap st) (console st) (clock st) (reads st ++ [path]) (written st).

(** A string of the form DD-MM-YYYY: eight digits and two hyphens. *)
Definition dmy_shaped (t : string) : Prop :=
  exists d1 d2 m1 m2 y1 y2 y3 y4,
    t = String d1 (String d2 (String "-" (String m1 (String m2 (String "-"
          (String y1 (String y2 (String y3 (String y4 EmptyString)))))))))
    /\ Forall (fun c => is_digit c = true) [d1; d2; m1; m2; y1; y2; y3; y4].

(** A numeral with exactly two decimals: an optional minus sign, at least
    one digit, a point and two digits. *)
Definition two_decimals (t : string) : Prop :=
  exists s ip c1 c2,
    t = (sign_prefix s ++ ip ++ "." ++ String c1 (String c2 EmptyString))%string
    /\ all_digits ip = true /\ ip <> EmptyString
    /\ is_digit c1 = true /\ is_digit c2 = true.

(** The computation opens no file for reading. *)
Definition keeps_reads {A} (c : M A) : Prop :=
  forall st, reads (snd (c st)) = reads st.

(** The computation opens the file [path] for reading, and no other. *)
Definition reads_one {A} (path : string) (c : M A) : Prop :=
  forall st, reads (snd (c st)) = reads st ++ [path].

(** The computation changes the state only by adding dictionaries to the
    store: it prints nothing, opens and writes no file, leaves the clock
    alone and never updates a dictionary that exists. *)
Definition only_allocates {A} (c : M A) : Prop :=
  forall st, exists new, snd (c st) = with_heap st (heap st ++ new).

(** The output files other than [path]. *)
Definition other_files (path : string) (w : list (string * list (list value)))
  : list (string * list (list value)) :=
  filter (fun f => negb (String.eqb (fst f) path)) w.

(** The computation touches no output file but [path]: it opens nothing
    for reading, prints nothing, leaves the clock alone and makes no new
    dictionary. *)
Definition writes_only {A} (path : string) (c : M A) : Prop :=
  forall st,
    reads (snd (c st)) = reads st
    /\ console (snd (c st)) = console st
    /\ clock (snd (c st)) = clock st
    /\ length (heap (snd (c st))) = length (heap st)
    /\ other_files path (written (snd (c st))) = other_files path (written st).

(** The cells of a formatted row, in the order [row.values()] hands them
    to the writer. *)
Definition display_cells (w : StockRow) : list value :=
  [VStr (stock_id w); VStr (strftime_dmy (timestamp w));
   VStr (format_2f (price w))].

(** The line that the [except] clauses print for the exception [e], with
    the path [path] in it. *)
Definition report (path : string) (e : exn) : diagnostic :=
  match e with
  | FileNotFoundError => DirectoryDoesNotExist path
  | PermissionError => PermissionDenied path
  | _ => UnexpectedError e
  end.

(** The entries of a directory that pass the test of line 192: a file
    whose name ends in [.csv], in any case. *)
Definition csv_entries (fs : filesystem) (exchange_path : string)
    (entries : list string) : list string :=
  filter (fun file_name =>
            isfile fs (path_join exchange_path file_name)
            && endswith ".csv" (lower_string file_name)) entries.

(** The entries of the directory [path], none when it cannot be listed. *)
Definition listing (fs : filesystem) (path : string) : list string :=
  match listdir fs path with
  | inr entries => entries
  | inl _ => []
  end.

(** The entries of the input root that pass the test of line 224: the
    directories. *)
Definition exchanges (fs : filesystem) (input_path : string) : list string :=
  filter (fun exchange_name => isdir fs (path_join input_path exchange_name))
    (listing fs input_path).

(** The files that a run on [input_path] can open: the entries of the
    exchanges that pass the test of line 192. *)
Definition input_files (fs : filesystem) (input_path : string) : list string :=
  flat_map (fun exchange_name =>
              map (path_join (path_join input_path exchange_name))
                (csv_entries fs (path_join input_path exchange_name)
                   (listing fs (path_join input_path exchange_name))))
    (exchanges fs input_path).

(** The files that a run can write: one under [output_path] for each of
    the files it can open, in a directory named after the exchange. *)
Definition output_files (fs : filesystem) (input_path output_path : string)
  : list string :=
  flat_map (fun exchange_name =>
              map (path_join (path_join output_path exchange_name))
                (csv_entries fs (path_join input_path exchange_name)
                   (listing fs (path_join input_path exchange_name))))
    (exchanges fs input_path).

(** From [st] to [st'] the output files outside [paths] are as they were,
    and none has appeared. *)
Definition writes_within (paths : list string) (st st' : state) : Prop :=
  forall f, ~ In (fst f) paths ->
            (In f (written st') <-> In f (written st)).

(** A string without a comma: in a line of a file it is one field. *)
Fixpoint no_comma (s : string) : bool :=
  match s with
  | EmptyString => true
  | String c s' => negb (Ascii.eqb c ",") && no_comma s'
  end.

(** A string of white space only, such as the end of a line. *)
Fixpoint blank (s : string) : bool :=
  match s with
  | EmptyString => true
  | String c s' => is_space c && blank s'
  end.

(** A string of ASCII characters, which is what the strings stand for. *)
Fixpoint ascii_only (s : string) : bool :=
  match s with
  | EmptyString => true
  | String c s' => Nat.ltb (nat_of_ascii c) 128 && ascii_only s'
  end.

(** The strings of the cells of a formatted row. *)
Definition display_strings (w : StockRow) : list string :=
  [stock_id w; strftime_dmy (timestamp w); format_2f (price w)].

(** ** Stores and windows used as examples *)

(** A store that holds the rows [ws] at the references 0, 1, 2, ... *)
Definition store_of (ws : list StockRow) : state :=
  mkstate (map row_dict ws) [] 0 [] [].

Definition refs_of (ws : list StockRow) : list loc := seq 0 (length ws).

(** The float of a decimal literal [k * 10^e10]. *)
Definition literal (k e10 : Z) : float := strtod false k e10.

(** The window of the scenario of the specification: prices
    10.0, 10.0, 12.0, 9.0, 9.5, 11.0, 10.5, 9.8, 10.2, 9.9. *)
Definition scenario_prices : list float :=
  [literal 100 (-1); literal 100 (-1); literal 120 (-1); literal 90 (-1);
   literal 95 (-1); literal 110 (-1); literal 105 (-1); literal 98 (-1);
   literal 102 (-1); literal 99 (-1)].

Definition scenario_window : list StockRow :=
  map (fun dp => mkrow "ACME" (mkdate 2023 3 (fst dp)) (snd dp))
      (combine [1; 2; 3; 4; 5; 6; 7; 8; 9; 10] scenario_prices).

(** Two rows priced 10.0 and 10.01. *)
Definition close_window : list StockRow :=
  [mkrow "ACME" (mkdate 2023 3 1) (literal 100 (-1));
   mkrow "ACME" (mkdate 2023 3 2) (literal 1001 (-2))].

(** Two rows dated on the last two days of the calendar. *)
Definition last_days_window : list StockRow :=
  [mkrow "ACME" (mkdate 9999 12 30) (literal 100 (-1));
   mkrow "ACME" (mkdate 9999 12 31) (literal 1001 (-2))].

(** Ten rows with the same price. *)
Definition flat_window : list StockRow :=
  map (fun d => mkrow "ACME" (mkdate 2023 3 d) (literal 100 (-1)))
      [1; 2; 3; 4; 5; 6; 7; 8; 9; 10].

(** ** A file system used as an example *)

(** The ten lines of a file that holds the scenario window. *)
Definition scenario_lines : list string :=
  ["ACME,01-03-2023,10.0"; "ACME,02-03-2023,10.0"; "ACME,03-03-2023,12.0";
   "ACME,04-03-2023,9.0"; "ACME,05-03-2023,9.5"; "ACME,06-03-2023,11.0";
   "ACME,07-03-2023,10.5"; "ACME,08-03-2023,9.8"; "ACME,09-03-2023,10.2";
   "ACME,10-03-2023,9.9"]%string.

(** An input root [in] with one exchange [LSE]: [broken.csv] has a line
    that is no row, the three other files hold the scenario window. *)
Definition example_fs : filesystem :=
  mkfs
    (fun p => if String.eqb p "in" then inr ["LSE"%string]
              else if String.eqb p "in/LSE"
              then inr ["broken.csv"; "a.csv"; "b.csv"; "c.csv"]%string
              else inl FileNotFoundError)
    (fun p => String.prefix "in/LSE/" p)
    (fun p => String.eqb p "in/LSE")
    (fun p => if String.eqb p "in/LSE/broken.csv"
              then inr ["no comma on this line"%string]
              else if String.prefix "in/LSE/" p then inr scenario_lines
              else inl FileNotFoundError)
    (fun _ => None)
    (fun _ => None).

(** The same exchange without the broken file. *)
Definition sound_fs : filesystem :=
  mkfs
    (fun p => if String.eqb p "in" then inr ["LSE"%string]
              else if String.eqb p "in/LSE"
              then inr ["a.csv"; "b.csv"; "c.csv"]%string
              else inl FileNotFoundError)
    (isfile example_fs) (isdir example_fs) (read_lines example_fs)
    (makedirs example_fs) (open_write example_fs).

(** The exchange of [sound_fs] when [a.csv] cannot be written. *)
Definition unwritable_fs : filesystem :=
  mkfs (listdir sound_fs) (isfile sound_fs) (isdir sound_fs)
    (read_lines sound_fs) (makedirs sound_fs)
    (fun p => if String.eqb p "out/LSE/a.csv" then Some PermissionError
              else None).

(** A random source that always draws the lower bound. *)
Definition lowest_draw (seed a b : Z) : Z := a.

Definition empty_state : state := mkstate [] [] 0 [] [].

(** A file of eleven lines: the scenario window, then a line that is no
    row. *)
Definition trailing_fs : filesystem :=
  mkfs (listdir sound_fs) (isfile sound_fs) (isdir sound_fs)
    (fun p => inr (scenario_lines ++ ["no comma on this line"%string]))
    (makedirs sound_fs) (open_write sound_fs).

(** A random source that always draws the upper bound. *)
Definition highest_draw (seed a b : Z) : Z := b.

(** The exchange of [sound_fs] when its files are empty. *)
Definition empty_files_fs : filesystem :=
  mkfs (listdir sound_fs) (isfile sound_fs) (isdir sound_fs)
    (fun p => inr []) (makedirs sound_fs) (open_write sound_fs).

(** ** The order of floats *)

Ltac lex3_cases :=
  unfold lex3;
  repeat match goal with
         | p : (Z * Z * Z)%type |- _ => destruct p as [[? ?] ?]
         end;
  repeat match goal with
         | |- context [?u ?= ?v] => destruct (Z.compare_spec u v)
         | H : context [?u ?= ?v] |- _ => destruct (Z.compare_spec u v)
         end;
  try congruence; try lia.

Lemma lex3_refl a : lex3 a a = Eq.
Proof. lex3_cases. Qed.

Lemma lex3_antisym a b : lex3 b a = CompOpp (lex3 a b).
Proof. lex3_cases; simpl; try congruence; try lia. Qed.

Lemma lex3_lt_trans a b c : lex3 a b = Lt -> lex3 b c = Lt -> lex3 a c = Lt.
Proof. lex3_cases. Qed.

Lemma lex3_eq_lt a b c : lex3 a b = Eq -> lex3 a c = lex3 b c.
Proof. lex3_cases. Qed.

Lemma lex3_eq_lt_r a b c : lex3 a b = Eq -> lex3 c a = lex3 c b.
Proof. lex3_cases. Qed.

Lemma compare_key x y :
  is_nan x = false -> is_nan y = false ->
  SFcompare x y = Some (lex3 (order_key x) (order_key y)).
Proof.
  destruct x as [[]|[]| |[] mx ex], y as [[]|[]| |[] my ey];
    simpl; intros; try discriminate; try reflexivity.
  rewrite Z.compare_opp, (Z.compare_antisym ex ey).
  destruct (ex ?= ey); reflexivity.
Qed.

Lemma fltb_key x y :
  is_nan x = false -> is_nan y = false ->
  fltb x y = match lex3 (order_key x) (order_key y) with Lt => true | _ => false end.
Proof. intros Hx Hy. unfold fltb, SFltb. rewrite compare_key by assumption. reflexivity. Qed.

Lemma feqb_key x y :
  is_nan x = false -> is_nan y = false ->
  feqb x y = match lex3 (order_key x) (order_key y) with Eq => true | _ => false end.
Proof. intros Hx Hy. unfold feqb, SFeqb. rewrite compare_key by assumption. reflexivity. Qed.

Lemma fltb_not_nan x y : fltb x y = true -> is_nan x = false /\ is_nan y = false.
Proof. destruct x as [| | |], y as [| | |]; simpl; auto; discriminate. Qed.

Lemma feqb_not_nan x y : feqb x y = true -> is_nan x = false /\ is_nan y = false.
Proof. destruct x as [| | |], y as [| | |]; simpl; auto; discriminate. Qed.

Lemma feqb_refl x : is_nan x = false -> feqb x x = true.
Proof. intros H. rewrite feqb_key, lex3_refl by assumption. reflexivity. Qed.

Lemma feqb_sym x y : feqb x y = feqb y x.
Proof.
  destruct (is_nan x) eqn:Hx; [destruct x; try discriminate; destruct y; reflexivity|].
  destruct (is_nan y) eqn:Hy; [destruct y; try discriminate; destruct x; reflexivity|].
  rewrite !feqb_key, (lex3_antisym (order_key x)) by assumption.
  destruct (lex3 (order_key x) (order_key y)); reflexivity.
Qed.

Lemma feqb_trans x y z : feqb x y = true -> feqb y z = true -> feqb x z = true.
Proof.
  intros H1 H2.
  destruct (feqb_not_nan _ _ H1) as [Hx Hy], (feqb_not_nan _ _ H2) as [_ Hz].
  rewrite feqb_key in * by assumption.
  destruct (lex3 (order_key x) (order_key y)) eqn:E; try discriminate.
  rewrite (lex3_eq_lt _ _ _ E). assumption.
Qed.

Lemma fltb_irrefl x : fltb x x = false.
Proof.
  destruct (is_nan x) eqn:Hx; [destruct x; try discriminate; reflexivity|].
  rewrite fltb_key, lex3_refl by assumption. reflexivity.
Qed.

Lemma fltb_trans x y z : fltb x y = true -> fltb y z = true -> fltb x z = true.
Proof.
  intros H1 H2.
  destruct (fltb_not_nan _ _ H1) as [Hx Hy], (fltb_not_nan _ _ H2) as [_ Hz].
  rewrite fltb_key in * by assumption.
  destruct (lex3 (order_key x) (order_key y)) eqn:E1; try discriminate.
  destruct (lex3 (order_key y) (order_key z)) eqn:E2; try discriminate.
  rewrite (lex3_lt_trans _ _ _ E1 E2). reflexivity.
Qed.

Lemma fltb_asym x y : fltb x y = true -> fltb y x = false.
Proof.
  intros H. destruct (fltb y x) eqn:E; [|reflexivity].
  pose proof (fltb_trans _ _ _ H E) as C. rewrite fltb_irrefl in C. discriminate.
Qed.

Lemma fltb_total x y :
  is_nan x = false -> is_nan y = false ->
  fltb x y = false -> feqb x y = false -> fltb y x = true.
Proof.
  intros Hx Hy. rewrite !fltb_key, feqb_key, (lex3_antisym (order_key x)) by assumption.
  destruct (lex3 (order_key x) (order_key y)); simpl; congruence.
Qed.

Lemma feqb_fltb_l x y z : feqb x y = true -> is_nan z = false -> fltb x z = fltb y z.
Proof.
  intros H Hz. destruct (feqb_not_nan _ _ H) as [Hx Hy].
  rewrite feqb_key in H by assumption. rewrite !fltb_key by assumption.
  destruct (lex3 (order_key x) (order_key y)) eqn:E; try discriminate.
  rewrite (lex3_eq_lt _ _ _ E). reflexivity.
Qed.

Lemma feqb_fltb_r x y z : feqb x y = true -> is_nan z = false -> fltb z x = fltb z y.
Proof.
  intros H Hz. destruct (feqb_not_nan _ _ H) as [Hx Hy].
  rewrite feqb_key in H by assumption. rewrite !fltb_key by assumption.
  destruct (lex3 (order_key x) (order_key y)) eqn:E; try discriminate.
  rewrite (lex3_eq_lt_r _ _ _ E). reflexivity.
Qed.

Lemma feqb_not_fltb x y : feqb x y = true -> fltb x y = false.
Proof.
  intros H. destruct (feqb_not_nan _ _ H) as [Hx Hy].
  rewrite feqb_key in H by assumption. rewrite fltb_key by assumption.
  destruct (lex3 (order_key x) (order_key y)); congruence.
Qed.

(** ** Sets and sorted lists of prices *)

Lemma no_nan_In xs x : no_nan xs -> In x xs -> is_nan x = false.
Proof. unfold no_nan. rewrite Forall_forall. intros H Hx. apply H. apply list_elem_of_In. exact Hx. Qed.

Lemma set_add_In acc x y : In y (set_add acc x) -> In y acc \/ y = x.
Proof.
  unfold set_add. destruct (existsb _ acc); [auto|].
  rewrite in_app_iff. simpl. intuition.
Qed.

Lemma fold_set_add_In xs : forall acc y,
  In y (fold_left set_add xs acc) -> In y acc \/ In y xs.
Proof.
  induction xs as [|x xs IH]; simpl; intros acc y H; [auto|].
  destruct (IH _ _ H) as [H1|H1]; [|auto].
  destruct (set_add_In _ _ _ H1); subst; auto.
Qed.

Lemma py_set_In xs y : In y (py_set xs) -> In y xs.
Proof. intros H. destruct (fold_set_add_In _ _ _ H) as [[]|]; assumption. Qed.

Lemma set_add_keeps acc x y : In y acc -> In y (set_add acc x).
Proof.
  unfold set_add. destruct (existsb _ acc); [auto|].
  rewrite in_app_iff. auto.
Qed.

Lemma fold_set_add_keeps xs : forall acc y,
  In y acc -> In y (fold_left set_add xs acc).
Proof.
  induction xs as [|x xs IH]; simpl; intros acc y H; [auto|].
  apply IH, set_add_keeps, H.
Qed.

(** Every value of the list has an equal value in the set. *)
Lemma fold_set_add_covers xs : forall acc x,
  no_nan xs -> In x xs ->
  exists y, In y (fold_left set_add xs acc) /\ feqb y x = true.
Proof.
  induction xs as [|a xs IH]; simpl; intros acc x Hn Hx; [contradiction|].
  assert (Hn' : no_nan xs) by (inversion Hn; assumption).
  destruct Hx as [->|Hx]; [|apply IH; assumption].
  assert (Ha : is_nan x = false) by (inversion Hn; assumption).
  unfold set_add at 2. destruct (existsb (fun y => feqb y x) acc) eqn:E.
  - apply existsb_exists in E. destruct E as [y [Hy Hyx]].
    exists y. split; [apply fold_set_add_keeps, Hy|exact Hyx].
  - exists x. split; [|apply feqb_refl, Ha].
    apply fold_set_add_keeps. rewrite in_app_iff. simpl. auto.
Qed.

Lemma py_set_covers xs x :
  no_nan xs -> In x xs -> exists y, In y (py_set xs) /\ feqb y x = true.
Proof. apply fold_set_add_covers. Qed.

Lemma StronglySorted_snoc {A} (R : A -> A -> Prop) l x :
  StronglySorted R l -> List.Forall (fun a => R a x) l -> StronglySorted R (l ++ [x]).
Proof.
  induction 1 as [|a l Hl IH Ha]; intros Hx; simpl.
  - constructor; constructor.
  - inversion Hx; subst. constructor; [auto|].
    apply Forall_app; split; [assumption|]. constructor; [assumption|constructor].
Qed.

Lemma set_add_distinct acc x : distinct acc -> distinct (set_add acc x).
Proof.
  unfold set_add, distinct. intros H.
  destruct (existsb (fun y => feqb y x) acc) eqn:E; [assumption|].
  apply StronglySorted_snoc; [assumption|].
  apply List.Forall_forall. intros a Ha.
  destruct (feqb a x) eqn:Eax; [|reflexivity].
  assert (existsb (fun y => feqb y x) acc = true)
    by (apply existsb_exists; exists a; auto).
  congruence.
Qed.

Lemma fold_set_add_distinct xs : forall acc,
  distinct acc -> distinct (fold_left set_add xs acc).
Proof.
  induction xs as [|x xs IH]; simpl; intros acc H; [assumption|].
  apply IH, set_add_distinct, H.
Qed.

Lemma py_set_distinct xs : distinct (py_set xs).
Proof. apply fold_set_add_distinct. constructor. Qed.

Lemma py_set_no_nan xs : no_nan xs -> no_nan (py_set xs).
Proof.
  intros H. apply Forall_forall. intros x Hx.
  apply (no_nan_In xs); [assumption|]. apply py_set_In, list_elem_of_In, Hx.
Qed.

Lemma insert_desc_In x l y : In y (insert_desc x l) <-> y = x \/ In y l.
Proof.
  induction l as [|a l IH]; simpl; [intuition|].
  destruct (fltb a x); simpl; [intuition|]. rewrite IH. intuition.
Qed.

Lemma insert_desc_length x l : length (insert_desc x l) = S (length l).
Proof.
  induction l as [|a l IH]; simpl; [reflexivity|].
  destruct (fltb a x); simpl; [reflexivity|]. rewrite IH. reflexivity.
Qed.

Lemma sorted_desc_In l y : In y (sorted_desc l) <-> In y l.
Proof.
  induction l as [|a l IH]; simpl; [tauto|].
  rewrite insert_desc_In, IH. intuition.
Qed.

Lemma sorted_desc_length l : length (sorted_desc l) = length l.
Proof.
  induction l as [|a l IH]; simpl; [reflexivity|].
  rewrite insert_desc_length, IH. reflexivity.
Qed.

Lemma insert_desc_descending x l :
  is_nan x = false -> no_nan l ->
  (forall a, In a l -> feqb a x = false) ->
  descending l -> descending (insert_desc x l).
Proof.
  intros Hx Hn Hd Hs. induction Hs as [|a l Hl IH Ha]; simpl.
  - constructor; constructor.
  - assert (Hna : is_nan a = false) by (inversion Hn; assumption).
    assert (Hnl : no_nan l) by (inversion Hn; assumption).
    destruct (fltb a x) eqn:E.
    + constructor; [constructor; assumption|].
      constructor; [assumption|].
      apply List.Forall_forall. intros b Hb.
      rewrite List.Forall_forall in Ha.
      apply fltb_trans with a; [apply Ha, Hb|assumption].
    + constructor.
      * apply IH; [assumption|]. intros b Hb. apply Hd. right. exact Hb.
      * apply List.Forall_forall. intros b Hb.
        apply (proj1 (insert_desc_In _ _ _)) in Hb. destruct Hb as [->|Hb].
        -- apply fltb_total; try assumption. apply Hd. left. reflexivity.
        -- rewrite List.Forall_forall in Ha. apply Ha, Hb.
Qed.

Lemma sorted_desc_descending l :
  no_nan l -> distinct l -> descending (sorted_desc l).
Proof.
  intros Hn Hd. induction Hd as [|a l Hl IH Ha]; simpl; [constructor|].
  assert (Hna : is_nan a = false) by (inversion Hn; assumption).
  assert (Hnl : no_nan l) by (inversion Hn; assumption).
  apply insert_desc_descending; auto.
  - apply Forall_forall. intros b Hb. apply (no_nan_In l); [assumption|].
    apply sorted_desc_In, list_elem_of_In, Hb.
  - intros b Hb. apply (proj1 (sorted_desc_In _ _)) in Hb.
    rewrite List.Forall_forall in Ha. rewrite feqb_sym. apply Ha, Hb.
Qed.

(** Two lists in strictly descending order with the same values are the
    same list. *)
Lemma descending_unique l1 : forall l2,
  descending l1 -> descending l2 ->
  (forall x, In x l1 <-> In x l2) -> l1 = l2.
Proof.
  induction l1 as [|a l1 IH]; intros l2 H1 H2 Hin.
  - destruct l2 as [|b l2]; [reflexivity|].
    destruct (proj2 (Hin b) (or_introl eq_refl)).
  - destruct l2 as [|b l2]; [destruct (proj1 (Hin a) (or_introl eq_refl))|].
    inversion H1 as [|? ? H1' Ha]; subst. inversion H2 as [|? ? H2' Hb]; subst.
    rewrite List.Forall_forall in Ha, Hb.
    assert (E : a = b).
    { destruct (proj1 (Hin a) (or_introl eq_refl)) as [E|Ha2]; [auto|].
      destruct (proj2 (Hin b) (or_introl eq_refl)) as [E|Hb1]; [auto|].
      pose proof (fltb_asym _ _ (Hb a Ha2)) as C.
      rewrite (Ha b Hb1) in C. discriminate. }
    subst b. f_equal. apply IH; [assumption|assumption|].
    intros x. split; intros Hx.
    + destruct (proj1 (Hin x) (or_intror Hx)) as [E|Hx2]; [|exact Hx2].
      subst x. pose proof (Ha a Hx) as C. rewrite fltb_irrefl in C. discriminate.
    + destruct (proj2 (Hin x) (or_intror Hx)) as [E|Hx1]; [|exact Hx1].
      subst x. pose proof (Hb a Hx) as C. rewrite fltb_irrefl in C. discriminate.
Qed.

(** The order in which a set hands over its values does not matter to
    [sorted]: two lists of pairwise different numbers with the same values
    are sorted into the same list. *)
Lemma sorted_desc_order_irrelevant l1 l2 :
  no_nan l1 -> distinct l1 -> distinct l2 ->
  (forall x, In x l1 <-> In x l2) ->
  sorted_desc l1 = sorted_desc l2.
Proof.
  intros Hn H1 H2 Hin.
  assert (Hn2 : no_nan l2).
  { apply Forall_forall. intros x Hx. apply (no_nan_In l1); [assumption|].
    apply Hin, list_elem_of_In, Hx. }
  apply descending_unique.
  - apply sorted_desc_descending; assumption.
  - apply sorted_desc_descending; assumption.
  - intros x. rewrite !sorted_desc_In. apply Hin.
Qed.

(** The sorted set of a list with two distinct values has a second
    element, and that element is the second-largest distinct value. *)
Lemma sorted_set_second xs :
  no_nan xs -> two_distinct xs ->
  exists p0, sorted_desc (py_set xs) !! 1%nat = Some p0 /\ second_largest xs p0.
Proof.
  intros Hn (x & y & Hx & Hy & Hxy).
  destruct (py_set_covers xs x Hn Hx) as (rx & Hrx & Erx).
  destruct (py_set_covers xs y Hn Hy) as (ry & Hry & Ery).
  pose proof (sorted_desc_descending (py_set xs) (py_set_no_nan xs Hn)
                (py_set_distinct xs)) as Hs.
  assert (Hin : forall z, In z (sorted_desc (py_set xs)) -> In z xs)
    by (intros z Hz; apply py_set_In, sorted_desc_In, Hz).
  assert (Hrep : forall z, In z xs ->
            exists r, In r (sorted_desc (py_set xs)) /\ feqb r z = true).
  { intros z Hz. destruct (py_set_covers xs z Hn Hz) as (r & Hr & Er).
    exists r. split; [apply sorted_desc_In, Hr|exact Er]. }
  apply (proj2 (sorted_desc_In _ _)) in Hrx, Hry.
  destruct (sorted_desc (py_set xs)) as [|s0 [|s1 rest]] eqn:ES.
  - contradiction.
  - destruct Hrx as [->|[]], Hry as [->|[]].
    rewrite (feqb_trans x ry y) in Hxy; [discriminate|rewrite feqb_sym; exact Erx|exact Ery].
  - exists s1. split; [reflexivity|].
    inversion Hs as [|? ? Hs1 H0]; subst.
    inversion Hs1 as [|? ? Hs2 H1]; subst.
    rewrite List.Forall_forall in H0, H1.
    assert (Hmax : is_max xs s0).
    { split; [apply Hin; left; reflexivity|].
      intros z Hz. destruct (Hrep z Hz) as (r & Hr & Er).
      rewrite <- (feqb_fltb_r r z s0 Er)
        by (apply (no_nan_In xs); [assumption|apply Hin; left; reflexivity]).
      destruct Hr as [->|Hr]; [apply fltb_irrefl|].
      apply fltb_asym, H0, Hr. }
    split; [apply Hin; right; left; reflexivity|].
    split.
    + exists s0. split; [exact Hmax|]. apply H0. left. reflexivity.
    + intros z Hz Hlt. destruct (Hrep z Hz) as (r & Hr & Er).
      assert (Hn1 : is_nan s1 = false)
        by (apply (no_nan_In xs); [assumption|apply Hin; right; left; reflexivity]).
      rewrite <- (feqb_fltb_r r z s1 Er Hn1) in Hlt.
      destruct Hr as [->|[->|Hr]].
      * split; [exact Hz|]. intros w Hw.
        rewrite feqb_sym in Er.
        rewrite (feqb_fltb_l z r w Er) by (apply (no_nan_In xs); assumption).
        apply Hmax, Hw.
      * rewrite fltb_irrefl in Hlt. discriminate.
      * rewrite (fltb_asym r s1) in Hlt; [discriminate|]. apply H1, Hr.
Qed.

(** The set of a list whose values are all equal has one element. *)
Lemma sorted_set_single xs :
  one_distinct xs -> sorted_desc (py_set xs) !! 1%nat = None.
Proof.
  intros (p & Hp & Hall).
  assert (H : forall ys a, List.Forall (fun x => feqb a x = true) ys ->
            fold_left set_add ys [a] = [a]).
  { induction ys as [|b ys IH]; intros a Hf; simpl; [reflexivity|].
    inversion Hf; subst. unfold set_add at 2. simpl.
    replace (feqb a b) with true by auto. simpl. apply IH. assumption. }
  apply lookup_ge_None. rewrite sorted_desc_length.
  destruct xs as [|a xs]; [contradiction|].
  unfold py_set. simpl. unfold set_add at 2. simpl.
  rewrite H; [simpl; lia|].
  rewrite List.Forall_forall in Hall. apply List.Forall_forall. intros b Hb.
  apply feqb_trans with p; [rewrite feqb_sym|]; apply Hall; simpl; auto.
Qed.
(** ** Running the program: the store and the forecaster *)

Lemma bind_ok {A B} (c : M A) (k : A -> M B) st a st' :
  c st = (Ok a, st') -> bind c k st = k a st'.
Proof. intros H. unfold bind. rewrite H. reflexivity. Qed.

Lemma bind_raise {A B} (c : M A) (k : A -> M B) st e st' :
  c st = (Raise e, st') -> bind c k st = (Raise e, st').
Proof. intros H. unfold bind. rewrite H. reflexivity. Qed.

Lemma getitem_ok st l d k v :
  heap st !! l = Some d -> dict_get k d = Some v -> getitem l k st = (Ok v, st).
Proof.
  intros Hl Hk. unfold getitem, bind, deref. rewrite Hl. simpl. rewrite Hk. reflexivity.
Qed.

Lemma prices_of_ok st rows ws :
  holds_rows st rows ws -> prices_of rows st = (Ok (map price ws), st).
Proof.
  induction 1 as [|l w rows ws Hl _ IH]; simpl; [reflexivity|].
  rewrite (bind_ok _ _ _ _ _ (getitem_ok st l _ "Stock Price Value" _ Hl eq_refl)).
  simpl. unfold bind at 1. simpl. rewrite (bind_ok _ _ _ _ _ IH). reflexivity.
Qed.

Lemma holds_rows_last st rows ws w :
  holds_rows st rows ws -> last ws = Some w ->
  exists l, last rows = Some l /\ heap st !! l = Some (row_dict w).
Proof.
  induction 1 as [|l a rows ws Hl Hf IH]; simpl; [discriminate|].
  destruct Hf as [|l' a' rows' ws' Hl' Hf'].
  - simpl. intros [= <-]. exists l. auto.
  - intros Hw. apply IH. exact Hw.
Qed.

Lemma holds_rows_length st rows ws :
  holds_rows st rows ws -> length rows = length ws.
Proof. apply Forall2_length. Qed.

Lemma add_days_S k d :
  add_days (S k) d = match add_one_day d with Some d' => add_days k d' | None => None end.
Proof. reflexivity. Qed.

(** One turn of the loop of lines 112 to 117, from a last row of
    identifier [sid] dated [d]. *)
Lemma append_predicted_step v vs rows st l0 sid d x :
  last rows = Some l0 ->
  heap st !! l0 = Some (row_dict (mkrow sid d x)) ->
  append_predicted (v :: vs) rows st
  = match add_one_day d with
    | Some d' =>
        append_predicted vs (rows ++ [length (heap st)])
          (with_heap st (heap st ++ [row_dict (mkrow sid d' v)]))
    | None => (Raise OverflowError, st)
    end.
Proof.
  intros Hlast Hl0. cbn [append_predicted].
  unfold last_item. rewrite Hlast. cbn [of_option].
  unfold bind at 1. cbn [ret].
  rewrite (bind_ok _ _ _ _ _ (getitem_ok st l0 _ "Stock-ID" _ Hl0 eq_refl)).
  unfold bind at 1. cbn [ret].
  rewrite (bind_ok _ _ _ _ _ (getitem_ok st l0 _ "Timestamp" _ Hl0 eq_refl)).
  cbn [timestamp stock_id add_timedelta_1].
  destruct (add_one_day d) as [d'|]; reflexivity.
Qed.

(** The whole loop: the rows of [forecast_rows] are appended when the
    calendar has the days, and [OverflowError] is raised when it does
    not. *)
Lemma append_predicted_spec vs : forall rows st l0 sid d x,
  last rows = Some l0 ->
  heap st !! l0 = Some (row_dict (mkrow sid d x)) ->
  match add_days (length vs) d with
  | Some _ =>
      append_predicted vs rows st
      = (Ok (rows ++ seq (length (heap st)) (length vs)),
         with_heap st (heap st ++ map row_dict (forecast_rows sid d vs)))
  | None => exists st', append_predicted vs rows st = (Raise OverflowError, st')
  end.
Proof.
  induction vs as [|v vs IH]; intros rows st l0 sid d x Hlast Hl0.
  - simpl. rewrite !app_nil_r. destruct st; reflexivity.
  - cbn [length]. rewrite add_days_S.
    rewrite (append_predicted_step v vs rows st l0 sid d x Hlast Hl0).
    cbn [forecast_rows].
    destruct (add_one_day d) as [d'|] eqn:Hd; [|eauto].
    set (st1 := with_heap st _).
    assert (Hlast1 : last (rows ++ [length (heap st)]) = Some (length (heap st)))
      by apply last_snoc.
    assert (Hl1 : heap st1 !! length (heap st) = Some (row_dict (mkrow sid d' v)))
      by (subst st1; cbn [heap with_heap]; apply list_lookup_middle; reflexivity).
    specialize (IH _ st1 _ sid d' v Hlast1 Hl1).
    destruct (add_days (length vs) d') as [d3|]; [|exact IH].
    etransitivity; [exact IH|]. subst st1.
    unfold with_heap. cbn [heap console clock reads written map].
    rewrite length_app. cbn [length].
    replace (length (heap st) + 1)%nat with (S (length (heap st))) by lia.
    rewrite <- !app_assoc. reflexivity.
Qed.

Lemma last_map {A B} (f : A -> B) (l : list A) : last (map f l) = option_map f (last l).
Proof.
  induction l as [|a [|b l] IH]; try reflexivity. exact IH.
Qed.

(** Lines 98 to 109 on a window held in the store: the three predicted
    values go to the loop. *)
Lemma predict_next_values_eq st rows ws w p0 :
  holds_rows st rows ws ->
  last ws = Some w ->
  sorted_desc (py_set (map price ws)) !! 1%nat = Some p0 ->
  predict_next_values (Some rows) st
  = append_predicted
      [p0; forecast_p1 p0 (price w);
       forecast_p2 p0 (forecast_p1 p0 (price w))] rows st.
Proof.
  intros Hh Hw Hp0.
  destruct (holds_rows_last _ _ _ _ Hh Hw) as (l0 & Hlast & Hl0).
  unfold predict_next_values. cbn [of_option]. unfold bind at 1. cbn [ret].
  rewrite (bind_ok _ _ _ _ _ (prices_of_ok _ _ _ Hh)).
  unfold last_item. rewrite Hlast. cbn [of_option]. unfold bind at 1. cbn [ret].
  rewrite (bind_ok _ _ _ _ _ (getitem_ok st l0 _ "Stock Price Value" _ Hl0 eq_refl)).
  cbn [as_float]. unfold bind at 1. cbn [ret].
  unfold index. rewrite Hp0. reflexivity.
Qed.

(** [predict_next_values] on a window held in the store. *)
Lemma predict_next_values_spec st rows ws w p0 :
  holds_rows st rows ws ->
  last ws = Some w ->
  sorted_desc (py_set (map price ws)) !! 1%nat = Some p0 ->
  let p1 := forecast_p1 p0 (price w) in
  let p2 := forecast_p2 p0 p1 in
  match add_days 3 (timestamp w) with
  | Some _ =>
      predict_next_values (Some rows) st
      = (Ok (rows ++ seq (length (heap st)) 3),
         with_heap st
           (heap st ++ map row_dict
              (forecast_rows (stock_id w) (timestamp w) [p0; p1; p2])))
  | None => exists st', predict_next_values (Some rows) st = (Raise OverflowError, st')
  end.
Proof.
  intros Hh Hw Hp0 p1 p2.
  rewrite (predict_next_values_eq st rows ws w p0 Hh Hw Hp0).
  destruct (holds_rows_last _ _ _ _ Hh Hw) as (l0 & Hlast & Hl0).
  destruct w as [sid d x].
  exact (append_predicted_spec [p0; p1; p2] rows st l0 sid d x Hlast Hl0).
Qed.

(** With fewer than two distinct prices line 107 raises [IndexError], and
    nothing has changed by then. *)
Lemma predict_next_values_index_error st rows ws w :
  holds_rows st rows ws ->
  last ws = Some w ->
  sorted_desc (py_set (map price ws)) !! 1%nat = None ->
  predict_next_values (Some rows) st = (Raise IndexError, st).
Proof.
  intros Hh Hw Hp0.
  destruct (holds_rows_last _ _ _ _ Hh Hw) as (l0 & Hlast & Hl0).
  unfold predict_next_values. cbn [of_option]. unfold bind at 1. cbn [ret].
  rewrite (bind_ok _ _ _ _ _ (prices_of_ok _ _ _ Hh)).
  unfold last_item. rewrite Hlast. cbn [of_option]. unfold bind at 1. cbn [ret].
  rewrite (bind_ok _ _ _ _ _ (getitem_ok st l0 _ "Stock Price Value" _ Hl0 eq_refl)).
  cbn [as_float]. unfold bind at 1. cbn [ret].
  unfold index. rewrite Hp0. reflexivity.
Qed.

(** ** The calendar *)

Lemma valid_date_bounds d :
  valid_date d = true <->
  (1 <= year d <= 9999 /\ 1 <= month d <= 12
   /\ 1 <= day d <= days_in_month (year d) (month d)).
Proof.
  unfold valid_date. rewrite !andb_true_iff, !Z.leb_le. tauto.
Qed.

Lemma days_in_month_bounds y m : 28 <= days_in_month y m <= 31.
Proof.
  unfold days_in_month.
  destruct (m =? 2); [destruct (is_leap y); lia|].
  destruct ((m =? 4) || (m =? 6) || (m =? 9) || (m =? 11)); lia.
Qed.

Lemma days_before_month_succ y m :
  1 <= m < 12 ->
  days_before_month y (m + 1) = days_before_month y m + days_in_month y m.
Proof.
  intros Hm.
  assert (H : m = 1 \/ m = 2 \/ m = 3 \/ m = 4 \/ m = 5 \/ m = 6 \/ m = 7
              \/ m = 8 \/ m = 9 \/ m = 10 \/ m = 11) by lia.
  unfold days_before_month, days_in_month.
  repeat (destruct H as [H|H]; [subst m; destruct (is_leap y); reflexivity|]).
  subst m; destruct (is_leap y); reflexivity.
Qed.

Lemma days_before_year_succ y :
  1 <= y ->
  days_before_year (y + 1) = days_before_year y + (if is_leap y then 366 else 365).
Proof.
  intros Hy. unfold days_before_year, is_leap.
  replace (y + 1 - 1) with y by lia.
  destruct (Z.eqb_spec (y mod 4) 0), (Z.eqb_spec (y mod 100) 0),
    (Z.eqb_spec (y mod 400) 0); cbn [andb orb negb];
    Z.div_mod_to_equations; lia.
Qed.

Lemma days_before_month_1 y : days_before_month y 1 = 0.
Proof. reflexivity. Qed.

Lemma days_before_month_12 y :
  days_before_month y 12 = 334 + (if is_leap y then 1 else 0).
Proof. unfold days_before_month. destruct (is_leap y); reflexivity. Qed.

Lemma days_in_month_12 y : days_in_month y 12 = 31.
Proof. reflexivity. Qed.

(** The day after a date is the next day of the count of days. *)
Lemma next_day_ordinal d :
  valid_date d = true -> toordinal (next_day d) = toordinal d + 1.
Proof.
  intros Hv. apply valid_date_bounds in Hv. destruct Hv as (Hy & Hm & Hd).
  unfold next_day, toordinal.
  destruct (Z.ltb_spec (day d) (days_in_month (year d) (month d))) as [H1|H1].
  - cbn [year month day]. lia.
  - destruct (Z.ltb_spec (month d) 12) as [H2|H2]; cbn [year month day].
    + rewrite days_before_month_succ by lia. lia.
    + assert (Hm12 : month d = 12) by lia. rewrite Hm12 in *.
      rewrite days_before_year_succ, days_before_month_1, days_before_month_12 by lia.
      rewrite days_in_month_12 in *.
      destruct (is_leap (year d)); lia.
Qed.

Lemma date_eqb_eq a b : date_eqb a b = true <-> a = b.
Proof.
  unfold date_eqb. rewrite !andb_true_iff, !Z.eqb_eq.
  destruct a, b; cbn [year month day]. split.
  - intros [[-> ->] ->]. reflexivity.
  - intros [= -> -> ->]. auto.
Qed.

Lemma next_day_valid d :
  valid_date d = true -> date_eqb d max_date = false ->
  valid_date (next_day d) = true.
Proof.
  intros Hv Hmax. apply valid_date_bounds in Hv. destruct Hv as (Hy & Hm & Hd).
  apply valid_date_bounds. unfold next_day.
  destruct (Z.ltb_spec (day d) (days_in_month (year d) (month d))) as [H1|H1].
  - cbn [year month day]. lia.
  - destruct (Z.ltb_spec (month d) 12) as [H2|H2]; cbn [year month day].
    + pose proof (days_in_month_bounds (year d) (month d + 1)). lia.
    + pose proof (days_in_month_bounds (year d + 1) 1).
      assert (year d <> 9999); [|lia].
      intros Hy9. assert (E : d = max_date); [|apply date_eqb_eq in E; congruence].
      destruct d as [y m dd]. cbn [year month day] in *.
      assert (m = 12) by lia. subst. rewrite days_in_month_12 in *.
      unfold max_date. f_equal. lia.
Qed.

(** [k] days can be added to a date that is [k] days or more before the
    last day of the calendar, and they are [k] days of the count. *)
Lemma add_days_ok k : forall d,
  valid_date d = true ->
  toordinal d + Z.of_nat k <= toordinal max_date ->
  exists d', add_days k d = Some d' /\ valid_date d' = true
             /\ toordinal d' = toordinal d + Z.of_nat k.
Proof.
  induction k as [|k IH]; intros d Hv Hk.
  - exists d. cbn [add_days]. split; [reflexivity|]. split; [assumption|]. lia.
  - cbn [add_days]. unfold add_one_day.
    destruct (date_eqb d max_date) eqn:E.
    + apply date_eqb_eq in E. subst d. lia.
    + destruct (IH (next_day d)) as (d' & H1 & H2 & H3).
      * apply next_day_valid; assumption.
      * rewrite next_day_ordinal by assumption. lia.
      * exists d'. split; [assumption|]. split; [assumption|].
        rewrite H3, next_day_ordinal by assumption. lia.
Qed.

Lemma add_days_ordinal k : forall d d',
  valid_date d = true -> add_days k d = Some d' ->
  valid_date d' = true /\ toordinal d' = toordinal d + Z.of_nat k.
Proof.
  induction k as [|k IH]; intros d d' Hv.
  - cbn [add_days]. intros [= <-]. split; [assumption|lia].
  - cbn [add_days]. unfold add_one_day.
    destruct (date_eqb d max_date) eqn:E; [discriminate|].
    intros H. destruct (IH _ _ (next_day_valid d Hv E) H) as [H1 H2].
    split; [assumption|]. rewrite H2, next_day_ordinal by assumption. lia.
Qed.

(** The three forecast rows, when the calendar has their days. *)
Lemma forecast_rows_three sid d d3 a b c :
  add_days 3 d = Some d3 ->
  exists d1 d2,
    add_days 1 d = Some d1 /\ add_days 2 d = Some d2
    /\ forecast_rows sid d [a; b; c]
       = [mkrow sid d1 a; mkrow sid d2 b; mkrow sid d3 c].
Proof.
  cbn [add_days forecast_rows].
  destruct (add_one_day d) as [d1|]; [|discriminate].
  destruct (add_one_day d1) as [d2|]; [|discriminate].
  destruct (add_one_day d2) as [d3'|]; [|discriminate].
  intros [= <-]. exists d1, d2. auto.
Qed.

(** ** Rounding to two decimals *)

Lemma hundredths_nearest m e :
  0 <= hundredths m e /\ nearest_hundredths m e (hundredths m e).
Proof.
  unfold hundredths, nearest_hundredths. destruct e as [|p|p].
  - split; [lia|reflexivity].
  - split; [|reflexivity]. pose proof (Z.pow_pos_nonneg 2 (Z.pos p)). lia.
  - set (d := Z.pos (2 ^ p)). set (n := 100 * Z.pos m).
    assert (Hd : 0 < d) by (subst d; lia).
    pose proof (Z.div_mod n d ltac:(lia)) as Hn.
    pose proof (Z.mod_pos_bound n d Hd) as Hr.
    assert (Hq : 0 <= n / d) by (apply Z.div_pos; subst n; lia).
    set (q := n / d) in *. set (r := n mod d) in *.
    assert (Hk : q * d = d * q) by lia.
    destruct (Z.compare_spec (2 * r) d); [destruct (Z.even q)| |];
      (split; [lia|]); lia.
Qed.


(** ** The forecaster *)

Lemma last_Some_nonempty {A} (l : list A) : l <> [] -> exists x, last l = Some x.
Proof.
  induction l as [|a [|b l] IH]; intros H; [congruence|eauto|].
  apply IH. discriminate.
Qed.

Lemma two_distinct_last ws :
  two_distinct (map price ws) -> exists w, last ws = Some w.
Proof.
  intros (x & _ & Hx & _). apply last_Some_nonempty. intros ->. contradiction.
Qed.

Lemma holds_rows_extend st rows ws new :
  holds_rows st rows ws ->
  holds_rows (with_heap st (heap st ++ map row_dict new))
    (rows ++ seq (length (heap st)) (length new)) (ws ++ new).
Proof.
  intros H. apply Forall2_app.
  - eapply Forall2_impl; [exact H|]. cbn. intros l w Hl.
    apply lookup_app_l_Some. exact Hl.
  - cbn [heap with_heap]. generalize (heap st). clear.
    induction new as [|w new IH]; intros h; cbn; constructor.
    + apply list_lookup_middle. reflexivity.
    + specialize (IH (h ++ [row_dict w])).
      rewrite length_app, <- app_assoc in IH. cbn in IH.
      replace (S (length h)) with (length h + 1)%nat by lia. exact IH.
Qed.

(** C2.  For every window with at least two distinct prices (prices being
    numbers), the first forecasted price is the second-largest distinct
    price of the window, duplicates or not.  When the calendar has three
    days after the last row of the window, [predict_next_values] returns
    the rows of the window followed by three new rows, the first of which
    carries that price; when it has not, [OverflowError] is raised. *)
Theorem first_forecast_is_second_largest st rows ws w :
  holds_rows st rows ws ->
  no_nan (map price ws) ->
  two_distinct (map price ws) ->
  last ws = Some w ->
  exists p0,
    second_largest (map price ws) p0
    /\ sorted_desc (py_set (map price ws)) !! 1%nat = Some p0
    /\ match add_days 3 (timestamp w) with
       | Some _ =>
           exists st' d1,
             predict_next_values (Some rows) st
             = (Ok (rows ++ seq (length (heap st)) 3), st')
             /\ add_days 1 (timestamp w) = Some d1
             /\ heap st' !! length (heap st)
                = Some (row_dict (mkrow (stock_id w) d1 p0))
       | None =>
           exists st',
             predict_next_values (Some rows) st = (Raise OverflowError, st')
       end.
Proof.
  intros Hh Hn Hd Hw.
  destruct (sorted_set_second _ Hn Hd) as (p0 & Hp0 & Hsl).
  exists p0. split; [exact Hsl|]. split; [exact Hp0|].
  pose proof (predict_next_values_spec st rows ws w p0 Hh Hw Hp0) as Hspec.
  cbv zeta in Hspec.
  destruct (add_days 3 (timestamp w)) as [d3|] eqn:Hd3; [|exact Hspec].
  destruct (forecast_rows_three (stock_id w) (timestamp w) d3 p0
              (forecast_p1 p0 (price w))
              (forecast_p2 p0 (forecast_p1 p0 (price w))) Hd3)
    as (d1 & d2 & Hd1 & _ & Hf).
  rewrite Hf in Hspec.
  eexists _, d1. split; [exact Hspec|]. split; [exact Hd1|].
  cbn [heap with_heap map]. apply list_lookup_middle. reflexivity.
Qed.

(** The property at the window of the scenario, where [p0] is 11.0. *)
Lemma first_forecast_is_second_largest_witness :
  holds_rows (store_of scenario_window) (refs_of scenario_window) scenario_window
  /\ no_nan (map price scenario_window)
  /\ two_distinct (map price scenario_window)
  /\ last scenario_window
     = Some (mkrow "ACME" (mkdate 2023 3 10) (literal 99 (-1)))
  /\ exists p0,
       second_largest (map price scenario_window) p0
       /\ sorted_desc (py_set (map price scenario_window)) !! 1%nat = Some p0
       /\ exists st' d1,
            predict_next_values (Some (refs_of scenario_window))
              (store_of scenario_window)
            = (Ok (refs_of scenario_window
                     ++ seq (length (heap (store_of scenario_window))) 3), st')
            /\ add_days 1 (mkdate 2023 3 10) = Some d1
            /\ heap st' !! length (heap (store_of scenario_window))
               = Some (row_dict (mkrow "ACME" d1 p0)).
Proof.
  assert (H1 : holds_rows (store_of scenario_window) (refs_of scenario_window)
                 scenario_window) by (unfold holds_rows; repeat constructor).
  assert (H2 : no_nan (map price scenario_window))
    by (unfold no_nan; repeat constructor).
  assert (H3 : two_distinct (map price scenario_window)).
  { exists (literal 100 (-1)), (literal 120 (-1)).
    split; [left; reflexivity|]. split; [right; right; left; reflexivity|].
    vm_compute. reflexivity. }
  assert (H4 : last scenario_window
               = Some (mkrow "ACME" (mkdate 2023 3 10) (literal 99 (-1))))
    by reflexivity.
  split; [exact H1|]. split; [exact H2|]. split; [exact H3|]. split; [exact H4|].
  exact (first_forecast_is_second_largest _ _ _ _ H1 H2 H3 H4).
Defined.

(** C3.  For the window of prices 10.0, 10.0, 12.0, 9.0, 9.5, 11.0, 10.5,
    9.8, 10.2, 9.9, whatever its identifiers and dates, [predict_next_values]
    appends exactly three rows, priced 11.0, 10.45 and 10.59, on the three
    days that follow the last timestamp of the window. *)
Theorem scenario_forecast st rows ws w d3 :
  holds_rows st rows ws ->
  map price ws = scenario_prices ->
  last ws = Some w ->
  add_days 3 (timestamp w) = Some d3 ->
  exists d1 d2,
    add_days 1 (timestamp w) = Some d1
    /\ add_days 2 (timestamp w) = Some d2
    /\ predict_next_values (Some rows) st
       = (Ok (rows ++ seq (length (heap st)) 3),
          with_heap st
            (heap st ++ map row_dict
               [mkrow (stock_id w) d1 (literal 110 (-1));
                mkrow (stock_id w) d2 (literal 1045 (-2));
                mkrow (stock_id w) d3 (literal 1059 (-2))])).
Proof.
  intros Hh Hp Hw Hd3.
  assert (Hn : price w = literal 99 (-1)).
  { pose proof (last_map price ws) as Hl. rewrite Hp, Hw in Hl.
    change (Some (literal 99 (-1)) = Some (price w)) in Hl. congruence. }
  assert (Hp0 : sorted_desc (py_set (map price ws)) !! 1%nat
                = Some (literal 110 (-1)))
    by (rewrite Hp; vm_compute; reflexivity).
  pose proof (predict_next_values_spec st rows ws w _ Hh Hw Hp0) as Hspec.
  cbv zeta in Hspec. rewrite Hd3, Hn in Hspec.
  assert (E1 : forecast_p1 (literal 110 (-1)) (literal 99 (-1))
               = literal 1045 (-2)) by (vm_compute; reflexivity).
  assert (E2 : forecast_p2 (literal 110 (-1)) (literal 1045 (-2))
               = literal 1059 (-2)) by (vm_compute; reflexivity).
  rewrite E1, E2 in Hspec.
  destruct (forecast_rows_three (stock_id w) (timestamp w) d3
              (literal 110 (-1)) (literal 1045 (-2)) (literal 1059 (-2)) Hd3)
    as (d1 & d2 & Hd1 & Hd2 & Hf).
  exists d1, d2. rewrite Hf in Hspec. auto.
Qed.

(** The scenario with rows dated from 01-03-2023 to 10-03-2023. *)
Lemma scenario_forecast_witness :
  holds_rows (store_of scenario_window) (refs_of scenario_window) scenario_window
  /\ map price scenario_window = scenario_prices
  /\ last scenario_window = Some (mkrow "ACME" (mkdate 2023 3 10) (literal 99 (-1)))
  /\ add_days 3 (mkdate 2023 3 10) = Some (mkdate 2023 3 13)
  /\ exists d1 d2,
       add_days 1 (mkdate 2023 3 10) = Some d1
       /\ add_days 2 (mkdate 2023 3 10) = Some d2
       /\ predict_next_values (Some (refs_of scenario_window))
            (store_of scenario_window)
          = (Ok (refs_of scenario_window
                   ++ seq (length (heap (store_of scenario_window))) 3),
             with_heap (store_of scenario_window)
               (heap (store_of scenario_window) ++ map row_dict
                  [mkrow "ACME" d1 (literal 110 (-1));
                   mkrow "ACME" d2 (literal 1045 (-2));
                   mkrow "ACME" (mkdate 2023 3 13) (literal 1059 (-2))])).
Proof.
  assert (H1 : holds_rows (store_of scenario_window) (refs_of scenario_window)
                 scenario_window) by (unfold holds_rows; repeat constructor).
  assert (H2 : map price scenario_window = scenario_prices) by reflexivity.
  assert (H3 : last scenario_window
               = Some (mkrow "ACME" (mkdate 2023 3 10) (literal 99 (-1))))
    by reflexivity.
  assert (H4 : add_days 3 (mkdate 2023 3 10) = Some (mkdate 2023 3 13))
    by reflexivity.
  split; [exact H1|]. split; [exact H2|]. split; [exact H3|]. split; [exact H4|].
  exact (scenario_forecast _ _ _ _ _ H1 H2 H3 H4).
Defined.

(** C4 as the specification states it fails at the end of the calendar: a
    window whose last row is dated 31-12-9999 has two distinct prices, and
    [predict_next_values] raises [OverflowError] instead of returning
    rows. *)
Lemma forecast_fails_on_last_day :
  holds_rows (store_of last_days_window) (refs_of last_days_window)
    last_days_window
  /\ two_distinct (map price last_days_window)
  /\ predict_next_values (Some (refs_of last_days_window))
       (store_of last_days_window)
     = (Raise OverflowError, store_of last_days_window).
Proof.
  split; [unfold holds_rows; repeat constructor|].
  split; [|vm_compute; reflexivity].
  exists (literal 100 (-1)), (literal 1001 (-2)).
  split; [left; reflexivity|]. split; [right; left; reflexivity|].
  vm_compute. reflexivity.
Qed.

(** C4, amended.  For every non-empty window with at least two distinct
    prices (prices being numbers) whose last timestamp is at least three
    days before 31-12-9999, [predict_next_values] returns window_size + 3
    rows: the rows of the window, unchanged and in order, then three new
    rows that carry the identifier of the last row of the window and are
    dated on the three days of the calendar that follow it, one day
    apart. *)
Theorem forecast_appends_three_rows st rows ws w :
  holds_rows st rows ws ->
  no_nan (map price ws) ->
  two_distinct (map price ws) ->
  last ws = Some w ->
  valid_date (timestamp w) = true ->
  toordinal (timestamp w) + 3 <= toordinal max_date ->
  exists p0 p1 p2 d1 d2 d3,
    predict_next_values (Some rows) st
    = (Ok (rows ++ seq (length (heap st)) 3),
       with_heap st
         (heap st ++ map row_dict [mkrow (stock_id w) d1 p0;
                                   mkrow (stock_id w) d2 p1;
                                   mkrow (stock_id w) d3 p2]))
    /\ length (rows ++ seq (length (heap st)) 3) = (length ws + 3)%nat
    /\ holds_rows
         (with_heap st
            (heap st ++ map row_dict [mkrow (stock_id w) d1 p0;
                                      mkrow (stock_id w) d2 p1;
                                      mkrow (stock_id w) d3 p2]))
         (rows ++ seq (length (heap st)) 3)
         (ws ++ [mkrow (stock_id w) d1 p0;
                 mkrow (stock_id w) d2 p1;
                 mkrow (stock_id w) d3 p2])
    /\ add_one_day (timestamp w) = Some d1
    /\ add_one_day d1 = Some d2
    /\ add_one_day d2 = Some d3
    /\ (valid_date d1 = true /\ valid_date d2 = true /\ valid_date d3 = true)
    /\ toordinal d1 = toordinal (timestamp w) + 1
    /\ toordinal d2 = toordinal (timestamp w) + 2
    /\ toordinal d3 = toordinal (timestamp w) + 3.
Proof.
  intros Hh Hn Hd Hw Hv Hmax.
  destruct (sorted_set_second _ Hn Hd) as (p0 & Hp0 & _).
  destruct (add_days_ok 3 (timestamp w) Hv Hmax) as (d3 & Hd3 & _ & Ho3).
  pose proof (predict_next_values_spec st rows ws w p0 Hh Hw Hp0) as Hspec.
  cbv zeta in Hspec. rewrite Hd3 in Hspec.
  set (p1 := forecast_p1 p0 (price w)) in *.
  set (p2 := forecast_p2 p0 p1) in *.
  destruct (forecast_rows_three (stock_id w) (timestamp w) d3 p0 p1 p2 Hd3)
    as (d1 & d2 & Hd1 & Hd2 & Hf).
  destruct (add_days_ordinal 1 _ _ Hv Hd1) as [Hv1 Ho1].
  destruct (add_days_ordinal 2 _ _ Hv Hd2) as [Hv2 Ho2].
  destruct (add_days_ordinal 3 _ _ Hv Hd3) as [Hv3 _].
  assert (Hsteps : add_one_day (timestamp w) = Some d1
                   /\ add_one_day d1 = Some d2 /\ add_one_day d2 = Some d3).
  { cbn [add_days] in Hd1, Hd2, Hd3.
    destruct (add_one_day (timestamp w)) as [e1|]; [|discriminate].
    injection Hd1 as ->.
    destruct (add_one_day d1) as [e2|]; [|discriminate].
    injection Hd2 as ->.
    destruct (add_one_day d2) as [e3|]; [|discriminate].
    injection Hd3 as ->. auto. }
  destruct Hsteps as (Hs1 & Hs2 & Hs3).
  rewrite Hf in Hspec.
  exists p0, p1, p2, d1, d2, d3. split; [exact Hspec|].
  split; [rewrite length_app, length_seq, (holds_rows_length _ _ _ Hh);
          reflexivity|].
  split; [exact (holds_rows_extend st rows ws _ Hh)|].
  split; [exact Hs1|]. split; [exact Hs2|]. split; [exact Hs3|].
  split; [auto|]. lia.
Qed.

(** The property at the window priced 10.0 and 10.01. *)
Lemma forecast_appends_three_rows_witness :
  holds_rows (store_of close_window) (refs_of close_window) close_window
  /\ no_nan (map price close_window)
  /\ two_distinct (map price close_window)
  /\ last close_window = Some (mkrow "ACME" (mkdate 2023 3 2) (literal 1001 (-2)))
  /\ valid_date (mkdate 2023 3 2) = true
  /\ toordinal (mkdate 2023 3 2) + 3 <= toordinal max_date
  /\ exists p0 p1 p2 d1 d2 d3,
       predict_next_values (Some (refs_of close_window)) (store_of close_window)
       = (Ok (refs_of close_window
                ++ seq (length (heap (store_of close_window))) 3),
          with_heap (store_of close_window)
            (heap (store_of close_window)
               ++ map row_dict [mkrow "ACME" d1 p0; mkrow "ACME" d2 p1;
                                mkrow "ACME" d3 p2]))
       /\ length (refs_of close_window
                    ++ seq (length (heap (store_of close_window))) 3)
          = (length close_window + 3)%nat
       /\ holds_rows
            (with_heap (store_of close_window)
               (heap (store_of close_window)
                  ++ map row_dict [mkrow "ACME" d1 p0; mkrow "ACME" d2 p1;
                                   mkrow "ACME" d3 p2]))
            (refs_of close_window
               ++ seq (length (heap (store_of close_window))) 3)
            (close_window ++ [mkrow "ACME" d1 p0; mkrow "ACME" d2 p1;
                              mkrow "ACME" d3 p2])
       /\ add_one_day (mkdate 2023 3 2) = Some d1
       /\ add_one_day d1 = Some d2
       /\ add_one_day d2 = Some d3
       /\ (valid_date d1 = true /\ valid_date d2 = true
           /\ valid_date d3 = true)
       /\ toordinal d1 = toordinal (mkdate 2023 3 2) + 1
       /\ toordinal d2 = toordinal (mkdate 2023 3 2) + 2
       /\ toordinal d3 = toordinal (mkdate 2023 3 2) + 3.
Proof.
  assert (H1 : holds_rows (store_of close_window) (refs_of close_window)
                 close_window) by (unfold holds_rows; repeat constructor).
  assert (H2 : no_nan (map price close_window))
    by (unfold no_nan; repeat constructor).
  assert (H3 : two_distinct (map price close_window)).
  { exists (literal 100 (-1)), (literal 1001 (-2)).
    split; [left; reflexivity|]. split; [right; left; reflexivity|].
    vm_compute. reflexivity. }
  assert (H4 : last close_window
               = Some (mkrow "ACME" (mkdate 2023 3 2) (literal 1001 (-2))))
    by reflexivity.
  assert (H5 : valid_date (mkdate 2023 3 2) = true) by reflexivity.
  assert (H6 : toordinal (mkdate 2023 3 2) + 3 <= toordinal max_date)
    by (vm_compute; discriminate).
  split; [exact H1|]. split; [exact H2|]. split; [exact H3|].
  split; [exact H4|]. split; [exact H5|]. split; [exact H6|].
  exact (forecast_appends_three_rows _ _ _ _ H1 H2 H3 H4 H5 H6).
Defined.


(** The forecasts can also fall outside the interval: in a window priced
    10.001 and 10.002, [p0] is 10.001, the last price is 10.002, and [p1]
    is 10.0, below both. *)
Lemma p1_outside_for_close_prices :
  forecast_p1 (literal 10001 (-3)) (literal 10002 (-3)) = literal 100 (-1)
  /\ fltb (literal 100 (-1)) (literal 10001 (-3)) = true
  /\ fltb (literal 100 (-1)) (literal 10002 (-3)) = true.
Proof. repeat split; vm_compute; reflexivity. Qed.



(** ** The traversal of an exchange *)

(** The diagnostic that the handler of [process_files_from_exchange]
    prints for an exception. *)
Lemma process_files_first_forecast_raises randint fs n input_path output_path
    exchange_name file_name rest st0 random_rows st1 e st2 :
  listdir fs (path_join input_path exchange_name) = inr (file_name :: rest) ->
  isfile fs (path_join (path_join input_path exchange_name) file_name) = true ->
  endswith ".csv" (lower_string file_name) = true ->
  get_random_rows randint fs
    (path_join (path_join input_path exchange_name) file_name) st0
  = (Ok random_rows, st1) ->
  predict_next_values random_rows st1 = (Raise e, st2) ->
  process_files_from_exchange randint fs n input_path output_path exchange_name st0
  = print match e with
          | FileNotFoundError =>
              DirectoryDoesNotExist (path_join input_path exchange_name)
          | PermissionError => PermissionDenied (path_join input_path exchange_name)
          | _ => UnexpectedError e
          end st2.
Proof.
  intros Hls Hf Hc Hg Hp.
  unfold process_files_from_exchange, try_except.
  rewrite Hls. cbn [of_sum]. unfold bind at 1. cbn [ret process_entries].
  rewrite Hf, Hc. cbn [andb].
  unfold bind at 1. unfold bind at 1. rewrite Hg.
  unfold bind at 1. rewrite Hp. reflexivity.
Qed.

(** C7.  For every window, of ten rows or of any other size, that contains
    only one distinct price, forecasting fails: [predict_next_values] raises
    [IndexError] and has changed nothing, so no forecast is produced; and
    [process_files_from_exchange], on meeting a file with such a window,
    reports the error on the console and writes nothing for it. *)
Theorem single_price_window_fails_cleanly st rows ws :
  holds_rows st rows ws ->
  one_distinct (map price ws) ->
  predict_next_values (Some rows) st = (Raise IndexError, st)
  /\ forall randint fs n input_path output_path exchange_name file_name rest st0,
       listdir fs (path_join input_path exchange_name) = inr (file_name :: rest) ->
       isfile fs (path_join (path_join input_path exchange_name) file_name) = true ->
       endswith ".csv" (lower_string file_name) = true ->
       get_random_rows randint fs
         (path_join (path_join input_path exchange_name) file_name) st0
       = (Ok (Some rows), st) ->
       process_files_from_exchange randint fs n input_path output_path
         exchange_name st0
       = (Ok tt, with_console st (console st ++ [UnexpectedError IndexError])).
Proof.
  intros Hh Ho.
  assert (Hw : exists w, last ws = Some w).
  { destruct Ho as (p & Hp & _). apply last_Some_nonempty.
    intros ->. contradiction. }
  destruct Hw as [w Hw].
  pose proof (predict_next_values_index_error st rows ws w Hh Hw
                (sorted_set_single _ Ho)) as Hp.
  split; [exact Hp|].
  intros randint fs n inp out ex file_name rest st0 Hls Hf Hc Hg.
  rewrite (process_files_first_forecast_raises randint fs n inp out ex
             file_name rest st0 (Some rows) st IndexError st Hls Hf Hc Hg Hp).
  reflexivity.
Qed.

(** The property at a window of ten rows priced 10.0. *)
Lemma single_price_window_fails_cleanly_witness :
  holds_rows (store_of flat_window) (refs_of flat_window) flat_window
  /\ one_distinct (map price flat_window)
  /\ predict_next_values (Some (refs_of flat_window)) (store_of flat_window)
     = (Raise IndexError, store_of flat_window)
  /\ forall randint fs n input_path output_path exchange_name file_name rest st0,
       listdir fs (path_join input_path exchange_name) = inr (file_name :: rest) ->
       isfile fs (path_join (path_join input_path exchange_name) file_name) = true ->
       endswith ".csv" (lower_string file_name) = true ->
       get_random_rows randint fs
         (path_join (path_join input_path exchange_name) file_name) st0
       = (Ok (Some (refs_of flat_window)), store_of flat_window) ->
       process_files_from_exchange randint fs n input_path output_path
         exchange_name st0
       = (Ok tt, with_console (store_of flat_window)
                   (console (store_of flat_window)
                      ++ [UnexpectedError IndexError])).
Proof.
  assert (H1 : holds_rows (store_of flat_window) (refs_of flat_window)
                 flat_window) by (unfold holds_rows; repeat constructor).
  assert (H2 : one_distinct (map price flat_window)).
  { exists (literal 100 (-1)). split; [left; reflexivity|].
    repeat constructor. }
  split; [exact H1|]. split; [exact H2|].
  exact (single_price_window_fails_cleanly _ _ _ H1 H2).
Defined.

(** C1, on the code.  In the exchange of [example_fs] the first file has a
    line that is no row.  [get_random_rows] reports it and returns nothing;
    [predict_next_values] then raises [TypeError] on that absent window,
    the handler of [process_files_from_exchange] reports it and returns:
    the three files that follow are never opened and nothing is written. *)
Theorem broken_file_stops_the_exchange :
  process_files_from_exchange lowest_draw example_fs 3 "in" "out" "LSE" empty_state
  = (Ok tt,
     mkstate [] [UnexpectedError IndexError; UnexpectedError TypeError] 0
             ["in/LSE/broken.csv"%string] []).
Proof. vm_compute. reflexivity. Qed.

(** Whatever follows it in the listing, a file whose sampling fails ends
    the processing of its exchange. *)
Lemma failed_sampling_stops_the_exchange randint fs n input_path output_path
    exchange_name file_name rest st0 st1 :
  listdir fs (path_join input_path exchange_name) = inr (file_name :: rest) ->
  isfile fs (path_join (path_join input_path exchange_name) file_name) = true ->
  endswith ".csv" (lower_string file_name) = true ->
  get_random_rows randint fs
    (path_join (path_join input_path exchange_name) file_name) st0
  = (Ok None, st1) ->
  process_files_from_exchange randint fs n input_path output_path exchange_name st0
  = (Ok tt, with_console st1 (console st1 ++ [UnexpectedError TypeError])).
Proof.
  intros Hls Hf Hc Hg.
  rewrite (process_files_first_forecast_raises randint fs n input_path
             output_path exchange_name file_name rest st0 None st1 TypeError st1
             Hls Hf Hc Hg eq_refl).
  reflexivity.
Qed.

(** C8, on the code.  With [n = 0] the count of processed files is 1 when
    it is first compared with [n], and it never equals [n] afterwards: the
    three files of the exchange of [sound_fs] are all read and written. *)
Theorem zero_cap_processes_every_file :
  let '(r, st) :=
    process_files_from_exchange lowest_draw sound_fs 0 "in" "out" "LSE"
      empty_state in
  r = Ok tt
  /\ reads st = ["in/LSE/a.csv"; "in/LSE/b.csv"; "in/LSE/c.csv"]%string
  /\ map fst (written st)
     = ["out/LSE/a.csv"; "out/LSE/b.csv"; "out/LSE/c.csv"]%string.
Proof. vm_compute. auto. Qed.

(** With [n = 2] the same exchange is left after two files. *)
Lemma cap_of_two_processes_two_files :
  let '(r, st) :=
    process_files_from_exchange lowest_draw sound_fs 2 "in" "out" "LSE"
      empty_state in
  r = Ok tt
  /\ reads st = ["in/LSE/a.csv"; "in/LSE/b.csv"]%string
  /\ map fst (written st) = ["out/LSE/a.csv"; "out/LSE/b.csv"]%string.
Proof. vm_compute. auto. Qed.

(** ** The formatter *)

Lemma setitem_ok st l d k v :
  heap st !! l = Some d ->
  setitem l k v st = (Ok tt, with_heap st (<[l := dict_set k v d]> (heap st))).
Proof. intros H. unfold setitem. rewrite H. reflexivity. Qed.

(** One turn of the loop of [format_rows] on a row held in the store: the
    dictionary of the row is replaced by its display form. *)
Lemma format_each_step row rest w st :
  heap st !! row = Some (row_dict w) ->
  format_each (row :: rest) st
  = format_each rest (with_heap st (<[row := display_dict w]> (heap st))).
Proof.
  intros Hl. cbn [format_each].
  rewrite (bind_ok _ _ _ _ _ (getitem_ok st row _ "Timestamp" _ Hl eq_refl)).
  cbn [strftime]. unfold bind at 1. cbn [ret].
  rewrite (bind_ok _ _ _ _ _ (setitem_ok st row _ "Timestamp" _ Hl)).
  set (st1 := with_heap st _).
  assert (Hl1 : heap st1 !! row
                = Some (dict_set "Timestamp" (VStr (strftime_dmy (timestamp w)))
                          (row_dict w))).
  { subst st1. cbn [heap with_heap]. apply list_lookup_insert_eq.
    eapply lookup_lt_Some, Hl. }
  rewrite (bind_ok _ _ _ _ _
             (getitem_ok st1 row _ "Stock Price Value" (VFloat (price w)) Hl1 eq_refl)).
  cbn [to_float]. unfold bind at 1. cbn [ret].
  rewrite (bind_ok _ _ _ _ _ (setitem_ok st1 row _ "Stock Price Value" _ Hl1)).
  subst st1. unfold with_heap. cbn [heap console clock reads written].
  rewrite list_insert_insert_eq. reflexivity.
Qed.

Lemma Forall2_impl_In {A B} (P Q : A -> B -> Prop) l k :
  Forall2 P l k -> (forall a b, In a l -> P a b -> Q a b) -> Forall2 Q l k.
Proof.
  induction 1 as [|a b l k Hab _ IH]; intros H; constructor.
  - apply H; [left; reflexivity|assumption].
  - apply IH. intros a' b' Ha'. apply H. right. exact Ha'.
Qed.

(** The loop of [format_rows] on rows held in the store, each of them
    referenced once: every row is replaced by its display form, and no
    other dictionary of the store changes. *)
Lemma format_each_spec rows : forall ws st,
  holds_rows st rows ws ->
  NoDup rows ->
  exists h',
    format_each rows st = (Ok tt, with_heap st h')
    /\ Forall2 (fun l w => h' !! l = Some (display_dict w)) rows ws
    /\ (forall l, ~ In l rows -> h' !! l = heap st !! l).
Proof.
  induction rows as [|row rest IH]; intros ws st Hh Hnd.
  - inversion Hh; subst. exists (heap st).
    split; [destruct st; reflexivity|]. split; [constructor|auto].
  - inversion Hh as [|? w ? ws' Hl Hrest]; subst.
    apply NoDup_cons in Hnd. destruct Hnd as [Hnot Hnd].
    rewrite (format_each_step row rest w st Hl).
    set (st1 := with_heap st _).
    assert (Hh1 : holds_rows st1 rest ws').
    { apply (Forall2_impl_In _ _ _ _ Hrest). intros l w' Hin Hlw.
      subst st1. cbn [heap with_heap]. rewrite list_lookup_insert_ne; [exact Hlw|].
      intros ->. apply Hnot. apply list_elem_of_In. exact Hin. }
    destruct (IH ws' st1 Hh1 Hnd) as (h' & Hrun & Hdisp & Hframe).
    exists h'. split; [exact Hrun|]. split.
    + constructor; [|exact Hdisp].
      rewrite Hframe by (intros Hin; apply Hnot, list_elem_of_In, Hin).
      subst st1. cbn [heap with_heap]. apply list_lookup_insert_eq.
      eapply lookup_lt_Some, Hl.
    + intros l Hl'. rewrite Hframe by (intros Hin; apply Hl'; right; exact Hin).
      subst st1. cbn [heap with_heap]. apply list_lookup_insert_ne.
      intros ->. apply Hl'. left. reflexivity.
Qed.

(** ** Decimal numerals: printing and reading *)

Lemma digit_char_spec d :
  0 <= d <= 9 ->
  is_digit (digit_char d) = true /\ digit_val (digit_char d) = d
  /\ is_space (digit_char d) = false /\ is_underscore (digit_char d) = false.
Proof.
  intros H.
  assert (E : d = 0 \/ d = 1 \/ d = 2 \/ d = 3 \/ d = 4 \/ d = 5 \/ d = 6
              \/ d = 7 \/ d = 8 \/ d = 9) by lia.
  repeat (destruct E as [E|E]; [subst d; repeat split; reflexivity|]).
  subst d; repeat split; reflexivity.
Qed.

Lemma append_String x (a b : string) :
  (String x a ++ b)%string = String x (a ++ b)%string.
Proof. reflexivity. Qed.

Lemma append_Empty (b : string) : (EmptyString ++ b)%string = b.
Proof. reflexivity. Qed.

Lemma string_app_assoc (a b c : string) :
  ((a ++ b) ++ c = a ++ (b ++ c))%string.
Proof.
  induction a as [|x a IH]; [reflexivity|].
  rewrite !append_String, IH. reflexivity.
Qed.

Lemma append_Empty_r (a : string) : (a ++ EmptyString)%string = a.
Proof.
  induction a as [|x a IH]; [reflexivity|]. rewrite append_String, IH. reflexivity.
Qed.

Lemma all_digits_app a b :
  all_digits (a ++ b)%string = all_digits a && all_digits b.
Proof.
  induction a as [|x a IH]; [reflexivity|].
  rewrite append_String. cbn [all_digits]. rewrite IH, andb_assoc. reflexivity.
Qed.

Lemma digits_fuel_S fuel n acc :
  digits_fuel (S fuel) n acc
  = if n / 10 =? 0 then String (digit_char (n mod 10)) acc
    else digits_fuel fuel (n / 10) (String (digit_char (n mod 10)) acc).
Proof. reflexivity. Qed.

(** The digits printed for [n] are digits, there is at least one, and read
    back they are [n]. *)
Lemma digits_fuel_spec fuel : forall n acc,
  0 <= n < 2 ^ Z.of_nat (S fuel) ->
  exists ds,
    digits_fuel (S fuel) n acc = (ds ++ acc)%string
    /\ all_digits ds = true
    /\ ds <> EmptyString
    /\ forall rest, digits_value 0 (ds ++ rest)%string = digits_value n rest.
Proof.
  induction fuel as [|fuel IH]; intros n acc Hn.
  - assert (Hn1 : n = 0 \/ n = 1) by (change (2 ^ Z.of_nat 1) with 2 in Hn; lia).
    destruct Hn1 as [-> | ->];
      eexists (String _ EmptyString); (split; [reflexivity|]);
      (split; [reflexivity|]); (split; [discriminate|]); intros rest; reflexivity.
  - rewrite (digits_fuel_S (S fuel)).
    assert (Hd : 0 <= n mod 10 <= 9) by (pose proof (Z.mod_pos_bound n 10); lia).
    destruct (digit_char_spec _ Hd) as (Hdig & Hval & _).
    destruct (Z.eqb_spec (n / 10) 0) as [Hz|Hz].
    + exists (String (digit_char (n mod 10)) EmptyString).
      split; [reflexivity|]. split; [cbn [all_digits]; rewrite Hdig; reflexivity|].
      split; [discriminate|]. intros rest.
      rewrite append_String, append_Empty. cbn [digits_value]. rewrite Hval.
      f_equal. pose proof (Z.div_mod n 10). lia.
    + destruct (IH (n / 10) (String (digit_char (n mod 10)) acc))
        as (ds & Hrun & Hall & Hne & Hread).
      { split; [apply Z.div_pos; lia|].
        apply Z.div_lt_upper_bound; [lia|].
        assert (Hp : 2 ^ Z.of_nat (S (S fuel)) = 2 * 2 ^ Z.of_nat (S fuel))
          by (rewrite (Nat2Z.inj_succ (S fuel)), Z.pow_succ_r by lia; reflexivity).
        rewrite Hp in Hn.
        pose proof (Z.pow_nonneg 2 (Z.of_nat (S fuel))). lia. }
      exists (ds ++ String (digit_char (n mod 10)) EmptyString)%string.
      split; [rewrite Hrun, string_app_assoc; reflexivity|].
      split; [rewrite all_digits_app, Hall; cbn [all_digits]; rewrite Hdig;
              reflexivity|].
      split; [destruct ds; [congruence|discriminate]|].
      intros rest. rewrite string_app_assoc, Hread.
      rewrite append_String, append_Empty. cbn [digits_value]. rewrite Hval.
      f_equal. pose proof (Z.div_mod n 10). lia.
Qed.

Lemma digits_spec n :
  0 <= n ->
  all_digits (digits n) = true
  /\ digits n <> EmptyString
  /\ forall rest, digits_value 0 (digits n ++ rest)%string = digits_value n rest.
Proof.
  intros Hn. unfold digits.
  destruct (digits_fuel_spec (Z.to_nat (Z.log2 n)) n EmptyString)
    as (ds & Hrun & Hall & Hne & Hread).
  { split; [assumption|].
    rewrite Nat2Z.inj_succ, Z2Nat.id by apply Z.log2_nonneg.
    destruct (Z.eq_dec n 0) as [->|Hn0]; [reflexivity|].
    apply Z.log2_spec. lia. }
  rewrite Hrun, append_Empty_r. auto.
Qed.

(** ** Reading a price printed with two decimals *)

Lemma is_digit_plain c :
  is_digit c = true -> is_space c = false /\ is_underscore c = false.
Proof.
  unfold is_digit, is_space, is_underscore.
  rewrite andb_true_iff, !Z.leb_le. intros [H1 H2].
  split.
  - apply orb_false_iff. split; apply andb_false_iff; right;
      apply Z.leb_gt; lia.
  - apply Nat.eqb_neq. lia.
Qed.

Lemma is_digit_no_sign c rest :
  is_digit c = true -> take_sign (String c rest) = (false, String c rest).
Proof.
  destruct c as [[] [] [] [] [] [] [] []]; try discriminate; reflexivity.
Qed.

Lemma is_digit_no_word c rest :
  is_digit c = true ->
  let word := lower_string (String c rest) in
  String.eqb word "inf" = false /\ String.eqb word "infinity" = false
  /\ String.eqb word "nan" = false.
Proof.
  destruct c as [[] [] [] [] [] [] [] []]; try discriminate;
    intros _; repeat split; reflexivity.
Qed.

Lemma all_digits_plain ds : all_digits ds = true -> plain ds = true.
Proof.
  induction ds as [|c ds IH]; [reflexivity|]. cbn [all_digits plain].
  rewrite andb_true_iff. intros [Hc Hds].
  destruct (is_digit_plain c Hc) as [-> ->]. rewrite IH by assumption. reflexivity.
Qed.

Lemma plain_app a b : plain (a ++ b)%string = plain a && plain b.
Proof.
  induction a as [|x a IH]; [reflexivity|].
  rewrite append_String. cbn [plain]. rewrite IH, andb_assoc. reflexivity.
Qed.

Lemma lstrip_plain s : plain s = true -> lstrip s = s.
Proof.
  destruct s as [|c s]; [reflexivity|]. cbn [plain lstrip].
  rewrite !andb_true_iff, negb_true_iff. intros [[-> _] _]. reflexivity.
Qed.

Lemma rstrip_plain s : plain s = true -> rstrip s = s.
Proof.
  induction s as [|c s IH]; [reflexivity|]. cbn [plain rstrip].
  rewrite !andb_true_iff, negb_true_iff. intros [[Hc _] Hs].
  rewrite IH by assumption. destruct s; [rewrite Hc|]; reflexivity.
Qed.

Lemma is_c_space_is_space c : is_c_space c = true -> is_space c = true.
Proof.
  unfold is_c_space, is_space.
  rewrite !orb_true_iff, !andb_true_iff, !Z.leb_le, Z.eqb_eq. lia.
Qed.

Lemma plain_no_c_space c : is_space c = false -> is_c_space c = false.
Proof.
  intros H. destruct (is_c_space c) eqn:E; [|reflexivity].
  apply is_c_space_is_space in E. congruence.
Qed.

Lemma ltrim_plain s : plain s = true -> ltrim s = s.
Proof.
  destruct s as [|c s]; [reflexivity|]. cbn [plain ltrim].
  rewrite !andb_true_iff, negb_true_iff. intros [[Hc _] _].
  rewrite (plain_no_c_space c Hc). reflexivity.
Qed.

Lemma rtrim_plain s : plain s = true -> rtrim s = s.
Proof.
  induction s as [|c s IH]; [reflexivity|]. cbn [plain rtrim].
  rewrite !andb_true_iff, negb_true_iff. intros [[Hc _] Hs].
  rewrite IH by assumption.
  destruct s; [rewrite (plain_no_c_space c Hc)|]; reflexivity.
Qed.

Lemma drop_underscores_plain s : forall prev,
  plain s = true ->
  match prev with Some p => is_underscore p = false | None => True end ->
  drop_underscores prev s = Some s.
Proof.
  induction s as [|c s IH]; intros prev Hs Hprev.
  - cbn. destruct prev as [p|]; [rewrite Hprev|]; reflexivity.
  - cbn [plain] in Hs. rewrite !andb_true_iff, !negb_true_iff in Hs.
    destruct Hs as [[_ Hc] Hs]. cbn [drop_underscores]. rewrite Hc.
    assert (Ha : match prev with Some p => is_underscore p | None => false end
                 = false) by (destruct prev; auto).
    rewrite Ha. cbn [andb]. rewrite (IH (Some c) Hs Hc). reflexivity.
Qed.

Lemma span_digits_app ds rest :
  all_digits ds = true ->
  match rest with String c _ => is_digit c = false | EmptyString => True end ->
  span_digits (ds ++ rest)%string = (ds, rest).
Proof.
  intros Hds Hrest. induction ds as [|c ds IH].
  - rewrite append_Empty. destruct rest as [|c r]; [reflexivity|].
    cbn [span_digits]. rewrite Hrest. reflexivity.
  - cbn [all_digits] in Hds. apply andb_true_iff in Hds. destruct Hds as [Hc Hds].
    rewrite append_String. cbn [span_digits]. rewrite Hc, (IH Hds). reflexivity.
Qed.

(** Reading the numeral printed for [k] hundredths gives the float nearest
    to [k / 100]. *)
Lemma float_of_str_fixed2 s k :
  0 <= k -> float_of_str (fixed2 s k) = Some (strtod s k (-2)).
Proof.
  intros Hk. unfold fixed2.
  set (c1 := digit_char (k mod 100 / 10)). set (c2 := digit_char (k mod 10)).
  assert (H1 : 0 <= k mod 100 / 10 <= 9).
  { pose proof (Z.mod_pos_bound k 100 ltac:(lia)).
    split; [apply Z.div_pos; lia|]. apply Z.lt_succ_r.
    apply Z.div_lt_upper_bound; lia. }
  assert (H2 : 0 <= k mod 10 <= 9) by (pose proof (Z.mod_pos_bound k 10); lia).
  destruct (digit_char_spec _ H1) as (Hd1 & Hv1 & _).
  destruct (digit_char_spec _ H2) as (Hd2 & Hv2 & _).
  fold c1 in Hd1, Hv1. fold c2 in Hd2, Hv2.
  destruct (digits_spec (k / 100) ltac:(apply Z.div_pos; lia))
    as (Hall & Hne & Hread).
  set (ds := digits (k / 100)) in *.
  set (frac := String c1 (String c2 EmptyString)).
  set (body := (ds ++ "." ++ frac)%string).
  assert (Hbody : exists c rest, body = String c rest /\ is_digit c = true).
  { subst body. destruct ds as [|c ds']; [congruence|].
    exists c. eexists. rewrite append_String. split; [reflexivity|].
    cbn [all_digits] in Hall. apply andb_true_iff in Hall. tauto. }
  assert (Hplain : plain (sign_prefix s ++ body)%string = true).
  { subst body frac. rewrite !plain_app, (all_digits_plain ds Hall).
    cbn [plain]. destruct (is_digit_plain c1 Hd1) as [-> ->].
    destruct (is_digit_plain c2 Hd2) as [-> ->]. destruct s; reflexivity. }
  unfold float_of_str, trim.
  rewrite (ltrim_plain _ Hplain), (rtrim_plain _ Hplain),
    (drop_underscores_plain _ None Hplain I).
  destruct Hbody as (c & rest & Ebody & Hc).
  assert (Hsign : take_sign (sign_prefix s ++ body)%string = (s, body)).
  { destruct s; [reflexivity|]. cbn [sign_prefix]. rewrite append_Empty, Ebody.
    apply is_digit_no_sign, Hc. }
  rewrite Hsign.
  destruct (is_digit_no_word c rest Hc) as (W1 & W2 & W3).
  rewrite Ebody, W1, W2, W3. cbn [orb]. rewrite <- Ebody.
  assert (Hparse : parse_decimal body = Some (k, -2)).
  { unfold parse_decimal. subst body.
    rewrite (span_digits_app ds _ Hall) by reflexivity.
    change ("." ++ frac)%string with (String "." frac).
    assert (Hfrac : span_digits frac = (frac, EmptyString)).
    { subst frac. cbn [span_digits]. rewrite Hd1, Hd2. reflexivity. }
    cbv iota. rewrite Hfrac.
    destruct (ds ++ frac)%string as [|x y] eqn:E.
    { destruct ds; [congruence|discriminate]. }
    rewrite <- E. cbn [parse_exponent]. rewrite Hread.
    subst frac. cbn [digits_value String.length]. rewrite Hv1, Hv2.
    f_equal. f_equal.
    clear. Z.div_mod_to_equations. lia. }
  rewrite Hparse. reflexivity.
Qed.

(** C10.  For every finite price, formatting it with two decimals and
    reading the string back gives the price rounded to two decimals:
    [float(f"{x:.2f}") = round(x, 2)]. *)
Theorem format_then_parse_is_round2 x :
  is_finite x = true -> float_of_str (format_2f x) = Some (round2 x).
Proof.
  destruct x as [s|s| |s m e]; try discriminate; intros _.
  - cbn [format_2f round2]. rewrite float_of_str_fixed2 by lia. reflexivity.
  - cbn [format_2f round2]. apply float_of_str_fixed2.
    apply hundredths_nearest.
Qed.

(** The property at the price 10.587499. *)
Lemma format_then_parse_is_round2_witness :
  is_finite (literal 10587499 (-6)) = true
  /\ float_of_str (format_2f (literal 10587499 (-6)))
     = Some (round2 (literal 10587499 (-6))).
Proof.
  assert (H : is_finite (literal 10587499 (-6)) = true) by reflexivity.
  split; [exact H|]. exact (format_then_parse_is_round2 _ H).
Defined.

(** ** The sampler *)

(** Building a row from a line reads no state and changes none. *)
Lemma parse_row_pure row : exists r, forall st, parse_row row st = (r, st).
Proof.
  unfold parse_row, index, of_option, bind, ret, raise.
  destruct (split_on "," (strip row) !! 0%nat);
    [|eexists; intros; reflexivity].
  destruct (split_on "," (strip row) !! 1%nat) as [f1|];
    [|eexists; intros; reflexivity].
  destruct (strptime_dmy f1); [|eexists; intros; reflexivity].
  destruct (split_on "," (strip row) !! 2%nat) as [f2|];
    [|eexists; intros; reflexivity].
  destruct (float_of_str f2); eexists; intros; reflexivity.
Qed.

Lemma generate_random_start_row_spec randint total st :
  (forall seed a b, a <= b -> a <= randint seed a b <= b) ->
  exists start_row st1,
    generate_random_start_row randint total st = (Ok start_row, st1)
    /\ heap st1 = heap st
    /\ (10 <= total -> 0 <= start_row <= total - 10)
    /\ (total < 10 -> start_row = 0).
Proof.
  intros Hr. unfold generate_random_start_row.
  destruct (Z.ltb_spec total 10) as [H|H].
  - exists 0, st. split; [reflexivity|]. split; [reflexivity|]. split; lia.
  - eexists _, _. split; [reflexivity|]. split; [reflexivity|].
    split; [|lia]. intros _. apply Hr. lia.
Qed.

(** The loop of lines 65 to 76, started at line number [current_row]: it
    returns the rows built from the lines numbered [start_row] to
    [start_row + 9] that are left, in order, each in a new dictionary. *)
Lemma read_rows_spec start_row lines : forall current_row acc st rows st',
  read_rows start_row lines current_row acc st = (Ok rows, st') ->
  exists ds,
    Forall2 parses_to
      (firstn (Z.to_nat (start_row + 10 - Z.max current_row start_row))
         (skipn (Z.to_nat (start_row - current_row)) lines)) ds
    /\ rows = acc ++ seq (length (heap st)) (length ds)
    /\ st' = with_heap st (heap st ++ ds).
Proof.
  induction lines as [|row rest IH]; intros cur acc st rows st' Hrun.
  - cbn in Hrun. injection Hrun as <- <-. exists [].
    rewrite skipn_nil, firstn_nil. split; [constructor|].
    rewrite !app_nil_r. destruct st; auto.
  - cbn [read_rows] in Hrun.
    destruct (Z.geb_spec cur (start_row + 10)) as [H1|H1].
    + cbn in Hrun. injection Hrun as <- <-. exists [].
      replace (Z.to_nat (start_row + 10 - Z.max cur start_row)) with 0%nat by lia.
      split; [constructor|]. rewrite !app_nil_r. destruct st; auto.
    + destruct (Z.geb_spec cur start_row) as [H2|H2].
      * destruct (parse_row_pure row) as [r Hr].
        unfold bind at 1 in Hrun. unfold bind at 1 in Hrun.
        rewrite Hr in Hrun. destruct r as [d|e]; [|discriminate].
        unfold bind at 1 in Hrun. cbn [alloc ret] in Hrun.
        destruct (IH _ _ _ _ _ Hrun) as (ds & Hds & -> & ->).
        exists (d :: ds).
        replace (Z.to_nat (start_row - cur)) with 0%nat by lia.
        replace (Z.to_nat (start_row + 10 - Z.max cur start_row))
          with (S (Z.to_nat (start_row + 10 - Z.max (cur + 1) start_row))) by lia.
        replace (Z.to_nat (start_row - (cur + 1))) with 0%nat in Hds by lia.
        cbn [skipn firstn] in *. split.
        -- constructor; [|exact Hds]. intros s. apply Hr.
        -- cbn [heap length]. rewrite length_app. cbn [length].
           replace (length (heap st) + 1)%nat with (S (length (heap st))) by lia.
           unfold with_heap. cbn [heap console clock reads written seq].
           rewrite <- !app_assoc. auto.
      * unfold bind at 1 in Hrun. cbn [ret] in Hrun.
        destruct (IH _ _ _ _ _ Hrun) as (ds & Hds & -> & ->).
        exists ds.
        replace (Z.to_nat (start_row - cur))
          with (S (Z.to_nat (start_row - (cur + 1)))) by lia.
        replace (Z.max cur start_row) with (Z.max (cur + 1) start_row) by lia.
        cbn [skipn]. auto.
Qed.

(** C5.  Whenever [get_random_rows] returns a window for a file of
    [total_row_count] lines, the window holds the rows built from the lines
    numbered [start_row] to [start_row + 9], contiguous and in file order,
    where [start_row] is what [generate_random_start_row] drew: with at
    least 10 lines, [0 <= start_row <= total_row_count - 10] and the window
    has exactly 10 rows; with fewer than 10 lines, [start_row] is 0 and the
    window has all the rows of the file. *)
Theorem sampled_window_is_contiguous randint fs file_path lines st rows st' :
  (forall seed a b, a <= b -> a <= randint seed a b <= b) ->
  read_lines fs file_path = inr lines ->
  get_random_rows randint fs file_path st = (Ok (Some rows), st') ->
  let total_row_count := Z.of_nat (length lines) in
  exists start_row st1 ds,
    generate_random_start_row randint total_row_count (opened st file_path)
    = (Ok start_row, st1)
    /\ (10 <= total_row_count ->
        0 <= start_row <= total_row_count - 10 /\ length rows = 10%nat)
    /\ (total_row_count < 10 -> start_row = 0 /\ length rows = length lines)
    /\ Forall2 parses_to (firstn 10 (skipn (Z.to_nat start_row) lines)) ds
    /\ rows = seq (length (heap st)) (length ds)
    /\ heap st' = heap st ++ ds.
Proof.
  intros Hrange Hlines Hrun total_row_count.
  unfold get_random_rows, try_except in Hrun.
  unfold bind at 1 in Hrun. unfold open_for_reading in Hrun.
  rewrite Hlines in Hrun. fold (opened st file_path) in Hrun.
  destruct (generate_random_start_row_spec randint total_row_count
              (opened st file_path) Hrange)
    as (start_row & st1 & Hgen & Hheap & Hge & Hlt).
  fold total_row_count in Hrun.
  unfold bind at 1 in Hrun. rewrite Hgen in Hrun.
  unfold bind at 1 in Hrun.
  destruct (read_rows start_row lines 0 [] st1) as [[rows0|e] st2] eqn:Hread;
    [|cbn in Hrun; unfold bind, print in Hrun; discriminate].
  cbn [ret] in Hrun. injection Hrun as <- <-.
  destruct (read_rows_spec _ _ _ _ _ _ _ Hread) as (ds & Hds & -> & ->).
  assert (Hstart : 0 <= start_row) by (destruct (Z.ltb_spec total_row_count 10); lia).
  replace (Z.to_nat (start_row + 10 - Z.max 0 start_row)) with 10%nat in Hds by lia.
  replace (start_row - 0) with start_row in Hds by lia.
  pose proof (Forall2_length _ _ _ Hds) as Hlen.
  rewrite length_take, length_drop in Hlen.
  exists start_row, st1, ds. split; [exact Hgen|].
  cbn [app heap with_heap]. rewrite Hheap, length_seq.
  subst total_row_count.
  split; [intros H; split; [apply Hge, H|specialize (Hge H); lia]|].
  split; [intros H; split; [apply Hlt, H|specialize (Hlt H); lia]|].
  auto.
Qed.

(** The property at a file of ten lines, with a draw of 0. *)
Lemma sampled_window_is_contiguous_witness :
  (forall seed a b, a <= b -> a <= lowest_draw seed a b <= b)
  /\ read_lines example_fs "in/LSE/a.csv" = inr scenario_lines
  /\ get_random_rows lowest_draw example_fs "in/LSE/a.csv" empty_state
     = (Ok (Some (seq 0 10)),
        snd (get_random_rows lowest_draw example_fs "in/LSE/a.csv" empty_state))
  /\ exists start_row st1 ds,
       generate_random_start_row lowest_draw (Z.of_nat (length scenario_lines))
         (opened empty_state "in/LSE/a.csv")
       = (Ok start_row, st1)
       /\ (10 <= Z.of_nat (length scenario_lines) ->
           0 <= start_row <= Z.of_nat (length scenario_lines) - 10
           /\ length (seq 0 10) = 10%nat)
       /\ (Z.of_nat (length scenario_lines) < 10 ->
           start_row = 0 /\ length (seq 0 10) = length scenario_lines)
       /\ Forall2 parses_to
            (firstn 10 (skipn (Z.to_nat start_row) scenario_lines)) ds
       /\ seq 0 10 = seq (length (heap empty_state)) (length ds)
       /\ heap (snd (get_random_rows lowest_draw example_fs "in/LSE/a.csv"
                       empty_state))
          = heap empty_state ++ ds.
Proof.
  assert (H1 : forall seed a b, a <= b -> a <= lowest_draw seed a b <= b)
    by (intros seed a b H; unfold lowest_draw; lia).
  assert (H2 : read_lines example_fs "in/LSE/a.csv" = inr scenario_lines)
    by reflexivity.
  assert (H3 : get_random_rows lowest_draw example_fs "in/LSE/a.csv" empty_state
               = (Ok (Some (seq 0 10)),
                  snd (get_random_rows lowest_draw example_fs "in/LSE/a.csv"
                         empty_state)))
    by (vm_compute; reflexivity).
  split; [exact H1|]. split; [exact H2|]. split; [exact H3|].
  exact (sampled_window_is_contiguous _ _ _ _ _ _ _ H1 H2 H3).
Defined.

(** The loop of lines 65 to 76 does return the rows when the lines it has
    to read are rows. *)
Lemma read_rows_complete start_row lines : forall current_row acc st ds,
  Forall2 parses_to
    (firstn (Z.to_nat (start_row + 10 - Z.max current_row start_row))
       (skipn (Z.to_nat (start_row - current_row)) lines)) ds ->
  read_rows start_row lines current_row acc st
  = (Ok (acc ++ seq (length (heap st)) (length ds)),
     with_heap st (heap st ++ ds)).
Proof.
  induction lines as [|row rest IH]; intros cur acc st ds Hds.
  - rewrite skipn_nil, firstn_nil in Hds. inversion Hds; subst.
    cbn. rewrite !app_nil_r. destruct st; reflexivity.
  - cbn [read_rows].
    destruct (Z.geb_spec cur (start_row + 10)) as [H1|H1].
    + replace (Z.to_nat (start_row + 10 - Z.max cur start_row)) with 0%nat
        in Hds by lia.
      inversion Hds; subst. cbn. rewrite !app_nil_r. destruct st; reflexivity.
    + destruct (Z.geb_spec cur start_row) as [H2|H2].
      * replace (Z.to_nat (start_row - cur)) with 0%nat in Hds by lia.
        replace (Z.to_nat (start_row + 10 - Z.max cur start_row))
          with (S (Z.to_nat (start_row + 10 - Z.max (cur + 1) start_row)))
          in Hds by lia.
        cbn [skipn firstn] in Hds.
        inversion Hds as [|? d ? ds' Hd Hds']; subst.
        unfold bind at 1. unfold bind at 1. rewrite (Hd st).
        unfold bind at 1. cbn [alloc ret].
        rewrite (IH (cur + 1) _ _ ds').
        -- cbn [heap length]. rewrite length_app. cbn [length].
           replace (length (heap st) + 1)%nat with (S (length (heap st))) by lia.
           unfold with_heap. cbn [heap console clock reads written seq].
           rewrite <- !app_assoc. reflexivity.
        -- replace (Z.to_nat (start_row - (cur + 1))) with 0%nat by lia.
           exact Hds'.
      * unfold bind at 1. cbn [ret]. apply IH.
        replace (Z.to_nat (start_row - cur))
          with (S (Z.to_nat (start_row - (cur + 1)))) in Hds by lia.
        replace (Z.max cur start_row) with (Z.max (cur + 1) start_row) in Hds
          by lia.
        exact Hds.
Qed.

(** X2.  [get_random_rows] does return a window when the file can be read
    and the lines numbered [start_row] to [start_row + 9] are rows: the
    window is made of new dictionaries, one per line and in the order of
    the file, and nothing is printed. *)
Lemma get_random_rows_returns randint fs file_path lines st start_row st1 ds :
  read_lines fs file_path = inr lines ->
  generate_random_start_row randint (Z.of_nat (length lines))
    (opened st file_path) = (Ok start_row, st1) ->
  0 <= start_row ->
  Forall2 parses_to (firstn 10 (skipn (Z.to_nat start_row) lines)) ds ->
  get_random_rows randint fs file_path st
  = (Ok (Some (seq (length (heap st1)) (length ds))),
     with_heap st1 (heap st1 ++ ds)).
Proof.
  intros Hlines Hgen Hstart Hds.
  unfold get_random_rows, try_except.
  unfold bind at 1. unfold open_for_reading. rewrite Hlines.
  fold (opened st file_path).
  unfold bind at 1. rewrite Hgen. unfold bind at 1.
  rewrite (read_rows_complete start_row lines 0 [] st1 ds); [reflexivity|].
  replace (Z.to_nat (start_row + 10 - Z.max 0 start_row)) with 10%nat by lia.
  replace (start_row - 0) with start_row by lia. exact Hds.
Qed.

(** ** The display strings *)

Lemma is_digit_not_hyphen c : is_digit c = true -> Ascii.eqb c "-" = false.
Proof.
  destruct c as [[] [] [] [] [] [] [] []]; try discriminate; reflexivity.
Qed.

Lemma split_on_digits_then_hyphen a rest :
  all_digits a = true ->
  split_on "-" (a ++ String "-" rest)%string = a :: split_on "-" rest.
Proof.
  induction a as [|c a IH]; intros Ha.
  - reflexivity.
  - cbn [all_digits] in Ha. apply andb_true_iff in Ha. destruct Ha as [Hc Ha].
    rewrite append_String. cbn [split_on].
    rewrite (is_digit_not_hyphen c Hc), (IH Ha). reflexivity.
Qed.

Lemma split_on_digits a : all_digits a = true -> split_on "-" a = [a].
Proof.
  induction a as [|c a IH]; intros Ha; [reflexivity|].
  cbn [all_digits] in Ha. apply andb_true_iff in Ha. destruct Ha as [Hc Ha].
  cbn [split_on]. rewrite (is_digit_not_hyphen c Hc), (IH Ha). reflexivity.
Qed.

(** Two digits are printed for a number below 100, and they read back. *)
Lemma two_digits_spec n :
  0 <= n <= 99 ->
  all_digits (two_digits n) = true
  /\ digits_value 0 (two_digits n) = n
  /\ (1 <= n -> forall sp, field_1_or_2_digits sp (two_digits n) = Some n).
Proof.
  intros Hn. unfold two_digits.
  assert (H1 : 0 <= n / 10 <= 9) by (Z.div_mod_to_equations; lia).
  assert (H2 : 0 <= n mod 10 <= 9) by (Z.div_mod_to_equations; lia).
  destruct (digit_char_spec _ H1) as (Hd1 & Hv1 & _).
  destruct (digit_char_spec _ H2) as (Hd2 & Hv2 & _).
  assert (Hval : 10 * (n / 10) + n mod 10 = n) by (Z.div_mod_to_equations; lia).
  split; [cbn [all_digits]; rewrite Hd1, Hd2; reflexivity|].
  split; [cbn [digits_value]; rewrite Hv1, Hv2; lia|].
  intros Hpos sp. cbn [field_1_or_2_digits].
  rewrite Hd1, Hd2, Hv1, Hv2, Hval. cbn [andb].
  destruct (Z.eqb_spec n 0); [lia|reflexivity].
Qed.

Lemma four_digits_spec n :
  0 <= n <= 9999 ->
  all_digits (four_digits n) = true /\ field_4_digits (four_digits n) = Some n.
Proof.
  intros Hn. unfold four_digits.
  assert (H1 : 0 <= n / 100 <= 99) by (Z.div_mod_to_equations; lia).
  assert (H2 : 0 <= n mod 100 <= 99) by (Z.div_mod_to_equations; lia).
  destruct (two_digits_spec _ H1) as (Ha1 & Hv1 & _).
  destruct (two_digits_spec _ H2) as (Ha2 & Hv2 & _).
  assert (Hall : all_digits (two_digits (n / 100) ++ two_digits (n mod 100))%string
                 = true) by (rewrite all_digits_app, Ha1, Ha2; reflexivity).
  split; [exact Hall|].
  unfold field_4_digits. rewrite Hall.
  change (String.length (two_digits (n / 100) ++ two_digits (n mod 100))%string)
    with 4%nat.
  cbn [Nat.eqb andb]. f_equal.
  unfold two_digits in *. rewrite !append_String, append_Empty.
  cbn [digits_value] in *.
  Z.div_mod_to_equations. lia.
Qed.

(** A property checked on every number of a range holds of each. *)
Lemma forall_range (P : Z -> bool) a len :
  forallb P (map (fun n => a + Z.of_nat n) (seq 0 (Z.to_nat len))) = true ->
  forall y, a <= y < a + len -> P y = true.
Proof.
  intros H y Hy. rewrite forallb_forall in H. apply H.
  apply in_map_iff. exists (Z.to_nat (y - a)). split; [lia|].
  apply in_seq. lia.
Qed.

(** From 1000 on a year is written with its four digits; below, with
    fewer, which [strptime] does not accept. *)
Lemma digits_four_digits y :
  1000 <= y <= 9999 -> digits y = four_digits y.
Proof.
  intros Hy. apply String.eqb_eq.
  apply (forall_range (fun n => String.eqb (digits n) (four_digits n))
           1000 9000); [vm_compute; reflexivity|lia].
Qed.

Lemma digits_short_year y :
  1 <= y <= 999 -> field_4_digits (digits y) = None.
Proof.
  intros Hy.
  pose proof (forall_range
                (fun n => match field_4_digits (digits n) with
                          | None => true
                          | Some _ => false
                          end) 1 999 ltac:(vm_compute; reflexivity) y
                ltac:(lia)) as H.
  cbv beta in H. destruct (field_4_digits (digits y)); [discriminate|reflexivity].
Qed.

Lemma strftime_dmy_four d :
  1000 <= year d <= 9999 ->
  strftime_dmy d
  = (two_digits (day d) ++ "-" ++ two_digits (month d) ++ "-"
       ++ four_digits (year d))%string.
Proof. intros Hy. unfold strftime_dmy. rewrite digits_four_digits by lia. reflexivity. Qed.

(** The timestamp string has the form DD-MM-YYYY when the year has four
    digits. *)
Lemma strftime_dmy_shaped d :
  valid_date d = true -> 1000 <= year d -> dmy_shaped (strftime_dmy d).
Proof.
  intros Hv H1000. apply valid_date_bounds in Hv. destruct Hv as (Hy & Hm & Hd).
  pose proof (days_in_month_bounds (year d) (month d)).
  rewrite strftime_dmy_four by lia.
  destruct (two_digits_spec (day d) ltac:(lia)) as (Hda & _).
  destruct (two_digits_spec (month d) ltac:(lia)) as (Hma & _).
  destruct (four_digits_spec (year d) ltac:(lia)) as (Hya & _).
  unfold four_digits in Hya. rewrite all_digits_app in Hya.
  apply andb_true_iff in Hya. destruct Hya as [Hy1 Hy2].
  unfold four_digits, two_digits in *. cbn [all_digits] in *.
  rewrite !andb_true_iff in *.
  unfold dmy_shaped. do 8 eexists. split; [reflexivity|].
  repeat constructor; tauto.
Qed.

(** What [strptime] makes of the timestamp string, whose year is the
    numeral [ys]. *)
Lemma strptime_dmy_fields d ys :
  valid_date d = true ->
  all_digits ys = true ->
  strptime_dmy (two_digits (day d) ++ "-" ++ two_digits (month d) ++ "-" ++ ys)
  = match field_4_digits ys with
    | Some y =>
        if valid_date (mkdate y (month d) (day d))
        then Some (mkdate y (month d) (day d)) else None
    | None => None
    end.
Proof.
  intros Hv Hya. pose proof Hv as Hb. apply valid_date_bounds in Hb.
  destruct Hb as (Hy & Hm & Hd).
  pose proof (days_in_month_bounds (year d) (month d)).
  destruct (two_digits_spec (day d) ltac:(lia)) as (Hda & _ & Hdf).
  destruct (two_digits_spec (month d) ltac:(lia)) as (Hma & _ & Hmf).
  unfold strptime_dmy.
  change ("-" ++ two_digits (month d) ++ "-" ++ ys)%string
    with (String "-" (two_digits (month d) ++ String "-" ys))%string.
  rewrite (split_on_digits_then_hyphen _ _ Hda),
    (split_on_digits_then_hyphen _ _ Hma), (split_on_digits _ Hya).
  rewrite (Hdf ltac:(lia)), (Hmf ltac:(lia)).
  destruct (field_4_digits ys) as [y|]; [|reflexivity].
  destruct (Z.leb_spec (day d) 31); [|lia].
  destruct (Z.leb_spec (month d) 12); [|lia].
  reflexivity.
Qed.

(** Read back with the format of the input files, the timestamp string of
    a year of four digits is the date. *)
Lemma strptime_strftime d :
  valid_date d = true -> 1000 <= year d ->
  strptime_dmy (strftime_dmy d) = Some d.
Proof.
  intros Hv H1000. pose proof Hv as Hb. apply valid_date_bounds in Hb.
  destruct Hb as (Hy & Hm & Hd).
  rewrite strftime_dmy_four by lia.
  destruct (four_digits_spec (year d) ltac:(lia)) as (Hya & Hyf).
  rewrite (strptime_dmy_fields d _ Hv Hya), Hyf.
  destruct d as [y m dd]. cbn [year month day] in *. rewrite Hv. reflexivity.
Qed.

(** The timestamp string of an earlier year is not read back. *)
Lemma strptime_strftime_short_year d :
  valid_date d = true -> year d < 1000 ->
  strptime_dmy (strftime_dmy d) = None.
Proof.
  intros Hv Hshort. pose proof Hv as Hb. apply valid_date_bounds in Hb.
  destruct Hb as (Hy & Hm & Hd).
  destruct (digits_spec (year d) ltac:(lia)) as (Hya & _).
  unfold strftime_dmy.
  rewrite (strptime_dmy_fields d _ Hv Hya), digits_short_year by lia.
  reflexivity.
Qed.

(** The price string has exactly two decimals. *)
Lemma format_2f_two_decimals x :
  is_finite x = true -> two_decimals (format_2f x).
Proof.
  assert (H : forall s k, 0 <= k -> two_decimals (fixed2 s k)).
  { intros s k Hk. unfold fixed2, two_decimals.
    assert (H1 : 0 <= k mod 100 / 10 <= 9) by (Z.div_mod_to_equations; lia).
    assert (H2 : 0 <= k mod 10 <= 9) by (Z.div_mod_to_equations; lia).
    destruct (digit_char_spec _ H1) as (Hd1 & _).
    destruct (digit_char_spec _ H2) as (Hd2 & _).
    destruct (digits_spec (k / 100) ltac:(apply Z.div_pos; lia)) as (Hall & Hne & _).
    eexists s, _, _, _. split; [reflexivity|]. auto. }
  destruct x as [s|s| |s m e]; try discriminate; intros _; apply H;
    [lia|apply hundredths_nearest].
Qed.

(** C9 as the specification states it fails: [format_rows] is not pure.
    After the call on a store that holds the two rows of [close_window],
    the dictionaries of the input rows hold the display strings, and the
    store is not what it was. *)
Lemma format_rows_changes_its_input :
  holds_rows (store_of close_window) (refs_of close_window) close_window
  /\ format_rows (refs_of close_window) (store_of close_window)
     = (Ok (refs_of close_window),
        with_heap (store_of close_window) (map display_dict close_window))
  /\ heap (snd (format_rows (refs_of close_window) (store_of close_window)))
     <> heap (store_of close_window).
Proof.
  split; [unfold holds_rows; repeat constructor|].
  split; [vm_compute; reflexivity|]. vm_compute. discriminate.
Qed.

(** C9, amended.  [format_rows] updates its input rows in place and returns
    the list it was given: for rows that are distinct objects, each
    dictionary then holds the identifier unchanged, the timestamp as its
    [%d-%m-%Y] string and the price as its [.2f] string, under the same
    keys in the same order; the rows are in the same order, and nothing
    else changes in the store, on the console or in the files.  The
    timestamp string has the form DD-MM-YYYY and reads back as the date
    for the years from 1000 on (earlier years are written without leading
    zeros); the price string of a finite price has exactly two decimals. *)
Theorem format_rows_updates_in_place st rows ws :
  holds_rows st rows ws ->
  NoDup rows ->
  exists h',
    format_rows rows st = (Ok rows, with_heap st h')
    /\ Forall2 (fun l w => h' !! l = Some (display_dict w)) rows ws
    /\ (forall l, ~ In l rows -> h' !! l = heap st !! l)
    /\ Forall (fun w =>
                 map fst (display_dict w) = map fst (row_dict w)
                 /\ dict_get "Stock-ID" (display_dict w)
                    = dict_get "Stock-ID" (row_dict w)
                 /\ (valid_date (timestamp w) = true ->
                     1000 <= year (timestamp w) ->
                     dmy_shaped (strftime_dmy (timestamp w))
                     /\ strptime_dmy (strftime_dmy (timestamp w))
                        = Some (timestamp w))
                 /\ (is_finite (price w) = true ->
                     two_decimals (format_2f (price w)))) ws.
Proof.
  intros Hh Hnd.
  destruct (format_each_spec rows ws st Hh Hnd) as (h' & Hrun & Hdisp & Hframe).
  exists h'. split; [|split; [exact Hdisp|split; [exact Hframe|]]].
  - unfold format_rows. rewrite (bind_ok _ _ _ _ _ Hrun). reflexivity.
  - apply Forall_forall. intros w _.
    split; [reflexivity|]. split; [reflexivity|]. split.
    + intros Hv Hy.
      split; [apply strftime_dmy_shaped|apply strptime_strftime]; assumption.
    + apply format_2f_two_decimals.
Qed.

(** The property at the window priced 10.0 and 10.01. *)
Lemma format_rows_updates_in_place_witness :
  holds_rows (store_of close_window) (refs_of close_window) close_window
  /\ NoDup (refs_of close_window)
  /\ exists h',
       format_rows (refs_of close_window) (store_of close_window)
       = (Ok (refs_of close_window), with_heap (store_of close_window) h')
       /\ Forall2 (fun l w => h' !! l = Some (display_dict w))
            (refs_of close_window) close_window
       /\ (forall l, ~ In l (refs_of close_window) ->
           h' !! l = heap (store_of close_window) !! l)
       /\ Forall (fun w =>
                    map fst (display_dict w) = map fst (row_dict w)
                    /\ dict_get "Stock-ID" (display_dict w)
                       = dict_get "Stock-ID" (row_dict w)
                    /\ (valid_date (timestamp w) = true ->
                        1000 <= year (timestamp w) ->
                        dmy_shaped (strftime_dmy (timestamp w))
                        /\ strptime_dmy (strftime_dmy (timestamp w))
                           = Some (timestamp w))
                    /\ (is_finite (price w) = true ->
                        two_decimals (format_2f (price w)))) close_window.
Proof.
  assert (H1 : holds_rows (store_of close_window) (refs_of close_window)
                 close_window) by (unfold holds_rows; repeat constructor).
  assert (H2 : NoDup (refs_of close_window)) by (apply NoDup_seq).
  split; [exact H1|]. split; [exact H2|].
  exact (format_rows_updates_in_place _ _ _ H1 H2).
Defined.

(** ** The files that a run opens *)

Lemma keeps_ret {A} (a : A) : keeps_reads (ret a).
Proof. intros st. reflexivity. Qed.

Lemma keeps_raise {A} e : keeps_reads (@raise A e).
Proof. intros st. reflexivity. Qed.

Lemma keeps_bind {A B} (c : M A) (k : A -> M B) :
  keeps_reads c -> (forall a, keeps_reads (k a)) -> keeps_reads (bind c k).
Proof.
  intros Hc Hk st. unfold bind. specialize (Hc st).
  destruct (c st) as [[a|e] st1]; cbn [snd] in *; [rewrite (Hk a st1)|];
    exact Hc.
Qed.

Lemma keeps_try_except {A} (c : M A) (h : exn -> M A) :
  keeps_reads c -> (forall e, keeps_reads (h e)) -> keeps_reads (try_except c h).
Proof.
  intros Hc Hh st. unfold try_except. specialize (Hc st).
  destruct (c st) as [[a|e] st1]; cbn [snd] in *; [|rewrite (Hh e st1)];
    exact Hc.
Qed.

Lemma keeps_of_option {A} e (o : option A) : keeps_reads (of_option e o).
Proof. destruct o; [apply keeps_ret|apply keeps_raise]. Qed.

Lemma keeps_print d : keeps_reads (print d).
Proof. intros st. reflexivity. Qed.

Lemma keeps_alloc d : keeps_reads (alloc d).
Proof. intros st. reflexivity. Qed.

Lemma keeps_deref l : keeps_reads (deref l).
Proof. intros st. unfold deref. destruct (heap st !! l); reflexivity. Qed.

Lemma keeps_getitem l k : keeps_reads (getitem l k).
Proof.
  apply keeps_bind; [apply keeps_deref|intros; apply keeps_of_option].
Qed.

Lemma keeps_setitem l k v : keeps_reads (setitem l k v).
Proof. intros st. unfold setitem. destruct (heap st !! l); reflexivity. Qed.

Lemma keeps_as_float v : keeps_reads (as_float v).
Proof. destruct v; first [apply keeps_ret|apply keeps_raise]. Qed.

Lemma keeps_to_float v : keeps_reads (to_float v).
Proof.
  destruct v; first [apply keeps_ret|apply keeps_raise|apply keeps_of_option].
Qed.

Lemma keeps_strftime v : keeps_reads (strftime v).
Proof. destruct v; first [apply keeps_ret|apply keeps_raise]. Qed.

Lemma keeps_add_timedelta_1 v : keeps_reads (add_timedelta_1 v).
Proof. destruct v; first [apply keeps_of_option|apply keeps_raise]. Qed.

Lemma keeps_writerow p cells : keeps_reads (writerow p cells).
Proof. intros st. reflexivity. Qed.

Lemma keeps_ensure_directory fs p : keeps_reads (ensure_directory fs p).
Proof.
  unfold ensure_directory. destruct (makedirs fs p);
    [apply keeps_raise|apply keeps_ret].
Qed.

Lemma keeps_open_for_writing fs p : keeps_reads (open_for_writing fs p).
Proof. intros st. unfold open_for_writing. destruct (open_write fs p); reflexivity. Qed.

Lemma keeps_now : keeps_reads now.
Proof. intros st. reflexivity. Qed.

Ltac keeps_step :=
  first
    [ apply keeps_ret | apply keeps_raise | apply keeps_of_option
    | apply keeps_print | apply keeps_alloc | apply keeps_deref
    | apply keeps_getitem
    | apply keeps_setitem | apply keeps_as_float | apply keeps_to_float
    | apply keeps_strftime | apply keeps_add_timedelta_1 | apply keeps_writerow
    | apply keeps_ensure_directory | apply keeps_open_for_writing
    | apply keeps_now
    | apply keeps_bind; [|intros ?]
    | apply keeps_try_except; [|intros ?] ].

Ltac keeps := repeat keeps_step.

Lemma keeps_prices_of rows : keeps_reads (prices_of rows).
Proof. induction rows as [|row rest IH]; cbn [prices_of]; keeps; auto. Qed.

Lemma keeps_append_predicted vs : forall rows, keeps_reads (append_predicted vs rows).
Proof.
  induction vs as [|v vs IH]; intros rows; cbn [append_predicted];
    unfold last_item; keeps; auto.
Qed.

Lemma keeps_predict_next_values random_rows :
  keeps_reads (predict_next_values random_rows).
Proof.
  unfold predict_next_values, last_item, index.
  keeps; auto using keeps_prices_of, keeps_append_predicted.
Qed.

Lemma keeps_format_each rows : keeps_reads (format_each rows).
Proof. induction rows as [|row rest IH]; cbn [format_each]; keeps; auto. Qed.

Lemma keeps_write_rows p rows : keeps_reads (write_rows p rows).
Proof.
  induction rows as [|row rest IH]; cbn [write_rows]; keeps; auto.
Qed.

Lemma keeps_save_predicted_stock_rows fs output_path exchange_name file_name rows :
  keeps_reads
    (save_predicted_stock_rows fs output_path exchange_name file_name rows).
Proof.
  unfold save_predicted_stock_rows, format_rows.
  keeps; auto using keeps_format_each, keeps_write_rows.
Qed.

Lemma keeps_read_rows start_row lines : forall current_row acc,
  keeps_reads (read_rows start_row lines current_row acc).
Proof.
  induction lines as [|row rest IH]; intros cur acc; cbn [read_rows]; keeps.
  destruct (cur >=? start_row + 10); keeps; auto.
  destruct (cur >=? start_row); unfold parse_row, index; keeps.
Qed.

(** [get_random_rows] opens the file it is given, whether it can read it
    or not. *)
Lemma get_random_rows_reads_one randint fs file_path :
  reads_one file_path (get_random_rows randint fs file_path).
Proof.
  intros st. unfold get_random_rows, try_except. unfold bind at 1.
  unfold open_for_reading.
  destruct (read_lines fs file_path) as [e|lines].
  - destruct e; reflexivity.
  - set (st1 := mkstate _ _ _ _ _).
    assert (Hk : keeps_reads
              (do start_row <- generate_random_start_row randint
                                 (Z.of_nat (length lines)) ;;
               do random_rows <- read_rows start_row lines 0 [] ;;
               ret (Some random_rows))).
    { unfold generate_random_start_row. keeps; auto using keeps_read_rows.
      destruct (Z.of_nat (length lines) <? 10); keeps. }
    specialize (Hk st1).
    destruct ((do start_row <- generate_random_start_row randint
                                 (Z.of_nat (length lines)) ;;
               do random_rows <- read_rows start_row lines 0 [] ;;
               ret (Some random_rows)) st1) as [[r|e] st2];
      cbn [snd] in *; [exact Hk|].
    destruct e; cbn; exact Hk.
Qed.

(** What lines 193 to 196 do to one file: the file is opened, and either
    the count goes up by one or an exception leaves the loop. *)
Lemma process_one_file randint fs output_path exchange_name file_name file_path
    count st :
  exists st1,
    reads st1 = reads st ++ [file_path]
    /\ ((do random_rows <- get_random_rows randint fs file_path ;;
         do predicted_rows <- predict_next_values random_rows ;;
         do _ <- save_predicted_stock_rows fs output_path exchange_name
                   file_name predicted_rows ;;
         ret (count + 1)) st = (Ok (count + 1), st1)
        \/ exists e,
             (do random_rows <- get_random_rows randint fs file_path ;;
              do predicted_rows <- predict_next_values random_rows ;;
              do _ <- save_predicted_stock_rows fs output_path exchange_name
                        file_name predicted_rows ;;
              ret (count + 1)) st = (Raise e, st1)).
Proof.
  unfold bind.
  pose proof (get_random_rows_reads_one randint fs file_path st) as H1.
  destruct (get_random_rows randint fs file_path st) as [[rr|e] s1];
    cbn [snd] in H1; [|eauto].
  pose proof (keeps_predict_next_values rr s1) as H2.
  destruct (predict_next_values rr s1) as [[pr|e] s2]; cbn [snd] in H2;
    [|exists s2; split; [congruence|eauto]].
  pose proof (keeps_save_predicted_stock_rows fs output_path exchange_name
                file_name pr s2) as H3.
  destruct (save_predicted_stock_rows fs output_path exchange_name file_name
              pr s2) as [[u|e] s3]; cbn [snd] in H3;
    exists s3; (split; [congruence|]); [left|right; exists e]; reflexivity.
Qed.

(** While the count is below [n], the loop over the entries opens at most
    [n - count] more files. *)
Lemma process_entries_cap randint fs n exchange_path output_path exchange_name
    entries : forall count st,
  count < n ->
  exists new,
    reads (snd (process_entries randint fs n exchange_path output_path
                  exchange_name entries count st))
    = reads st ++ new
    /\ Z.of_nat (length new) <= n - count.
Proof.
  induction entries as [|file_name rest IH]; intros count st Hc.
  - exists []. cbn. rewrite app_nil_r. split; [reflexivity|lia].
  - cbn [process_entries].
    destruct (isfile fs (path_join exchange_path file_name)
              && endswith ".csv" (lower_string file_name)).
    + destruct (process_one_file randint fs output_path exchange_name file_name
                  (path_join exchange_path file_name) count st)
        as (st1 & Hr & [Hrun|[e Hrun]]).
      * unfold bind at 1. rewrite Hrun.
        destruct (Z.eqb_spec (count + 1) n) as [E|E].
        -- exists [path_join exchange_path file_name]. cbn [ret snd length].
           split; [exact Hr|lia].
        -- destruct (IH (count + 1) st1 ltac:(lia)) as (new & Hn & Hl).
           exists (path_join exchange_path file_name :: new).
           rewrite Hn, Hr, <- app_assoc. cbn [length app].
           split; [reflexivity|lia].
      * unfold bind at 1. rewrite Hrun.
        exists [path_join exchange_path file_name]. cbn [snd length].
        split; [exact Hr|lia].
    + unfold bind at 1. cbn [ret].
      destruct (Z.eqb_spec count n) as [E|E]; [lia|].
      destruct (IH count st Hc) as (new & Hn & Hl). exists new. auto.
Qed.

(** For a cap of one or more, [process_files_from_exchange] opens at most
    [n] files of the exchange. *)
Lemma positive_cap_is_respected randint fs n input_path output_path
    exchange_name st :
  1 <= n ->
  exists new,
    reads (snd (process_files_from_exchange randint fs n input_path output_path
                  exchange_name st))
    = reads st ++ new
    /\ Z.of_nat (length new) <= n.
Proof.
  intros Hn. unfold process_files_from_exchange, try_except.
  destruct (listdir fs (path_join input_path exchange_name)) as [e|entries].
  - exists []. rewrite app_nil_r. split; [|cbn; lia].
    cbn [of_sum]. unfold bind, raise. apply keeps_print.
  - cbn [of_sum]. unfold bind at 1. cbn [ret].
    destruct (process_entries_cap randint fs n
                (path_join input_path exchange_name) output_path exchange_name
                entries 0 st ltac:(lia)) as (new & Hr & Hl).
    exists new. split; [|lia].
    destruct (process_entries randint fs n (path_join input_path exchange_name)
                output_path exchange_name entries 0 st) as [[u|e] st1];
      cbn [snd] in *; [exact Hr|].
    rewrite keeps_print. exact Hr.
Qed.

(** A file that cannot be written does not stop the exchange: the failure
    of [save_predicted_stock_rows] is reported, and the files that follow
    are read and written. *)
Lemma unwritable_file_does_not_stop_the_exchange :
  let '(r, st) :=
    process_files_from_exchange lowest_draw unwritable_fs 3 "in" "out" "LSE"
      empty_state in
  r = Ok tt
  /\ console st = [PermissionDenied "out"]
  /\ reads st = ["in/LSE/a.csv"; "in/LSE/b.csv"; "in/LSE/c.csv"]%string
  /\ map fst (written st) = ["out/LSE/b.csv"; "out/LSE/c.csv"]%string.
Proof. vm_compute. auto. Qed.

(** ** What the sampler and the forecaster leave alone *)

Lemma only_allocates_ret {A} (a : A) : only_allocates (ret a).
Proof. intros st. exists []. rewrite app_nil_r. destruct st; reflexivity. Qed.

Lemma only_allocates_raise {A} e : only_allocates (@raise A e).
Proof. intros st. exists []. rewrite app_nil_r. destruct st; reflexivity. Qed.

Lemma only_allocates_bind {A B} (c : M A) (k : A -> M B) :
  only_allocates c -> (forall a, only_allocates (k a)) ->
  only_allocates (bind c k).
Proof.
  intros Hc Hk st. unfold bind. destruct (Hc st) as [new1 H1].
  destruct (c st) as [[a|e] st1]; cbn [snd] in *; [|eauto].
  destruct (Hk a st1) as [new2 H2]. exists (new1 ++ new2).
  rewrite H2, H1. unfold with_heap. cbn [heap console clock reads written].
  rewrite app_assoc. reflexivity.
Qed.

Lemma only_allocates_of_option {A} e (o : option A) :
  only_allocates (of_option e o).
Proof. destruct o; [apply only_allocates_ret|apply only_allocates_raise]. Qed.

Lemma only_allocates_alloc d : only_allocates (alloc d).
Proof. intros st. exists [d]. reflexivity. Qed.

Lemma only_allocates_deref l : only_allocates (deref l).
Proof.
  intros st. exists []. rewrite app_nil_r. unfold deref.
  destruct (heap st !! l); destruct st; reflexivity.
Qed.

Lemma only_allocates_getitem l k : only_allocates (getitem l k).
Proof.
  apply only_allocates_bind;
    [apply only_allocates_deref|intros; apply only_allocates_of_option].
Qed.

Lemma only_allocates_as_float v : only_allocates (as_float v).
Proof. destruct v; first [apply only_allocates_ret|apply only_allocates_raise]. Qed.

Lemma only_allocates_add_timedelta_1 v : only_allocates (add_timedelta_1 v).
Proof.
  destruct v; first [apply only_allocates_of_option|apply only_allocates_raise].
Qed.

Ltac allocates_step :=
  first
    [ apply only_allocates_ret | apply only_allocates_raise
    | apply only_allocates_of_option | apply only_allocates_alloc
    | apply only_allocates_deref | apply only_allocates_getitem
    | apply only_allocates_as_float | apply only_allocates_add_timedelta_1
    | apply only_allocates_bind; [|intros ?] ].

Ltac allocates := repeat allocates_step.

Lemma only_allocates_prices_of rows : only_allocates (prices_of rows).
Proof. induction rows as [|row rest IH]; cbn [prices_of]; allocates; auto. Qed.

Lemma only_allocates_append_predicted vs : forall rows,
  only_allocates (append_predicted vs rows).
Proof.
  induction vs as [|v vs IH]; intros rows; cbn [append_predicted];
    unfold last_item; allocates; auto.
Qed.

Lemma only_allocates_parse_row row : only_allocates (parse_row row).
Proof. unfold parse_row, index. allocates. Qed.

Lemma only_allocates_read_rows start_row lines : forall current_row acc,
  only_allocates (read_rows start_row lines current_row acc).
Proof.
  induction lines as [|row rest IH]; intros cur acc; cbn [read_rows]; allocates.
  destruct (cur >=? start_row + 10); allocates; auto.
  destruct (cur >=? start_row); allocates.
Qed.

Lemma only_allocates_predict_next_values random_rows :
  only_allocates (predict_next_values random_rows).
Proof.
  unfold predict_next_values, last_item, index.
  allocates; auto using only_allocates_prices_of,
               only_allocates_append_predicted.
Qed.

(** X6.  [predict_next_values] only adds rows: whatever it is given and
    whether it returns or raises, it prints nothing, opens and writes no
    file, and every dictionary that was in the store is still there,
    unchanged, under the same reference. *)
Theorem predict_next_values_only_allocates random_rows st :
  exists new,
    snd (predict_next_values random_rows st) = with_heap st (heap st ++ new)
    /\ forall l d, heap st !! l = Some d ->
                   heap (snd (predict_next_values random_rows st)) !! l = Some d.
Proof.
  destruct (only_allocates_predict_next_values random_rows st) as [new Hnew].
  exists new. split; [exact Hnew|].
  intros l d Hl. rewrite Hnew. cbn [heap with_heap].
  apply lookup_app_l_Some. exact Hl.
Qed.

(** ** The sampler: what it accepts and what it reports *)

(** A line that is no row raises [IndexError] or [ValueError]. *)
Lemma parse_row_error_kind line st e st' :
  parse_row line st = (Raise e, st') -> e = IndexError \/ e = ValueError.
Proof.
  unfold parse_row, index, of_option, bind, ret, raise.
  destruct (split_on "," (strip line) !! 0%nat); [|intros [= <- _]; auto].
  destruct (split_on "," (strip line) !! 1%nat) as [ts|]; [|intros [= <- _]; auto].
  destruct (strptime_dmy ts); [|intros [= <- _]; auto].
  destruct (split_on "," (strip line) !! 2%nat) as [px|]; [|intros [= <- _]; auto].
  destruct (float_of_str px); [discriminate|intros [= <- _]; auto].
Qed.

(** The loop of lines 65 to 76 stops at the first line of the window that
    is no row, with the exception of that line; the rows built before it
    stay in the store. *)
Lemma read_rows_fails start_row lines : forall current_row acc st good bad rest ds e,
  firstn (Z.to_nat (start_row + 10 - Z.max current_row start_row))
    (skipn (Z.to_nat (start_row - current_row)) lines)
  = good ++ bad :: rest ->
  Forall2 parses_to good ds ->
  (forall s, parse_row bad s = (Raise e, s)) ->
  read_rows start_row lines current_row acc st
  = (Raise e, with_heap st (heap st ++ ds)).
Proof.
  induction lines as [|row tl IH]; intros cur acc st good bad rest ds e Hs Hg Hb.
  - rewrite skipn_nil, firstn_nil in Hs. destruct good; discriminate.
  - cbn [read_rows].
    destruct (Z.geb_spec cur (start_row + 10)) as [H1|H1].
    + replace (Z.to_nat (start_row + 10 - Z.max cur start_row)) with 0%nat
        in Hs by lia.
      destruct good; discriminate.
    + destruct (Z.geb_spec cur start_row) as [H2|H2].
      * replace (Z.to_nat (start_row - cur)) with 0%nat in Hs by lia.
        replace (Z.to_nat (start_row + 10 - Z.max cur start_row))
          with (S (Z.to_nat (start_row + 10 - Z.max (cur + 1) start_row)))
          in Hs by lia.
        cbn [skipn firstn] in Hs.
        destruct good as [|g good].
        -- cbn [app] in Hs. injection Hs as -> Hs. inversion Hg; subst.
           unfold bind at 1. unfold bind at 1. rewrite (Hb st).
           rewrite app_nil_r. destruct st; reflexivity.
        -- cbn [app] in Hs. injection Hs as -> Hs.
           inversion Hg as [|? d ? ds' Hd Hg']; subst.
           unfold bind at 1. unfold bind at 1. rewrite (Hd st).
           unfold bind at 1. cbn [alloc ret].
           rewrite (IH (cur + 1) _ _ good bad rest ds' e); [| |exact Hg'|exact Hb].
           ++ unfold with_heap. cbn [heap console clock reads written].
              rewrite <- !app_assoc. reflexivity.
           ++ replace (Z.to_nat (start_row - (cur + 1))) with 0%nat by lia.
              exact Hs.
      * unfold bind at 1. cbn [ret].
        apply (IH (cur + 1) _ _ good bad rest ds e); [|exact Hg|exact Hb].
        replace (Z.to_nat (start_row - cur))
          with (S (Z.to_nat (start_row - (cur + 1)))) in Hs by lia.
        replace (Z.max cur start_row) with (Z.max (cur + 1) start_row) in Hs
          by lia.
        exact Hs.
Qed.

(** X3.  When a line of the drawn window is no row, [get_random_rows]
    returns no window: it reports the exception of the first such line as
    an unexpected error and returns [None]; the rows built from the lines
    before it stay in the store, unused. *)
Theorem bad_row_in_window_gives_no_window randint fs file_path lines st
    start_row st1 good bad rest ds e :
  read_lines fs file_path = inr lines ->
  generate_random_start_row randint (Z.of_nat (length lines))
    (opened st file_path) = (Ok start_row, st1) ->
  0 <= start_row ->
  firstn 10 (skipn (Z.to_nat start_row) lines) = good ++ bad :: rest ->
  Forall2 parses_to good ds ->
  (forall s, parse_row bad s = (Raise e, s)) ->
  get_random_rows randint fs file_path st
  = (Ok None,
     with_console (with_heap st1 (heap st1 ++ ds))
       (console st1 ++ [UnexpectedError e])).
Proof.
  intros Hlines Hgen Hstart Hs Hg Hb.
  unfold get_random_rows, try_except.
  unfold bind at 1. unfold open_for_reading. rewrite Hlines.
  fold (opened st file_path).
  unfold bind at 1. rewrite Hgen. unfold bind at 1.
  rewrite (read_rows_fails start_row lines 0 [] st1 good bad rest ds e);
    [| |exact Hg|exact Hb].
  - destruct (parse_row_error_kind bad st e st (Hb st)) as [-> | ->]; reflexivity.
  - replace (Z.to_nat (start_row + 10 - Z.max 0 start_row)) with 10%nat by lia.
    replace (start_row - 0) with start_row by lia. exact Hs.
Qed.

(** The property at the file of eleven lines whose last line is no row,
    when the draw is 1: the window is made of the lines 1 to 10. *)
Lemma bad_row_in_window_gives_no_window_witness :
  read_lines trailing_fs "in/LSE/a.csv"
  = inr (scenario_lines ++ ["no comma on this line"%string])
  /\ generate_random_start_row highest_draw
       (Z.of_nat (length (scenario_lines ++ ["no comma on this line"%string])))
       (opened empty_state "in/LSE/a.csv")
     = (Ok 1, mkstate [] [] 1 ["in/LSE/a.csv"%string] [])
  /\ 0 <= 1
  /\ firstn 10 (skipn (Z.to_nat 1)
                  (scenario_lines ++ ["no comma on this line"%string]))
     = tl scenario_lines ++ "no comma on this line"%string :: []
  /\ Forall2 parses_to (tl scenario_lines) (map row_dict (tl scenario_window))
  /\ (forall s, parse_row "no comma on this line" s = (Raise IndexError, s))
  /\ get_random_rows highest_draw trailing_fs "in/LSE/a.csv" empty_state
     = (Ok None,
        with_console
          (with_heap (mkstate [] [] 1 ["in/LSE/a.csv"%string] [])
             (heap (mkstate [] [] 1 ["in/LSE/a.csv"%string] [])
                ++ map row_dict (tl scenario_window)))
          (console (mkstate [] [] 1 ["in/LSE/a.csv"%string] [])
             ++ [UnexpectedError IndexError])).
Proof.
  assert (H1 : read_lines trailing_fs "in/LSE/a.csv"
               = inr (scenario_lines ++ ["no comma on this line"%string]))
    by reflexivity.
  assert (H2 : generate_random_start_row highest_draw
                 (Z.of_nat (length (scenario_lines
                                      ++ ["no comma on this line"%string])))
                 (opened empty_state "in/LSE/a.csv")
               = (Ok 1, mkstate [] [] 1 ["in/LSE/a.csv"%string] []))
    by reflexivity.
  assert (H3 : 0 <= 1) by lia.
  assert (H4 : firstn 10 (skipn (Z.to_nat 1)
                            (scenario_lines ++ ["no comma on this line"%string]))
               = tl scenario_lines ++ "no comma on this line"%string :: [])
    by reflexivity.
  assert (H5 : Forall2 parses_to (tl scenario_lines)
                 (map row_dict (tl scenario_window)))
    by (repeat constructor; intros s; vm_compute; reflexivity).
  assert (H6 : forall s, parse_row "no comma on this line" s
                         = (Raise IndexError, s))
    by (intros s; vm_compute; reflexivity).
  split; [exact H1|]. split; [exact H2|]. split; [exact H3|].
  split; [exact H4|]. split; [exact H5|]. split; [exact H6|].
  exact (bad_row_in_window_gives_no_window _ _ _ _ _ _ _ _ _ _ _ _
           H1 H2 H3 H4 H5 H6).
Defined.

(** The property of [get_random_rows_returns] at the same file, when the
    draw is 0: the line that is no row is outside the window. *)
Lemma get_random_rows_returns_witness :
  read_lines trailing_fs "in/LSE/a.csv"
  = inr (scenario_lines ++ ["no comma on this line"%string])
  /\ generate_random_start_row lowest_draw
       (Z.of_nat (length (scenario_lines ++ ["no comma on this line"%string])))
       (opened empty_state "in/LSE/a.csv")
     = (Ok 0, mkstate [] [] 1 ["in/LSE/a.csv"%string] [])
  /\ 0 <= 0
  /\ Forall2 parses_to
       (firstn 10 (skipn (Z.to_nat 0)
                     (scenario_lines ++ ["no comma on this line"%string])))
       (map row_dict scenario_window)
  /\ get_random_rows lowest_draw trailing_fs "in/LSE/a.csv" empty_state
     = (Ok (Some (seq (length (heap (mkstate [] [] 1
                                       ["in/LSE/a.csv"%string] [])))
                    (length (map row_dict scenario_window)))),
        with_heap (mkstate [] [] 1 ["in/LSE/a.csv"%string] [])
          (heap (mkstate [] [] 1 ["in/LSE/a.csv"%string] [])
             ++ map row_dict scenario_window)).
Proof.
  assert (H1 : read_lines trailing_fs "in/LSE/a.csv"
               = inr (scenario_lines ++ ["no comma on this line"%string]))
    by reflexivity.
  assert (H2 : generate_random_start_row lowest_draw
                 (Z.of_nat (length (scenario_lines
                                      ++ ["no comma on this line"%string])))
                 (opened empty_state "in/LSE/a.csv")
               = (Ok 0, mkstate [] [] 1 ["in/LSE/a.csv"%string] []))
    by reflexivity.
  assert (H3 : 0 <= 0) by lia.
  assert (H4 : Forall2 parses_to
                 (firstn 10 (skipn (Z.to_nat 0)
                               (scenario_lines
                                  ++ ["no comma on this line"%string])))
                 (map row_dict scenario_window))
    by (repeat constructor; intros s; vm_compute; reflexivity).
  split; [exact H1|]. split; [exact H2|]. split; [exact H3|]. split; [exact H4|].
  exact (get_random_rows_returns _ _ _ _ _ _ _ _ H1 H2 H3 H4).
Defined.

(** X1.  [get_random_rows] never raises.  It opens the file it is given and
    no other, writes no file, and leaves every dictionary of the store as
    it was; it returns a window without printing anything, or it prints
    exactly one diagnostic and returns [None]. *)
Theorem get_random_rows_never_raises randint fs file_path st :
  exists r st',
    get_random_rows randint fs file_path st = (Ok r, st')
    /\ reads st' = reads st ++ [file_path]
    /\ written st' = written st
    /\ (forall l d, heap st !! l = Some d -> heap st' !! l = Some d)
    /\ match r with
       | Some _ => console st' = console st
       | None => exists d, console st' = console st ++ [d]
       end.
Proof.
  unfold get_random_rows, try_except. unfold bind at 1.
  unfold open_for_reading.
  destruct (read_lines fs file_path) as [e|lines].
  - eexists None, _. split; [reflexivity|]. cbn.
    split; [reflexivity|]. split; [reflexivity|]. split; [auto|eauto].
  - fold (opened st file_path).
    assert (Hbody : forall st0, exists c new,
              snd ((do start_row <- generate_random_start_row randint
                                      (Z.of_nat (length lines)) ;;
                    do random_rows <- read_rows start_row lines 0 [] ;;
                    ret (Some random_rows)) st0)
              = mkstate (heap st0 ++ new) (console st0) c (reads st0)
                        (written st0)).
    { intros st0. unfold bind at 1. unfold generate_random_start_row.
      destruct (Z.of_nat (length lines) <? 10).
      - cbn [ret]. unfold bind at 1.
        destruct (only_allocates_read_rows 0 lines 0 [] st0) as [new Hn].
        destruct (read_rows 0 lines 0 [] st0) as [[rows|e] st2];
          cbn [snd ret] in *; subst st2; eauto.
      - unfold bind at 1. cbn [now ret]. unfold bind at 1.
        set (st1 := mkstate _ _ _ _ _).
        destruct (only_allocates_read_rows
                    (randint (clock st0) 0 (Z.of_nat (length lines) - 10))
                    lines 0 [] st1) as [new Hn].
        destruct (read_rows _ lines 0 [] st1) as [[rows|e] st2];
          cbn [snd ret] in *; subst st2; eauto. }
    destruct (Hbody (opened st file_path)) as (c & new & Hst).
    destruct ((do start_row <- generate_random_start_row randint
                                 (Z.of_nat (length lines)) ;;
               do random_rows <- read_rows start_row lines 0 [] ;;
               ret (Some random_rows)) (opened st file_path))
      as [[r|e] st2] eqn:Hrun; cbn [snd] in Hst; subst st2.
    + assert (Hr : exists rows, r = Some rows).
      { unfold bind in Hrun.
        destruct (generate_random_start_row randint _ _) as [[s|?] ?];
          [|discriminate].
        destruct (read_rows s lines 0 [] _) as [[rows|?] ?]; [|discriminate].
        injection Hrun as <- _. eauto. }
      destruct Hr as [rows ->].
      eexists (Some rows), _. split; [reflexivity|]. cbn.
      split; [reflexivity|]. split; [reflexivity|].
      split; [intros l d Hl; apply lookup_app_l_Some, Hl|reflexivity].
    + eexists None, _. split; [reflexivity|]. cbn.
      split; [reflexivity|]. split; [reflexivity|].
      split; [intros l d Hl; apply lookup_app_l_Some, Hl|eauto].
Qed.

(** ** Edges of the forecaster and of the formatter *)

(** X5.  Without rows there is no forecast.  A file without lines gives a
    window without rows, not [None], and nothing is printed; on such a
    window [predict_next_values] raises [IndexError], and on the [None] of
    a failed sampling it raises [TypeError], in both cases leaving the
    state as it was. *)
Theorem predict_next_values_needs_rows randint fs file_path st st' :
  read_lines fs file_path = inr [] ->
  get_random_rows randint fs file_path st
  = (Ok (Some []), opened st file_path)
  /\ predict_next_values (Some []) st' = (Raise IndexError, st')
  /\ predict_next_values None st' = (Raise TypeError, st').
Proof.
  intros Hlines. split; [|split; reflexivity].
  unfold get_random_rows, try_except. unfold bind at 1.
  unfold open_for_reading. rewrite Hlines. reflexivity.
Qed.

(** The property at a file without lines. *)
Lemma predict_next_values_needs_rows_witness :
  read_lines empty_files_fs "in/LSE/a.csv" = inr []
  /\ get_random_rows lowest_draw empty_files_fs "in/LSE/a.csv" empty_state
     = (Ok (Some []), opened empty_state "in/LSE/a.csv")
  /\ predict_next_values (Some []) empty_state = (Raise IndexError, empty_state)
  /\ predict_next_values None empty_state = (Raise TypeError, empty_state).
Proof.
  assert (H : read_lines empty_files_fs "in/LSE/a.csv" = inr []) by reflexivity.
  split; [exact H|].
  exact (predict_next_values_needs_rows lowest_draw empty_files_fs
           "in/LSE/a.csv" empty_state empty_state H).
Defined.

(** A date of the year 999 is accepted by the sampler, written with a
    year of three digits and not accepted back. *)
Lemma short_year_is_not_read_back :
  strptime_dmy "01-01-0999" = Some (mkdate 999 1 1)
  /\ strftime_dmy (mkdate 999 1 1) = "01-01-999"%string
  /\ strptime_dmy "01-01-999" = None.
Proof. repeat split; reflexivity. Qed.

(** X7.  A date read from a file is a date of the calendar.  From the
    year 1000 on, the string that [format_rows] makes of it has the form
    DD-MM-YYYY and reads back as the same date, also when the file wrote
    its day or month on one digit; for an earlier year the string has a
    shorter year and does not read back. *)
Theorem dates_read_are_written_back s d :
  strptime_dmy s = Some d ->
  valid_date d = true
  /\ (1000 <= year d ->
      dmy_shaped (strftime_dmy d)
      /\ strptime_dmy (strftime_dmy d) = Some d)
  /\ (year d < 1000 -> strptime_dmy (strftime_dmy d) = None).
Proof.
  intros H.
  assert (Hv : valid_date d = true).
  { unfold strptime_dmy in H.
    destruct (split_on "-" s) as [|ds [|ms [|ys [|? ?]]]]; try discriminate.
    destruct (field_1_or_2_digits true ds) as [dd|]; [|discriminate].
    destruct (field_1_or_2_digits false ms) as [m|]; [|discriminate].
    destruct (field_4_digits ys) as [y|]; [|discriminate].
    destruct ((dd <=? 31) && (m <=? 12) && valid_date (mkdate y m dd)) eqn:E;
      [|discriminate].
    injection H as <-. apply andb_true_iff in E. tauto. }
  split; [exact Hv|]. split.
  - intros Hy.
    split; [apply strftime_dmy_shaped|apply strptime_strftime]; assumption.
  - intros Hy. apply strptime_strftime_short_year; assumption.
Qed.

(** The property at a date written without leading zeros. *)
Lemma dates_read_are_written_back_witness :
  strptime_dmy "1-3-2023" = Some (mkdate 2023 3 1)
  /\ valid_date (mkdate 2023 3 1) = true
  /\ (1000 <= year (mkdate 2023 3 1) ->
      dmy_shaped (strftime_dmy (mkdate 2023 3 1))
      /\ strptime_dmy (strftime_dmy (mkdate 2023 3 1)) = Some (mkdate 2023 3 1))
  /\ (year (mkdate 2023 3 1) < 1000 ->
      strptime_dmy (strftime_dmy (mkdate 2023 3 1)) = None).
Proof.
  assert (H : strptime_dmy "1-3-2023" = Some (mkdate 2023 3 1)) by reflexivity.
  split; [exact H|]. exact (dates_read_are_written_back _ _ H).
Defined.

(** X8.  [format_rows] cannot be applied twice: after a first call has
    put strings in the rows, a second call on the same rows raises
    [AttributeError] at the timestamp of the first row and changes
    nothing. *)
Theorem format_rows_twice_raises st rows ws :
  holds_rows st rows ws ->
  NoDup rows ->
  rows <> [] ->
  exists st1,
    format_rows rows st = (Ok rows, st1)
    /\ format_rows rows st1 = (Raise AttributeError, st1).
Proof.
  intros Hh Hnd Hne.
  destruct (format_each_spec rows ws st Hh Hnd) as (h' & Hrun & Hdisp & _).
  exists (with_heap st h'). split.
  - unfold format_rows. rewrite (bind_ok _ _ _ _ _ Hrun). reflexivity.
  - destruct Hdisp as [|row w rest ws' Hrow _]; [congruence|].
    unfold format_rows. cbn [format_each].
    unfold bind at 1.
    rewrite (bind_ok _ _ _ _ _
               (getitem_ok (with_heap st h') row _ "Timestamp" _ Hrow eq_refl)).
    reflexivity.
Qed.

(** The property at the window priced 10.0 and 10.01. *)
Lemma format_rows_twice_raises_witness :
  holds_rows (store_of close_window) (refs_of close_window) close_window
  /\ NoDup (refs_of close_window)
  /\ refs_of close_window <> []
  /\ exists st1,
       format_rows (refs_of close_window) (store_of close_window)
       = (Ok (refs_of close_window), st1)
       /\ format_rows (refs_of close_window) st1 = (Raise AttributeError, st1).
Proof.
  assert (H1 : holds_rows (store_of close_window) (refs_of close_window)
                 close_window) by (unfold holds_rows; repeat constructor).
  assert (H2 : NoDup (refs_of close_window)) by (apply NoDup_seq).
  assert (H3 : refs_of close_window <> []) by discriminate.
  split; [exact H1|]. split; [exact H2|]. split; [exact H3|].
  exact (format_rows_twice_raises _ _ _ H1 H2 H3).
Defined.

(** A row that already holds a string timestamp stops the loop. *)
Lemma format_each_formatted l rest w st :
  heap st !! l = Some (display_dict w) ->
  format_each (l :: rest) st = (Raise AttributeError, st).
Proof.
  intros Hl. cbn [format_each].
  rewrite (bind_ok _ _ _ _ _ (getitem_ok st l _ "Timestamp" _ Hl eq_refl)).
  reflexivity.
Qed.

(** The loop on a list in two parts. *)
Lemma format_each_app a b st :
  format_each (a ++ b) st = bind (format_each a) (fun _ => format_each b) st.
Proof.
  revert st. induction a as [|row rest IH]; intros st; [reflexivity|].
  cbn [app format_each]. unfold bind.
  destruct (getitem row "Timestamp" st) as [[v|e] s1]; [|reflexivity].
  destruct (strftime v s1) as [[t|e] s2]; [|reflexivity].
  destruct (setitem row "Timestamp" (VStr t) s2) as [[u|e] s3]; [|reflexivity].
  destruct (getitem row "Stock Price Value" s3) as [[v'|e] s4]; [|reflexivity].
  destruct (to_float v' s4) as [[x|e] s5]; [|reflexivity].
  destruct (setitem row "Stock Price Value" (VStr (format_2f x)) s5)
    as [[u'|e] s6]; [|reflexivity].
  rewrite IH. reflexivity.
Qed.

(** X9.  A row that occurs twice in the list is formatted once.  When the
    rows [pre] are distinct and [l] is one of them, [format_rows] on
    [pre] followed by [l] formats the rows of [pre], raises
    [AttributeError] at the second occurrence of [l], and leaves every
    other row, those after it included, as it was. *)
Theorem format_rows_raises_on_shared_row st pre ws l after :
  holds_rows st pre ws ->
  NoDup pre ->
  In l pre ->
  exists h',
    format_rows (pre ++ l :: after) st
    = (Raise AttributeError, with_heap st h')
    /\ Forall2 (fun r w => h' !! r = Some (display_dict w)) pre ws
    /\ (forall r, ~ In r pre -> h' !! r = heap st !! r).
Proof.
  intros Hh Hnd Hin.
  destruct (format_each_spec pre ws st Hh Hnd) as (h' & Hrun & Hdisp & Hframe).
  exists h'. split; [|split; assumption].
  assert (Hl : exists w, heap (with_heap st h') !! l = Some (display_dict w)).
  { clear Hrun Hframe Hh Hnd. cbn [heap with_heap].
    induction Hdisp as [|r w rest ws' Hr _ IH]; [destruct Hin|].
    destruct Hin as [->|Hin]; [eauto|auto]. }
  destruct Hl as [w Hl].
  unfold format_rows. apply bind_raise.
  rewrite format_each_app, (bind_ok _ _ _ _ _ Hrun).
  apply (format_each_formatted l after w). exact Hl.
Qed.

(** The property at the window priced 10.0 and 10.01, whose first row
    comes again after the second. *)
Lemma format_rows_raises_on_shared_row_witness :
  holds_rows (store_of close_window) (refs_of close_window) close_window
  /\ NoDup (refs_of close_window)
  /\ In 0%nat (refs_of close_window)
  /\ exists h',
       format_rows (refs_of close_window ++ 0%nat :: [])
         (store_of close_window)
       = (Raise AttributeError, with_heap (store_of close_window) h')
       /\ Forall2 (fun r w => h' !! r = Some (display_dict w))
            (refs_of close_window) close_window
       /\ (forall r, ~ In r (refs_of close_window) ->
           h' !! r = heap (store_of close_window) !! r).
Proof.
  assert (H1 : holds_rows (store_of close_window) (refs_of close_window)
                 close_window) by (unfold holds_rows; repeat constructor).
  assert (H2 : NoDup (refs_of close_window)) by (apply NoDup_seq).
  assert (H3 : In 0%nat (refs_of close_window)) by (left; reflexivity).
  split; [exact H1|]. split; [exact H2|]. split; [exact H3|].
  exact (format_rows_raises_on_shared_row _ _ _ _ [] H1 H2 H3).
Defined.

(** ** The writer *)

Lemma other_files_cons path f w :
  other_files path (f :: w)
  = if String.eqb (fst f) path then other_files path w
    else f :: other_files path w.
Proof.
  unfold other_files. rewrite filter_cons.
  destruct (String.eqb (fst f) path); reflexivity.
Qed.

Lemma other_files_app path a b :
  other_files path (a ++ b) = other_files path a ++ other_files path b.
Proof. apply filter_app. Qed.

Lemma other_files_idem path w :
  other_files path (other_files path w) = other_files path w.
Proof.
  induction w as [|f w IH]; [reflexivity|].
  rewrite other_files_cons. destruct (String.eqb (fst f) path) eqn:E; [exact IH|].
  rewrite other_files_cons, E, IH. reflexivity.
Qed.

Lemma other_files_opened path w :
  other_files path (other_files path w ++ [(path, [])]) = other_files path w.
Proof.
  rewrite other_files_app, other_files_idem, other_files_cons.
  cbn [fst]. rewrite String.eqb_refl. apply app_nil_r.
Qed.

Lemma other_files_row path cells w :
  other_files path
    (map (fun f => if String.eqb (fst f) path
                   then (fst f, snd f ++ [cells]) else f) w)
  = other_files path w.
Proof.
  induction w as [|f w IH]; [reflexivity|].
  cbn [map]. rewrite !other_files_cons.
  destruct (String.eqb (fst f) path) eqn:E; cbn [fst]; rewrite E, IH; reflexivity.
Qed.

(** A row goes to the end of the file that was opened last. *)
Lemma row_after_others path cells acc w :
  map (fun f => if String.eqb (fst f) path
                then (fst f, snd f ++ [cells]) else f)
      (other_files path w ++ [(path, acc)])
  = other_files path w ++ [(path, acc ++ [cells])].
Proof.
  rewrite map_app. cbn [map fst snd]. rewrite String.eqb_refl. f_equal.
  induction w as [|f w IH]; [reflexivity|].
  rewrite other_files_cons. destruct (String.eqb (fst f) path) eqn:E; [exact IH|].
  cbn [map]. rewrite E, IH. reflexivity.
Qed.

Lemma writes_only_ret {A} path (a : A) : writes_only path (ret a).
Proof. intros st. cbn. auto. Qed.

Lemma writes_only_raise {A} path e : writes_only path (@raise A e).
Proof. intros st. cbn. auto. Qed.

Lemma writes_only_bind {A B} path (c : M A) (k : A -> M B) :
  writes_only path c -> (forall a, writes_only path (k a)) ->
  writes_only path (bind c k).
Proof.
  intros Hc Hk st. unfold bind. destruct (Hc st) as (H1 & H2 & H3 & H4 & H5).
  destruct (c st) as [[a|e] st1]; cbn [snd] in *; [|auto].
  destruct (Hk a st1) as (K1 & K2 & K3 & K4 & K5).
  rewrite K1, K2, K3, K4, K5. auto.
Qed.

Lemma writes_only_of_option {A} path e (o : option A) :
  writes_only path (of_option e o).
Proof. destruct o; [apply writes_only_ret|apply writes_only_raise]. Qed.

Lemma writes_only_deref path l : writes_only path (deref l).
Proof. intros st. unfold deref. destruct (heap st !! l); cbn; auto. Qed.

Lemma writes_only_getitem path l k : writes_only path (getitem l k).
Proof.
  apply writes_only_bind;
    [apply writes_only_deref|intros; apply writes_only_of_option].
Qed.

Lemma writes_only_setitem path l k v : writes_only path (setitem l k v).
Proof.
  intros st. unfold setitem. destruct (heap st !! l); cbn; auto.
  rewrite length_insert. auto.
Qed.

Lemma writes_only_as_float path v : writes_only path (as_float v).
Proof. destruct v; first [apply writes_only_ret|apply writes_only_raise]. Qed.

Lemma writes_only_to_float path v : writes_only path (to_float v).
Proof.
  destruct v; first [apply writes_only_ret|apply writes_only_raise
                    |apply writes_only_of_option].
Qed.

Lemma writes_only_strftime path v : writes_only path (strftime v).
Proof. destruct v; first [apply writes_only_ret|apply writes_only_raise]. Qed.

Lemma writes_only_writerow path cells : writes_only path (writerow path cells).
Proof.
  intros st. unfold writerow. cbn [snd reads console clock heap written].
  rewrite other_files_row. auto.
Qed.

Lemma writes_only_ensure_directory path fs p :
  writes_only path (ensure_directory fs p).
Proof.
  unfold ensure_directory.
  destruct (makedirs fs p); [apply writes_only_raise|apply writes_only_ret].
Qed.

Lemma writes_only_open_for_writing fs path :
  writes_only path (open_for_writing fs path).
Proof.
  intros st. unfold open_for_writing.
  destruct (open_write fs path); cbn [snd reads console clock heap written];
    [auto|].
  fold (other_files path (written st)). rewrite other_files_opened. auto.
Qed.

Ltac writes_step :=
  first
    [ apply writes_only_ret | apply writes_only_raise
    | apply writes_only_of_option | apply writes_only_deref
    | apply writes_only_getitem | apply writes_only_setitem
    | apply writes_only_as_float | apply writes_only_to_float
    | apply writes_only_strftime | apply writes_only_writerow
    | apply writes_only_ensure_directory | apply writes_only_open_for_writing
    | apply writes_only_bind; [|intros ?] ].

Ltac writes := repeat writes_step.

Lemma writes_only_format_each path rows : writes_only path (format_each rows).
Proof. induction rows as [|row rest IH]; cbn [format_each]; writes; auto. Qed.

Lemma writes_only_format_rows path rows : writes_only path (format_rows rows).
Proof. unfold format_rows. writes; auto using writes_only_format_each. Qed.

Lemma writes_only_write_rows path rows : writes_only path (write_rows path rows).
Proof. induction rows as [|row rest IH]; cbn [write_rows]; writes; auto. Qed.

(** The rows of a formatted window go to the file in order. *)
Lemma write_rows_spec path rows : forall ws st acc,
  Forall2 (fun l w => heap st !! l = Some (display_dict w)) rows ws ->
  written st = other_files path (written st) ++ [(path, acc)] ->
  write_rows path rows st
  = (Ok tt,
     mkstate (heap st) (console st) (clock st) (reads st)
       (other_files path (written st)
          ++ [(path, acc ++ map display_cells ws)])).
Proof.
  induction rows as [|row rest IH]; intros ws st acc Hh Hw.
  - inversion Hh; subst. cbn [write_rows ret map]. rewrite app_nil_r, <- Hw.
    destruct st; reflexivity.
  - inversion Hh as [|? w ? ws' Hrow Hrest]; subst.
    cbn [write_rows]. unfold bind at 1. unfold deref. rewrite Hrow.
    unfold bind at 1. unfold writerow at 1.
    set (st1 := mkstate _ _ _ _ _).
    assert (Hw1 : written st1
                  = other_files path (written st)
                      ++ [(path, acc ++ [display_cells w])]).
    { subst st1. cbn [written]. rewrite Hw at 1. apply row_after_others. }
    assert (Ho : other_files path (written st1) = other_files path (written st)).
    { rewrite Hw1, other_files_app, other_files_idem, other_files_cons.
      cbn [fst]. rewrite String.eqb_refl. apply app_nil_r. }
    rewrite (IH ws' st1 (acc ++ [display_cells w])).
    + rewrite Ho. subst st1. cbn [heap console clock reads map].
      rewrite <- app_assoc. reflexivity.
    + exact Hrest.
    + rewrite Ho. exact Hw1.
Qed.

(** X10.  [save_predicted_stock_rows] never raises, whatever rows and paths
    it is given: it returns after printing at most one line.  It opens no
    file for reading, makes no new row, and leaves every output file other
    than its own as it was. *)
Theorem save_predicted_stock_rows_is_contained fs output_path exchange_name
    file_name predicted_rows st :
  exists st',
    save_predicted_stock_rows fs output_path exchange_name file_name
      predicted_rows st = (Ok tt, st')
    /\ reads st' = reads st
    /\ clock st' = clock st
    /\ length (heap st') = length (heap st)
    /\ other_files (path_join (path_join output_path exchange_name) file_name)
         (written st')
       = other_files (path_join (path_join output_path exchange_name) file_name)
           (written st)
    /\ (console st' = console st
        \/ exists e, console st' = console st ++ [report output_path e]).
Proof.
  unfold save_predicted_stock_rows, try_except.
  set (file_path := path_join (path_join output_path exchange_name) file_name).
  set (body := bind _ _).
  assert (Hb : writes_only file_path body).
  { subst body.
    writes; auto using writes_only_format_each, writes_only_write_rows. }
  destruct (Hb st) as (H1 & H2 & H3 & H4 & H5).
  destruct (body st) as [[[]|e] st1]; cbn [snd] in *.
  - exists st1. auto 10.
  - exists (snd (print (report output_path e) st1)).
    split; [destruct e; reflexivity|].
    cbn [print snd reads clock heap written console].
    repeat split; try assumption. right. exists e. rewrite H2. reflexivity.
Qed.

(** The rows are formatted, the file is opened and the rows are written:
    lines 155 to 165 on rows held in the store. *)
Lemma save_body_spec fs file_path rows ws st :
  holds_rows st rows ws ->
  NoDup rows ->
  exists h',
    format_rows rows st = (Ok rows, with_heap st h')
    /\ Forall2 (fun l w => h' !! l = Some (display_dict w)) rows ws
    /\ (forall l, ~ In l rows -> h' !! l = heap st !! l)
    /\ (open_write fs file_path = None ->
        (do _ <- open_for_writing fs file_path ;; write_rows file_path rows)
          (with_heap st h')
        = (Ok tt,
           mkstate h' (console st) (clock st) (reads st)
             (other_files file_path (written st)
                ++ [(file_path, map display_cells ws)]))).
Proof.
  intros Hh Hnd.
  destruct (format_each_spec rows ws st Hh Hnd) as (h' & Hrun & Hdisp & Hframe).
  exists h'. split; [|split; [exact Hdisp|split; [exact Hframe|]]].
  - unfold format_rows. rewrite (bind_ok _ _ _ _ _ Hrun). reflexivity.
  - intros Hopen. unfold bind at 1. unfold open_for_writing. rewrite Hopen.
    fold (other_files file_path (written (with_heap st h'))).
    set (st2 := mkstate _ _ _ _ _).
    assert (Ho : other_files file_path (written st2)
                 = other_files file_path (written st))
      by (subst st2; cbn [written with_heap]; apply other_files_opened).
    rewrite (write_rows_spec file_path rows ws st2 []).
    + rewrite Ho. reflexivity.
    + exact Hdisp.
    + rewrite Ho. reflexivity.
Qed.



(** X12.  The rows are formatted before the file is opened: when the file
    cannot be opened, [save_predicted_stock_rows] prints one line that
    names the output root, writes nothing, and the rows of the caller hold
    the display strings all the same. *)
Theorem unopened_file_leaves_rows_formatted fs output_path exchange_name
    file_name rows ws st e :
  holds_rows st rows ws ->
  NoDup rows ->
  makedirs fs (path_join output_path exchange_name) = None ->
  open_write fs (path_join (path_join output_path exchange_name) file_name)
  = Some e ->
  exists h',
    save_predicted_stock_rows fs output_path exchange_name file_name rows st
    = (Ok tt,
       mkstate h' (console st ++ [report output_path e]) (clock st) (reads st)
         (written st))
    /\ Forall2 (fun l w => h' !! l = Some (display_dict w)) rows ws
    /\ (forall l, ~ In l rows -> h' !! l = heap st !! l).
Proof.
  intros Hh Hnd Hdir Hopen.
  destruct (save_body_spec fs
              (path_join (path_join output_path exchange_name) file_name)
              rows ws st Hh Hnd) as (h' & Hfmt & Hdisp & Hframe & _).
  exists h'. split; [|split; assumption].
  unfold save_predicted_stock_rows, try_except, ensure_directory.
  rewrite Hdir. unfold bind at 1. cbn [ret].
  rewrite (bind_ok _ _ _ _ _ Hfmt).
  unfold bind at 1. unfold open_for_writing. rewrite Hopen.
  destruct e; reflexivity.
Qed.

(** The property at the window priced 10.0 and 10.01 and the file
    [out/LSE/a.csv], which cannot be written. *)
Lemma unopened_file_leaves_rows_formatted_witness :
  holds_rows (store_of close_window) (refs_of close_window) close_window
  /\ NoDup (refs_of close_window)
  /\ makedirs unwritable_fs (path_join "out" "LSE") = None
  /\ open_write unwritable_fs (path_join (path_join "out" "LSE") "a.csv")
     = Some PermissionError
  /\ exists h',
       save_predicted_stock_rows unwritable_fs "out" "LSE" "a.csv"
         (refs_of close_window) (store_of close_window)
       = (Ok tt,
          mkstate h'
            (console (store_of close_window)
               ++ [report "out" PermissionError])
            (clock (store_of close_window)) (reads (store_of close_window))
            (written (store_of close_window)))
       /\ Forall2 (fun l w => h' !! l = Some (display_dict w))
            (refs_of close_window) close_window
       /\ (forall l, ~ In l (refs_of close_window) ->
           h' !! l = heap (store_of close_window) !! l).
Proof.
  assert (H1 : holds_rows (store_of close_window) (refs_of close_window)
                 close_window) by (unfold holds_rows; repeat constructor).
  assert (H2 : NoDup (refs_of close_window)) by (apply NoDup_seq).
  assert (H3 : makedirs unwritable_fs (path_join "out" "LSE") = None)
    by reflexivity.
  assert (H4 : open_write unwritable_fs
                 (path_join (path_join "out" "LSE") "a.csv")
               = Some PermissionError) by reflexivity.
  split; [exact H1|]. split; [exact H2|]. split; [exact H3|]. split; [exact H4|].
  exact (unopened_file_leaves_rows_formatted unwritable_fs "out" "LSE" "a.csv"
           _ _ _ _ H1 H2 H3 H4).
Defined.

(** ** One file, from the sample to the output *)

(** A window that [get_random_rows] returns is made of new rows, and the
    call has changed nothing else but the clock and the list of the files
    opened. *)
Lemma get_random_rows_window_state randint fs file_path st rows st1 :
  get_random_rows randint fs file_path st = (Ok (Some rows), st1) ->
  exists ds c,
    rows = seq (length (heap st)) (length ds)
    /\ st1 = mkstate (heap st ++ ds) (console st) c (reads st ++ [file_path])
               (written st).
Proof.
  intros Hrun. unfold get_random_rows, try_except in Hrun.
  unfold bind at 1 in Hrun. unfold open_for_reading in Hrun.
  destruct (read_lines fs file_path) as [e|lines];
    [destruct e; discriminate|].
  fold (opened st file_path) in Hrun.
  unfold bind at 1 in Hrun.
  assert (Hgen : exists start_row c,
            generate_random_start_row randint (Z.of_nat (length lines))
              (opened st file_path)
            = (Ok start_row,
               mkstate (heap st) (console st) c (reads st ++ [file_path])
                 (written st))).
  { unfold generate_random_start_row.
    destruct (Z.of_nat (length lines) <? 10); eexists _, _; reflexivity. }
  destruct Hgen as (start_row & c & Hgen). rewrite Hgen in Hrun.
  unfold bind at 1 in Hrun.
  destruct (read_rows start_row lines 0 [] _) as [[rows0|e] st2] eqn:Hread;
    [|destruct e; discriminate].
  cbn [ret] in Hrun. injection Hrun as <- <-.
  destruct (read_rows_spec _ _ _ _ _ _ _ Hread) as (ds & _ & -> & ->).
  exists ds, c. split; reflexivity.
Qed.

(** X13.  The three calls of the loop compose: when [get_random_rows]
    returns a window of rows [ws] with two distinct prices at least and
    three days after its last date, and the output file can be made, the
    loop writes one file that holds the window followed by the three
    forecast rows, prints nothing, counts the file and goes on with the
    entries that are left. *)
Theorem good_file_is_forecast_and_saved randint fs n exchange_path output_path
    exchange_name file_name rest count st rows st1 ws w p0 :
  isfile fs (path_join exchange_path file_name) = true ->
  endswith ".csv" (lower_string file_name) = true ->
  get_random_rows randint fs (path_join exchange_path file_name) st
  = (Ok (Some rows), st1) ->
  holds_rows st1 rows ws ->
  last ws = Some w ->
  sorted_desc (py_set (map price ws)) !! 1%nat = Some p0 ->
  add_days 3 (timestamp w) <> None ->
  makedirs fs (path_join output_path exchange_name) = None ->
  open_write fs (path_join (path_join output_path exchange_name) file_name)
  = None ->
  let p1 := forecast_p1 p0 (price w) in
  let p2 := forecast_p2 p0 p1 in
  let saved := ws ++ forecast_rows (stock_id w) (timestamp w) [p0; p1; p2] in
  exists st',
    process_entries randint fs n exchange_path output_path exchange_name
      (file_name :: rest) count st
    = (if count + 1 =? n then ret tt
       else process_entries randint fs n exchange_path output_path
              exchange_name rest (count + 1)) st'
    /\ written st'
       = other_files (path_join (path_join output_path exchange_name) file_name)
           (written st)
         ++ [(path_join (path_join output_path exchange_name) file_name,
              map display_cells saved)]
    /\ console st' = console st
    /\ reads st' = reads st ++ [path_join exchange_path file_name]
    /\ length saved = (length ws + 3)%nat.
Proof.
  intros Hfile Hcsv Hrun Hh Hw Hp0 Hdays Hdir Hopen p1 p2 saved.
  destruct (get_random_rows_window_state _ _ _ _ _ _ Hrun)
    as (ds & c & Hrows & Hst1).
  pose proof (predict_next_values_spec st1 rows ws w p0 Hh Hw Hp0) as Hpred.
  cbv zeta in Hpred. fold p1 p2 in Hpred.
  destruct (add_days 3 (timestamp w)) as [d3|] eqn:Hd3; [|congruence].
  set (st2 := with_heap st1 _) in Hpred.
  assert (Hlen : length (forecast_rows (stock_id w) (timestamp w) [p0; p1; p2])
                 = 3%nat).
  { cbn [add_days] in Hd3. cbn [forecast_rows].
    destruct (add_one_day (timestamp w)) as [d1|]; [|discriminate].
    destruct (add_one_day d1) as [d2|]; [|discriminate].
    destruct (add_one_day d2) as [d3'|]; [|discriminate]. reflexivity. }
  assert (Hh2 : holds_rows st2 (rows ++ seq (length (heap st1)) 3) saved).
  { subst st2 saved. unfold holds_rows. cbn [heap with_heap].
    apply Forall2_app.
    - apply (Forall2_impl_In _ _ _ _ Hh). intros l x _ Hl.
      apply lookup_app_l_Some, Hl.
    - rewrite <- Hlen.
      generalize (forecast_rows (stock_id w) (timestamp w) [p0; p1; p2]).
      intros fr. generalize (heap st1). intros h.
      revert h. induction fr as [|r fr IH]; intros h; [constructor|].
      cbn [length seq map]. constructor.
      + apply list_lookup_middle. reflexivity.
      + specialize (IH (h ++ [row_dict r])).
        rewrite length_app, <- app_assoc in IH. cbn [length app] in IH.
        replace (length h + 1)%nat with (S (length h)) in IH by lia.
        exact IH. }
  assert (Hnd : NoDup (rows ++ seq (length (heap st1)) 3)).
  { assert (Hheap : length (heap st1) = (length (heap st) + length ds)%nat)
      by (rewrite Hst1; cbn [heap]; apply length_app).
    rewrite Hrows, Hheap, <- seq_app. apply NoDup_seq. }
  destruct (save_body_spec fs
              (path_join (path_join output_path exchange_name) file_name)
              _ _ _ Hh2 Hnd) as (h' & Hfmt & _ & _ & Hwrite).
  eexists. split.
  - cbn [process_entries]. rewrite Hfile, Hcsv. cbn [andb].
    unfold bind at 1. unfold bind at 1. rewrite Hrun.
    unfold bind at 1. rewrite Hpred.
    unfold bind at 1.
    unfold save_predicted_stock_rows, try_except, ensure_directory.
    rewrite Hdir. unfold bind at 1. cbn [ret].
    rewrite (bind_ok _ _ _ _ _ Hfmt), (Hwrite Hopen). reflexivity.
  - cbn [written console reads]. subst st2. cbn [written console reads with_heap].
    rewrite Hst1. cbn [written console reads].
    split; [reflexivity|]. split; [reflexivity|]. split; [reflexivity|].
    subst saved. rewrite length_app, Hlen. reflexivity.
Qed.

(** The property at the first file of the exchange [in/LSE], which holds
    the scenario window, with a cap of one file. *)
Lemma good_file_is_forecast_and_saved_witness :
  let st1 := snd (get_random_rows lowest_draw sound_fs
                    (path_join "in/LSE" "a.csv") empty_state) in
  let w := mkrow "ACME" (mkdate 2023 3 10) (literal 99 (-1)) in
  let p0 := literal 110 (-1) in
  isfile sound_fs (path_join "in/LSE" "a.csv") = true
  /\ endswith ".csv" (lower_string "a.csv") = true
  /\ get_random_rows lowest_draw sound_fs (path_join "in/LSE" "a.csv")
       empty_state = (Ok (Some (seq 0 10)), st1)
  /\ holds_rows st1 (seq 0 10) scenario_window
  /\ last scenario_window = Some w
  /\ sorted_desc (py_set (map price scenario_window)) !! 1%nat = Some p0
  /\ add_days 3 (timestamp w) <> None
  /\ makedirs sound_fs (path_join "out" "LSE") = None
  /\ open_write sound_fs (path_join (path_join "out" "LSE") "a.csv") = None
  /\ exists st',
       process_entries lowest_draw sound_fs 1 "in/LSE" "out" "LSE"
         ("a.csv" :: ["b.csv"]) 0 empty_state
       = (if 0 + 1 =? 1 then ret tt
          else process_entries lowest_draw sound_fs 1 "in/LSE" "out" "LSE"
                 ["b.csv"] (0 + 1)) st'
       /\ written st'
          = other_files (path_join (path_join "out" "LSE") "a.csv")
              (written empty_state)
            ++ [(path_join (path_join "out" "LSE") "a.csv",
                 map display_cells
                   (scenario_window
                      ++ forecast_rows (stock_id w) (timestamp w)
                           [p0; forecast_p1 p0 (price w);
                            forecast_p2 p0 (forecast_p1 p0 (price w))]))]
       /\ console st' = console empty_state
       /\ reads st' = reads empty_state ++ [path_join "in/LSE" "a.csv"]
       /\ length (scenario_window
                    ++ forecast_rows (stock_id w) (timestamp w)
                         [p0; forecast_p1 p0 (price w);
                          forecast_p2 p0 (forecast_p1 p0 (price w))])
          = (length scenario_window + 3)%nat.
Proof.
  intros st1 w p0.
  assert (H1 : isfile sound_fs (path_join "in/LSE" "a.csv") = true)
    by reflexivity.
  assert (H2 : endswith ".csv" (lower_string "a.csv") = true) by reflexivity.
  assert (H3 : get_random_rows lowest_draw sound_fs (path_join "in/LSE" "a.csv")
                 empty_state = (Ok (Some (seq 0 10)), st1))
    by (vm_compute; reflexivity).
  assert (H4 : holds_rows st1 (seq 0 10) scenario_window)
    by (vm_compute; repeat constructor).
  assert (H5 : last scenario_window = Some w) by reflexivity.
  assert (H6 : sorted_desc (py_set (map price scenario_window)) !! 1%nat
               = Some p0) by (vm_compute; reflexivity).
  assert (H7 : add_days 3 (timestamp w) <> None) by discriminate.
  assert (H8 : makedirs sound_fs (path_join "out" "LSE") = None) by reflexivity.
  assert (H9 : open_write sound_fs (path_join (path_join "out" "LSE") "a.csv")
               = None) by reflexivity.
  split; [exact H1|]. split; [exact H2|]. split; [exact H3|]. split; [exact H4|].
  split; [exact H5|]. split; [exact H6|]. split; [exact H7|]. split; [exact H8|].
  split; [exact H9|].
  exact (good_file_is_forecast_and_saved lowest_draw sound_fs 1 "in/LSE" "out"
           "LSE" "a.csv" ["b.csv"] 0 empty_state (seq 0 10) st1 scenario_window
           w p0 H1 H2 H3 H4 H5 H6 H7 H8 H9).
Defined.

(** ** What counts as a processed file *)

Lemma save_predicted_stock_rows_returns fs output_path exchange_name file_name
    rows st :
  fst (save_predicted_stock_rows fs output_path exchange_name file_name rows st)
  = Ok tt.
Proof.
  unfold save_predicted_stock_rows, try_except.
  destruct (bind _ _ st) as [[[]|e] st1]; [reflexivity|].
  destruct e; reflexivity.
Qed.

(** X14.  The cap counts the files that were sampled and forecast, written
    or not: once [get_random_rows] and [predict_next_values] have returned
    for an entry, the count goes up by one and the loop goes on, even when
    [save_predicted_stock_rows] could write nothing. *)
Theorem forecast_file_counts_toward_cap randint fs n exchange_path output_path
    exchange_name file_name rest count st random_rows st1 predicted_rows st2 :
  isfile fs (path_join exchange_path file_name) = true ->
  endswith ".csv" (lower_string file_name) = true ->
  get_random_rows randint fs (path_join exchange_path file_name) st
  = (Ok random_rows, st1) ->
  predict_next_values random_rows st1 = (Ok predicted_rows, st2) ->
  process_entries randint fs n exchange_path output_path exchange_name
    (file_name :: rest) count st
  = (if count + 1 =? n then ret tt
     else process_entries randint fs n exchange_path output_path exchange_name
            rest (count + 1))
      (snd (save_predicted_stock_rows fs output_path exchange_name file_name
              predicted_rows st2)).
Proof.
  intros Hfile Hcsv Hrun Hpred.
  cbn [process_entries]. rewrite Hfile, Hcsv. cbn [andb].
  unfold bind at 1. unfold bind at 1. rewrite Hrun.
  unfold bind at 1. rewrite Hpred. unfold bind at 1.
  pose proof (save_predicted_stock_rows_returns fs output_path exchange_name
                file_name predicted_rows st2) as Hret.
  destruct (save_predicted_stock_rows fs output_path exchange_name file_name
              predicted_rows st2) as [r st3].
  cbn [fst snd] in *. subst r. reflexivity.
Qed.

(** The property at the first file of the exchange [in/LSE] when it cannot
    be written, with a cap of one file: the loop stops after it. *)
Lemma forecast_file_counts_toward_cap_witness :
  let st1 := snd (get_random_rows lowest_draw unwritable_fs
                    (path_join "in/LSE" "a.csv") empty_state) in
  let st2 := snd (predict_next_values (Some (seq 0 10)) st1) in
  isfile unwritable_fs (path_join "in/LSE" "a.csv") = true
  /\ endswith ".csv" (lower_string "a.csv") = true
  /\ get_random_rows lowest_draw unwritable_fs (path_join "in/LSE" "a.csv")
       empty_state = (Ok (Some (seq 0 10)), st1)
  /\ predict_next_values (Some (seq 0 10)) st1 = (Ok (seq 0 13), st2)
  /\ process_entries lowest_draw unwritable_fs 1 "in/LSE" "out" "LSE"
       ("a.csv" :: ["b.csv"]) 0 empty_state
     = (if 0 + 1 =? 1 then ret tt
        else process_entries lowest_draw unwritable_fs 1 "in/LSE" "out" "LSE"
               ["b.csv"] (0 + 1))
         (snd (save_predicted_stock_rows unwritable_fs "out" "LSE" "a.csv"
                 (seq 0 13) st2)).
Proof.
  intros st1 st2.
  assert (H1 : isfile unwritable_fs (path_join "in/LSE" "a.csv") = true)
    by reflexivity.
  assert (H2 : endswith ".csv" (lower_string "a.csv") = true) by reflexivity.
  assert (H3 : get_random_rows lowest_draw unwritable_fs
                 (path_join "in/LSE" "a.csv") empty_state
               = (Ok (Some (seq 0 10)), st1)) by (vm_compute; reflexivity).
  assert (H4 : predict_next_values (Some (seq 0 10)) st1
               = (Ok (seq 0 13), st2)) by (vm_compute; reflexivity).
  split; [exact H1|]. split; [exact H2|]. split; [exact H3|]. split; [exact H4|].
  exact (forecast_file_counts_toward_cap lowest_draw unwritable_fs 1 "in/LSE"
           "out" "LSE" "a.csv" ["b.csv"] 0 empty_state _ st1 _ st2
           H1 H2 H3 H4).
Defined.

(** ** The directories *)

Lemma filter_cons_bool {A} (f : A -> bool) x l :
  filter (fun y => f y) (x :: l)
  = if f x then x :: filter (fun y => f y) l else filter (fun y => f y) l.
Proof. rewrite filter_cons. destruct (f x); reflexivity. Qed.

Lemma csv_entries_cons fs exchange_path file_name rest :
  csv_entries fs exchange_path (file_name :: rest)
  = if isfile fs (path_join exchange_path file_name)
       && endswith ".csv" (lower_string file_name)
    then file_name :: csv_entries fs exchange_path rest
    else csv_entries fs exchange_path rest.
Proof.
  unfold csv_entries. rewrite filter_cons.
  destruct (isfile fs (path_join exchange_path file_name)
            && endswith ".csv" (lower_string file_name)); reflexivity.
Qed.

(** The loop over the entries opens the files that pass the test of line
    192, in the order of the listing, until it stops; while the count is
    below [n] it opens at most [n - count] of them. *)
Lemma process_entries_opens randint fs n exchange_path output_path exchange_name
    entries : forall count st,
  exists k,
    reads (snd (process_entries randint fs n exchange_path output_path
                  exchange_name entries count st))
    = reads st ++ take k (map (path_join exchange_path)
                            (csv_entries fs exchange_path entries))
    /\ (count < n -> Z.of_nat k <= n - count).
Proof.
  induction entries as [|file_name rest IH]; intros count st.
  - exists 0%nat. cbn. rewrite app_nil_r. split; [reflexivity|lia].
  - cbn [process_entries]. rewrite csv_entries_cons.
    destruct (isfile fs (path_join exchange_path file_name)
              && endswith ".csv" (lower_string file_name)).
    + destruct (process_one_file randint fs output_path exchange_name file_name
                  (path_join exchange_path file_name) count st)
        as (st1 & Hr & [Hrun|[e Hrun]]).
      * unfold bind at 1. rewrite Hrun.
        destruct (Z.eqb_spec (count + 1) n) as [E|E].
        -- exists 1%nat. cbn [ret snd map take]. rewrite take_0.
           split; [exact Hr|lia].
        -- destruct (IH (count + 1) st1) as (k & Hk & Hcap).
           exists (S k). cbn [map take]. rewrite Hk, Hr, <- app_assoc.
           split; [reflexivity|lia].
      * unfold bind at 1. rewrite Hrun.
        exists 1%nat. cbn [snd map take]. rewrite take_0.
        split; [exact Hr|lia].
    + unfold bind at 1. cbn [ret].
      destruct (Z.eqb_spec count n) as [E|E].
      * exists 0%nat. cbn [ret snd take]. rewrite take_0, app_nil_r.
        split; [reflexivity|lia].
      * destruct (IH count st) as (k & Hk & Hcap). exists k. auto.
Qed.

Lemma process_files_from_exchange_returns randint fs n input_path output_path
    exchange_name st :
  fst (process_files_from_exchange randint fs n input_path output_path
         exchange_name st) = Ok tt.
Proof.
  unfold process_files_from_exchange, try_except.
  destruct (bind _ _ st) as [[[]|e] st1]; [reflexivity|].
  destruct e; reflexivity.
Qed.

Lemma process_files_from_exchange_opens randint fs n input_path output_path
    exchange_name st :
  exists k,
    reads (snd (process_files_from_exchange randint fs n input_path output_path
                  exchange_name st))
    = reads st
      ++ take k (map (path_join (path_join input_path exchange_name))
                   (csv_entries fs (path_join input_path exchange_name)
                      (listing fs (path_join input_path exchange_name))))
    /\ (1 <= n -> Z.of_nat k <= n).
Proof.
  unfold process_files_from_exchange, try_except, listing.
  destruct (listdir fs (path_join input_path exchange_name)) as [e|entries].
  - exists 0%nat. rewrite take_0, app_nil_r. split; [|lia].
    cbn [of_sum]. unfold bind, raise. apply keeps_print.
  - cbn [of_sum]. unfold bind at 1. cbn [ret].
    destruct (process_entries_opens randint fs n
                (path_join input_path exchange_name) output_path exchange_name
                entries 0 st) as (k & Hk & Hcap).
    exists k. split; [|lia].
    destruct (process_entries randint fs n (path_join input_path exchange_name)
                output_path exchange_name entries 0 st) as [[u|e] st1];
      cbn [snd] in *; [exact Hk|].
    rewrite keeps_print. exact Hk.
Qed.

(** X15.  For a cap of one or more, [process_files_from_exchange] never
    raises, and the files it opens are the first ones of the exchange, in
    the order of the listing, among the entries that are files named
    [.csv] in any case: at most [n] of them, and no other file. *)
Theorem exchange_opens_first_csv_files randint fs n input_path output_path
    exchange_name st :
  1 <= n ->
  exists st' k,
    process_files_from_exchange randint fs n input_path output_path
      exchange_name st = (Ok tt, st')
    /\ reads st'
       = reads st
         ++ take k (map (path_join (path_join input_path exchange_name))
                      (csv_entries fs (path_join input_path exchange_name)
                         (listing fs (path_join input_path exchange_name))))
    /\ Z.of_nat k <= n.
Proof.
  intros Hn.
  destruct (process_files_from_exchange_opens randint fs n input_path
              output_path exchange_name st) as (k & Hk & Hcap).
  pose proof (process_files_from_exchange_returns randint fs n input_path
                output_path exchange_name st) as Hret.
  destruct (process_files_from_exchange randint fs n input_path output_path
              exchange_name st) as [r st'].
  cbn [fst snd] in *. subst r. exists st', k. auto.
Qed.

(** The property at the exchange [in/LSE] of three files, with a cap of
    two. *)
Lemma exchange_opens_first_csv_files_witness :
  1 <= 2
  /\ exists st' k,
       process_files_from_exchange lowest_draw sound_fs 2 "in" "out" "LSE"
         empty_state = (Ok tt, st')
       /\ reads st'
          = reads empty_state
            ++ take k (map (path_join (path_join "in" "LSE"))
                         (csv_entries sound_fs (path_join "in" "LSE")
                            (listing sound_fs (path_join "in" "LSE"))))
       /\ Z.of_nat k <= 2.
Proof.
  assert (H : 1 <= 2) by lia.
  split; [exact H|].
  exact (exchange_opens_first_csv_files lowest_draw sound_fs 2 "in" "out" "LSE"
           empty_state H).
Defined.

(** The loop over the entries of the input root runs
    [process_files_from_exchange] on the directories, one after the
    other. *)
Lemma process_each_exchange_fold randint fs n input_path output_path entries :
  forall st,
  process_each_exchange randint fs n input_path output_path entries st
  = (Ok tt,
     fold_left
       (fun s exchange_name =>
          snd (process_files_from_exchange randint fs n input_path output_path
                 exchange_name s))
       (filter (fun exchange_name =>
                  isdir fs (path_join input_path exchange_name)) entries)
       st).
Proof.
  induction entries as [|exchange_name rest IH]; intros st; [reflexivity|].
  cbn [process_each_exchange].
  rewrite (filter_cons_bool (fun x => isdir fs (path_join input_path x))).
  destruct (isdir fs (path_join input_path exchange_name)).
  - unfold bind at 1. cbn [fold_left].
    pose proof (process_files_from_exchange_returns randint fs n input_path
                  output_path exchange_name st) as Hret.
    destruct (process_files_from_exchange randint fs n input_path output_path
                exchange_name st) as [r st1].
    cbn [fst snd] in *. subst r. rewrite IH. reflexivity.
  - unfold bind at 1. cbn [ret]. rewrite IH. reflexivity.
Qed.

(** X16.  [process_exchanges] never raises.  It runs
    [process_files_from_exchange] on every entry of the input root that is
    a directory, in the order of the listing, each from the state the one
    before has left, whatever went wrong in it; when the root cannot be
    listed it prints one line and does nothing else. *)
Theorem process_exchanges_visits_every_exchange randint fs n input_path
    output_path st :
  process_exchanges randint fs n input_path output_path st
  = (Ok tt,
     match listdir fs input_path with
     | inr _ =>
         fold_left
           (fun s exchange_name =>
              snd (process_files_from_exchange randint fs n input_path
                     output_path exchange_name s))
           (exchanges fs input_path) st
     | inl e => with_console st (console st ++ [report input_path e])
     end).
Proof.
  unfold process_exchanges, try_except, exchanges, listing.
  destruct (listdir fs input_path) as [e|entries].
  - cbn [of_sum]. unfold bind, raise. destruct e; reflexivity.
  - cbn [of_sum]. unfold bind at 1. cbn [ret].
    rewrite process_each_exchange_fold. reflexivity.
Qed.

(** ** A whole run *)

Lemma In_take {A} (k : nat) (l : list A) x : In x (take k l) -> In x l.
Proof.
  intros H. rewrite <- (take_drop k l). apply in_or_app. left. exact H.
Qed.

(** The files that the loop over the exchanges opens, and how many. *)
Lemma fold_exchanges_opens randint fs n input_path output_path exs : forall st,
  exists new,
    reads (fold_left
             (fun s exchange_name =>
                snd (process_files_from_exchange randint fs n input_path
                       output_path exchange_name s)) exs st)
    = reads st ++ new
    /\ (forall p, In p new ->
        In p (flat_map
                (fun exchange_name =>
                   map (path_join (path_join input_path exchange_name))
                     (csv_entries fs (path_join input_path exchange_name)
                        (listing fs (path_join input_path exchange_name))))
                exs))
    /\ (1 <= n -> Z.of_nat (length new) <= n * Z.of_nat (length exs)).
Proof.
  induction exs as [|ex rest IH]; intros st.
  - exists []. cbn [fold_left]. rewrite app_nil_r.
    split; [reflexivity|]. split; [intros p []|cbn; lia].
  - cbn [fold_left flat_map].
    destruct (process_files_from_exchange_opens randint fs n input_path
                output_path ex st) as (k & Hk & Hcap).
    destruct (IH (snd (process_files_from_exchange randint fs n input_path
                         output_path ex st))) as (new & Hnew & Hin & Hlen).
    eexists (take k _ ++ new).
    split; [rewrite Hnew, Hk, <- app_assoc; reflexivity|]. split.
    + intros p Hp. apply in_app_or in Hp. apply in_or_app.
      destruct Hp as [Hp|Hp]; [left; eapply In_take, Hp|right; auto].
    + intros Hn. specialize (Hcap Hn). specialize (Hlen Hn).
      rewrite length_app, length_take. cbn [length]. nia.
Qed.

Lemma process_exchanges_opens randint fs n input_path output_path st :
  exists new,
    reads (snd (process_exchanges randint fs n input_path output_path st))
    = reads st ++ new
    /\ (forall p, In p new -> In p (input_files fs input_path))
    /\ (1 <= n ->
        Z.of_nat (length new)
        <= n * Z.of_nat (length (exchanges fs input_path))).
Proof.
  unfold process_exchanges, try_except, input_files, exchanges, listing.
  destruct (listdir fs input_path) as [e|entries].
  - exists []. rewrite app_nil_r. cbn [of_sum]. unfold bind, raise.
    split; [apply keeps_print|]. split; [intros p []|cbn; lia].
  - cbn [of_sum]. unfold bind at 1. cbn [ret].
    rewrite process_each_exchange_fold. cbn [snd].
    apply fold_exchanges_opens.
Qed.


(** X18.  With a cap [n] of one or more, a run opens at most [n] files for
    each exchange of the input root. *)
Theorem main_opens_at_most_n_files_per_exchange randint fs args st :
  1 <= args_n args ->
  exists new,
    reads (snd (main randint fs args st)) = reads st ++ new
    /\ Z.of_nat (length new)
       <= args_n args * Z.of_nat (length (exchanges fs (args_input args))).
Proof.
  intros Hn. unfold main.
  destruct (process_exchanges_opens randint fs (args_n args) (args_input args)
              (args_output args) st) as (new & Hnew & _ & Hlen).
  exists new. auto.
Qed.

(** The property at the exchange [in/LSE] of three files, with a cap of
    two. *)
Lemma main_opens_at_most_n_files_per_exchange_witness :
  1 <= args_n (mkargs 2 "in" "out")
  /\ exists new,
       reads (snd (main lowest_draw sound_fs (mkargs 2 "in" "out") empty_state))
       = reads empty_state ++ new
       /\ Z.of_nat (length new)
          <= args_n (mkargs 2 "in" "out")
             * Z.of_nat (length (exchanges sound_fs
                                   (args_input (mkargs 2 "in" "out")))).
Proof.
  assert (H : 1 <= args_n (mkargs 2 "in" "out")) by (cbn; lia).
  split; [exact H|].
  exact (main_opens_at_most_n_files_per_exchange lowest_draw sound_fs
           (mkargs 2 "in" "out") empty_state H).
Defined.

(** ** The files that a run writes *)

Lemma writes_within_same paths st st' :
  written st' = written st -> writes_within paths st st'.
Proof. intros H f _. rewrite H. reflexivity. Qed.

Lemma writes_within_trans paths st st1 st2 :
  writes_within paths st st1 -> writes_within paths st1 st2 ->
  writes_within paths st st2.
Proof.
  intros H1 H2 f Hf. rewrite (H2 f Hf). apply H1, Hf.
Qed.

Lemma writes_within_more paths paths' st st' :
  (forall p, In p paths -> In p paths') ->
  writes_within paths st st' -> writes_within paths' st st'.
Proof. intros Hsub H f Hf. apply H. intros Hin. apply Hf, Hsub, Hin. Qed.

Lemma in_other_files path w f :
  In f (other_files path w) <-> In f w /\ fst f <> path.
Proof.
  induction w as [|g w IH]; [cbn; tauto|].
  rewrite other_files_cons.
  destruct (String.eqb_spec (fst g) path) as [E|E]; cbn [In]; rewrite IH.
  - split; [tauto|]. intros [[->|H] Hne]; [contradiction|tauto].
  - split; [intros [->|H]; tauto|tauto].
Qed.

Lemma writes_within_others path st st' :
  other_files path (written st') = other_files path (written st) ->
  writes_within [path] st st'.
Proof.
  intros H f Hf.
  assert (Hne : fst f <> path) by (intros E; apply Hf; left; auto).
  pose proof (in_other_files path (written st') f) as H1.
  pose proof (in_other_files path (written st) f) as H2.
  rewrite H in H1. tauto.
Qed.

(** What [get_random_rows] leaves of the state, whatever it returns. *)
Lemma get_random_rows_written randint fs file_path st :
  written (snd (get_random_rows randint fs file_path st)) = written st.
Proof.
  unfold get_random_rows, try_except. unfold bind at 1.
  unfold open_for_reading.
  destruct (read_lines fs file_path) as [e|lines]; [destruct e; reflexivity|].
  fold (opened st file_path).
  assert (Hbody : forall st0,
            written (snd ((do start_row <- generate_random_start_row randint
                                             (Z.of_nat (length lines)) ;;
                           do random_rows <- read_rows start_row lines 0 [] ;;
                           ret (Some random_rows)) st0))
            = written st0).
  { intros st0. unfold bind at 1. unfold generate_random_start_row.
    destruct (Z.of_nat (length lines) <? 10).
    - cbn [ret]. unfold bind at 1.
      destruct (only_allocates_read_rows 0 lines 0 [] st0) as [new Hn].
      destruct (read_rows 0 lines 0 [] st0) as [[rows|e] st2];
        cbn [snd ret] in *; subst st2; reflexivity.
    - unfold bind at 1. cbn [now ret]. unfold bind at 1.
      set (st1 := mkstate _ _ _ _ _).
      destruct (only_allocates_read_rows
                  (randint (clock st0) 0 (Z.of_nat (length lines) - 10))
                  lines 0 [] st1) as [new Hn].
      destruct (read_rows _ lines 0 [] st1) as [[rows|e] st2];
        cbn [snd ret] in *; subst st2; reflexivity. }
  specialize (Hbody (opened st file_path)).
  destruct ((do start_row <- generate_random_start_row randint
                               (Z.of_nat (length lines)) ;;
             do random_rows <- read_rows start_row lines 0 [] ;;
             ret (Some random_rows)) (opened st file_path))
    as [[r|e] st2]; cbn [snd] in *; [exact Hbody|].
  destruct e; exact Hbody.
Qed.

Lemma save_predicted_stock_rows_others fs output_path exchange_name file_name
    rows st :
  other_files (path_join (path_join output_path exchange_name) file_name)
    (written (snd (save_predicted_stock_rows fs output_path exchange_name
                     file_name rows st)))
  = other_files (path_join (path_join output_path exchange_name) file_name)
      (written st).
Proof.
  unfold save_predicted_stock_rows, try_except.
  set (file_path := path_join (path_join output_path exchange_name) file_name).
  set (body := bind _ _).
  assert (Hb : writes_only file_path body).
  { subst body.
    writes; auto using writes_only_format_each, writes_only_write_rows. }
  destruct (Hb st) as (_ & _ & _ & _ & H5).
  destruct (body st) as [[[]|e] st1]; cbn [snd] in *; [exact H5|].
  destruct e; exact H5.
Qed.

(** Lines 193 to 196 write no file but the one named after the entry. *)
Lemma process_one_file_writes randint fs output_path exchange_name file_name
    file_path count st :
  writes_within [path_join (path_join output_path exchange_name) file_name] st
    (snd ((do random_rows <- get_random_rows randint fs file_path ;;
           do predicted_rows <- predict_next_values random_rows ;;
           do _ <- save_predicted_stock_rows fs output_path exchange_name
                     file_name predicted_rows ;;
           ret (count + 1)) st)).
Proof.
  unfold bind.
  pose proof (get_random_rows_written randint fs file_path st) as H1.
  destruct (get_random_rows randint fs file_path st) as [[rr|e] s1];
    cbn [snd] in *; [|apply writes_within_same, H1].
  destruct (only_allocates_predict_next_values rr s1) as [new H2].
  destruct (predict_next_values rr s1) as [[pr|e] s2]; cbn [snd] in *;
    [|apply writes_within_same; rewrite H2; exact H1].
  pose proof (save_predicted_stock_rows_others fs output_path exchange_name
                file_name pr s2) as H3.
  assert (Hw : written s2 = written st) by (rewrite H2; exact H1).
  rewrite Hw in H3.
  destruct (save_predicted_stock_rows fs output_path exchange_name file_name
              pr s2) as [[u|e] s3]; cbn [snd] in *;
    apply writes_within_others, H3.
Qed.

Lemma process_entries_writes randint fs n exchange_path output_path
    exchange_name entries : forall count st,
  writes_within
    (map (path_join (path_join output_path exchange_name))
       (csv_entries fs exchange_path entries)) st
    (snd (process_entries randint fs n exchange_path output_path exchange_name
            entries count st)).
Proof.
  induction entries as [|file_name rest IH]; intros count st.
  - apply writes_within_same. reflexivity.
  - cbn [process_entries]. rewrite csv_entries_cons.
    destruct (isfile fs (path_join exchange_path file_name)
              && endswith ".csv" (lower_string file_name)).
    + pose proof (process_one_file_writes randint fs output_path exchange_name
                    file_name (path_join exchange_path file_name) count st)
        as Hstep.
      apply (writes_within_more _
               (map (path_join (path_join output_path exchange_name))
                  (file_name :: csv_entries fs exchange_path rest)))
        in Hstep; [|intros p [<-|[]]; left; reflexivity].
      unfold bind at 1.
      destruct ((do random_rows <- get_random_rows randint fs
                                     (path_join exchange_path file_name) ;;
                 do predicted_rows <- predict_next_values random_rows ;;
                 do _ <- save_predicted_stock_rows fs output_path exchange_name
                           file_name predicted_rows ;;
                 ret (count + 1)) st) as [[c|e] st1]; cbn [snd] in *;
        [|exact Hstep].
      destruct (c =? n); [exact Hstep|].
      apply (writes_within_trans _ _ st1); [exact Hstep|].
      apply (writes_within_more
               (map (path_join (path_join output_path exchange_name))
                  (csv_entries fs exchange_path rest)));
        [intros p Hp; right; exact Hp|apply IH].
    + unfold bind at 1. cbn [ret].
      destruct (count =? n); [apply writes_within_same; reflexivity|apply IH].
Qed.

Lemma process_files_from_exchange_writes randint fs n input_path output_path
    exchange_name st :
  writes_within
    (map (path_join (path_join output_path exchange_name))
       (csv_entries fs (path_join input_path exchange_name)
          (listing fs (path_join input_path exchange_name)))) st
    (snd (process_files_from_exchange randint fs n input_path output_path
            exchange_name st)).
Proof.
  unfold process_files_from_exchange, try_except, listing.
  destruct (listdir fs (path_join input_path exchange_name)) as [e|entries].
  - apply writes_within_same. cbn [of_sum]. unfold bind, raise.
    destruct e; reflexivity.
  - cbn [of_sum]. unfold bind at 1. cbn [ret].
    pose proof (process_entries_writes randint fs n
                  (path_join input_path exchange_name) output_path
                  exchange_name entries 0 st) as H.
    destruct (process_entries randint fs n (path_join input_path exchange_name)
                output_path exchange_name entries 0 st) as [[u|e] st1];
      cbn [snd] in *; [exact H|].
    apply (writes_within_trans _ _ st1); [exact H|].
    apply writes_within_same. destruct e; reflexivity.
Qed.

Lemma fold_exchanges_writes randint fs n input_path output_path exs :
  forall st,
  writes_within
    (flat_map (fun exchange_name =>
                 map (path_join (path_join output_path exchange_name))
                   (csv_entries fs (path_join input_path exchange_name)
                      (listing fs (path_join input_path exchange_name))))
       exs) st
    (fold_left
       (fun s exchange_name =>
          snd (process_files_from_exchange randint fs n input_path output_path
                 exchange_name s)) exs st).
Proof.
  induction exs as [|ex rest IH]; intros st.
  - apply writes_within_same. reflexivity.
  - cbn [fold_left flat_map].
    eapply writes_within_trans.
    + eapply writes_within_more;
        [|apply (process_files_from_exchange_writes randint fs n input_path
                   output_path ex st)].
      intros p Hp. apply in_or_app. left. exact Hp.
    + eapply writes_within_more; [|apply IH].
      intros p Hp. apply in_or_app. right. exact Hp.
Qed.

(** X19.  A run writes no file but those named after the files it can
    open, each in the directory of its exchange under the output root:
    every other output file is left as it was, and none appears. *)
Theorem main_writes_only_output_files randint fs args st f :
  ~ In (fst f) (output_files fs (args_input args) (args_output args)) ->
  (In f (written (snd (main randint fs args st))) <-> In f (written st)).
Proof.
  revert f.
  change (writes_within (output_files fs (args_input args) (args_output args))
            st (snd (main randint fs args st))).
  unfold main, process_exchanges, try_except, output_files, exchanges, listing.
  destruct (listdir fs (args_input args)) as [e|entries].
  - apply writes_within_same. cbn [of_sum]. unfold bind, raise.
    destruct e; reflexivity.
  - cbn [of_sum]. unfold bind at 1. cbn [ret].
    rewrite process_each_exchange_fold. cbn [snd].
    apply fold_exchanges_writes.
Qed.

(** The property at a file that is not among the outputs of the exchange
    [in/LSE]. *)
Lemma main_writes_only_output_files_witness :
  ~ In (fst ("out/LSE/readme.txt"%string, @nil (list value)))
       (output_files sound_fs (args_input (mkargs 2 "in" "out"))
          (args_output (mkargs 2 "in" "out")))
  /\ (In ("out/LSE/readme.txt"%string, [])
        (written (snd (main lowest_draw sound_fs (mkargs 2 "in" "out")
                         (mkstate [] [] 0 []
                            [("out/LSE/readme.txt"%string, [])]))))
      <-> In ("out/LSE/readme.txt"%string, [])
            (written (mkstate [] [] 0 []
                        [("out/LSE/readme.txt"%string, @nil (list value))]))).
Proof.
  assert (H : ~ In (fst ("out/LSE/readme.txt"%string, @nil (list value)))
                (output_files sound_fs (args_input (mkargs 2 "in" "out"))
                   (args_output (mkargs 2 "in" "out")))).
  { vm_compute. intros [H|[H|[H|[]]]]; discriminate. }
  split; [exact H|].
  exact (main_writes_only_output_files lowest_draw sound_fs
           (mkargs 2 "in" "out")
           (mkstate [] [] 0 [] [("out/LSE/readme.txt"%string, [])]) _ H).
Defined.

(** ** The output read as an input *)

Lemma no_comma_app a b : no_comma (a ++ b)%string = no_comma a && no_comma b.
Proof.
  induction a as [|x a IH]; [reflexivity|].
  rewrite append_String. cbn [no_comma]. rewrite IH, andb_assoc. reflexivity.
Qed.

Lemma is_digit_not_comma c : is_digit c = true -> Ascii.eqb c "," = false.
Proof.
  destruct c as [[] [] [] [] [] [] [] []]; try discriminate; reflexivity.
Qed.

Lemma all_digits_no_comma ds : all_digits ds = true -> no_comma ds = true.
Proof.
  induction ds as [|c ds IH]; [reflexivity|]. cbn [all_digits no_comma].
  rewrite andb_true_iff. intros [Hc Hds].
  rewrite (is_digit_not_comma c Hc), IH by assumption. reflexivity.
Qed.

Lemma split_on_field a rest :
  no_comma a = true ->
  split_on "," (a ++ String "," rest)%string = a :: split_on "," rest.
Proof.
  induction a as [|c a IH]; intros Ha; [reflexivity|].
  cbn [no_comma] in Ha. apply andb_true_iff in Ha. destruct Ha as [Hc Ha].
  apply negb_true_iff in Hc.
  rewrite append_String. cbn [split_on]. rewrite Hc, (IH Ha). reflexivity.
Qed.

Lemma split_on_last a : no_comma a = true -> split_on "," a = [a].
Proof.
  induction a as [|c a IH]; intros Ha; [reflexivity|].
  cbn [no_comma] in Ha. apply andb_true_iff in Ha. destruct Ha as [Hc Ha].
  apply negb_true_iff in Hc.
  cbn [split_on]. rewrite Hc, (IH Ha). reflexivity.
Qed.

Lemma length_lstrip s : (String.length (lstrip s) <= String.length s)%nat.
Proof.
  induction s as [|c s IH]; [reflexivity|]. cbn [lstrip].
  destruct (is_space c); cbn [String.length]; lia.
Qed.

(** A string that [lstrip] leaves alone does not begin with white space. *)
Lemma lstrip_fixed_app s t :
  lstrip s = s -> lstrip (s ++ String "," t)%string = (s ++ String "," t)%string.
Proof.
  destruct s as [|c s]; [reflexivity|]. cbn [lstrip]. rewrite append_String.
  cbn [lstrip]. destruct (is_space c); [|reflexivity].
  intros H. pose proof (length_lstrip s) as Hl. rewrite H in Hl.
  cbn [String.length] in Hl. lia.
Qed.

Lemma rstrip_blank s : blank s = true -> rstrip s = EmptyString.
Proof.
  induction s as [|c s IH]; [reflexivity|]. cbn [blank rstrip].
  rewrite andb_true_iff. intros [Hc Hs]. rewrite (IH Hs), Hc. reflexivity.
Qed.

Lemma rstrip_app a t :
  rstrip t <> EmptyString -> rstrip (a ++ t)%string = (a ++ rstrip t)%string.
Proof.
  intros Ht. induction a as [|x a IH]; [reflexivity|].
  rewrite !append_String. cbn [rstrip]. rewrite IH.
  destruct (a ++ rstrip t)%string eqn:E; [|reflexivity].
  destruct a; [|discriminate]. rewrite append_Empty in E. contradiction.
Qed.

(** A string that ends in a digit, followed by the end of a line. *)
Lemma rstrip_digit_then_blank a c eol :
  is_digit c = true -> blank eol = true ->
  rstrip (a ++ String c eol)%string = (a ++ String c EmptyString)%string.
Proof.
  intros Hc Heol.
  assert (Hr : rstrip (String c eol) = String c EmptyString).
  { cbn [rstrip]. rewrite (rstrip_blank eol Heol).
    destruct (is_digit_plain c Hc) as [-> _]. reflexivity. }
  rewrite rstrip_app; rewrite Hr; [reflexivity|discriminate].
Qed.

Lemma dmy_shaped_no_comma t : dmy_shaped t -> no_comma t = true.
Proof.
  intros (d1 & d2 & m1 & m2 & y1 & y2 & y3 & y4 & -> & Hd).
  repeat match goal with
         | H : Forall _ (_ :: _) |- _ =>
             apply Forall_cons in H; destruct H as [? H]
         end.
  cbn [no_comma].
  repeat match goal with
         | H : is_digit ?c = true |- _ =>
             rewrite (is_digit_not_comma c H); clear H
         end.
  reflexivity.
Qed.

Lemma two_decimals_no_comma t : two_decimals t -> no_comma t = true.
Proof.
  intros (s & ip & c1 & c2 & -> & Hip & _ & H1 & H2).
  rewrite !no_comma_app, (all_digits_no_comma ip Hip). cbn [no_comma].
  rewrite (is_digit_not_comma c1 H1), (is_digit_not_comma c2 H2).
  destruct s; reflexivity.
Qed.

(** A numeral with two decimals ends in a digit. *)
Lemma two_decimals_last t :
  two_decimals t ->
  exists a c, t = (a ++ String c EmptyString)%string /\ is_digit c = true.
Proof.
  intros (s & ip & c1 & c2 & -> & _ & _ & _ & H2).
  exists (sign_prefix s ++ ip ++ "." ++ String c1 EmptyString)%string, c2.
  split; [|exact H2].
  rewrite !string_app_assoc. reflexivity.
Qed.

Lemma is_digit_not_special c : is_digit c = true -> is_special c = false.
Proof.
  destruct c as [[] [] [] [] [] [] [] []]; try discriminate; reflexivity.
Qed.

Lemma needs_quotes_app a b :
  needs_quotes (a ++ b)%string = needs_quotes a || needs_quotes b.
Proof.
  induction a as [|x a IH]; [reflexivity|].
  rewrite append_String. cbn [needs_quotes]. rewrite IH, orb_assoc. reflexivity.
Qed.

Lemma all_digits_no_quotes ds : all_digits ds = true -> needs_quotes ds = false.
Proof.
  induction ds as [|c ds IH]; [reflexivity|]. cbn [all_digits needs_quotes].
  rewrite andb_true_iff. intros [Hc Hds].
  rewrite (is_digit_not_special c Hc), IH by assumption. reflexivity.
Qed.

Lemma dmy_shaped_no_quotes t : dmy_shaped t -> needs_quotes t = false.
Proof.
  intros (d1 & d2 & m1 & m2 & y1 & y2 & y3 & y4 & -> & Hd).
  repeat match goal with
         | H : Forall _ (_ :: _) |- _ =>
             apply Forall_cons in H; destruct H as [? H]
         end.
  cbn [needs_quotes].
  repeat match goal with
         | H : is_digit ?c = true |- _ =>
             rewrite (is_digit_not_special c H); clear H
         end.
  reflexivity.
Qed.

Lemma two_decimals_no_quotes t : two_decimals t -> needs_quotes t = false.
Proof.
  intros (s & ip & c1 & c2 & -> & Hip & _ & H1 & H2).
  rewrite !needs_quotes_app, (all_digits_no_quotes ip Hip). cbn [needs_quotes].
  rewrite (is_digit_not_special c1 H1), (is_digit_not_special c2 H2).
  destruct s; reflexivity.
Qed.

Lemma no_quotes_no_comma s : needs_quotes s = false -> no_comma s = true.
Proof.
  induction s as [|c s IH]; [reflexivity|]. cbn [needs_quotes no_comma].
  rewrite orb_false_iff. intros [Hc Hs]. rewrite (IH Hs).
  unfold is_special in Hc. rewrite !orb_false_iff in Hc.
  destruct Hc as [[[-> _] _] _]. reflexivity.
Qed.

(** The record of three cells that need no quotes. *)
Lemma csv_record_plain a b c :
  needs_quotes a = false -> needs_quotes b = false -> needs_quotes c = false ->
  csv_record [a; b; c] = (a ++ String "," (b ++ String "," c))%string.
Proof.
  intros Ha Hb Hc. unfold csv_record.
  assert (E : map csv_field [a; b; c] = [a; b; c])
    by (unfold csv_field; cbn [map]; rewrite Ha, Hb, Hc; reflexivity).
  destruct a; rewrite E; reflexivity.
Qed.

(** X20.  The output can be read as an input: the record that the writer
    makes of a formatted row, followed by the end of the line, is read by
    the sampler as the same row with the price rounded to two decimals.
    This holds for a finite price, a year of four digits and an identifier
    of ASCII characters that needs no quotes (no comma, double quote,
    carriage return or line feed) and does not begin with white space. *)
Theorem saved_row_reads_back w eol st :
  valid_date (timestamp w) = true ->
  1000 <= year (timestamp w) ->
  is_finite (price w) = true ->
  ascii_only (stock_id w) = true ->
  needs_quotes (stock_id w) = false ->
  lstrip (stock_id w) = stock_id w ->
  blank eol = true ->
  display_cells w = map VStr (display_strings w)
  /\ parse_row (csv_record (display_strings w) ++ eol) st
     = (Ok (row_dict (mkrow (stock_id w) (timestamp w) (round2 (price w)))),
        st).
Proof.
  intros Hv Hy Hf _ Hq Hl Heol. split; [reflexivity|].
  pose proof (no_quotes_no_comma _ Hq) as Hsid.
  pose proof (strptime_strftime _ Hv Hy) as Hd.
  assert (Hp : float_of_str (format_2f (price w)) = Some (round2 (price w))).
  { destruct (price w) as [s|s| |s m e]; try discriminate;
      cbn [format_2f round2].
    - rewrite float_of_str_fixed2 by lia. reflexivity.
    - apply float_of_str_fixed2, hundredths_nearest. }
  pose proof (strftime_dmy_shaped _ Hv Hy) as Hshape.
  pose proof (format_2f_two_decimals _ Hf) as Htwo.
  pose proof (dmy_shaped_no_comma _ Hshape) as Hdc.
  pose proof (two_decimals_no_comma _ Htwo) as Hpc.
  pose proof (dmy_shaped_no_quotes _ Hshape) as Hdq.
  pose proof (two_decimals_no_quotes _ Htwo) as Hpq.
  destruct (two_decimals_last _ Htwo) as (a & c & Epr & Hc).
  unfold display_strings. rewrite (csv_record_plain _ _ _ Hq Hdq Hpq).
  destruct w as [sid d x]. cbn [stock_id timestamp price] in *.
  remember (strftime_dmy d) as date eqn:Edate.
  remember (format_2f x) as pr eqn:Epr'.
  assert (Hstrip : strip ((sid ++ String "," (date ++ String "," pr)) ++ eol)
                   = (sid ++ String "," (date ++ String "," pr))%string).
  { unfold strip.
    replace ((sid ++ String "," (date ++ String "," pr)) ++ eol)%string
      with (sid ++ String "," (date ++ String "," (pr ++ eol)))%string
      by (repeat (rewrite string_app_assoc || rewrite append_String);
          reflexivity).
    rewrite (lstrip_fixed_app sid _ Hl). rewrite Epr.
    replace (sid ++ String "," (date ++ String "," ((a ++ String c "") ++ eol)))%string
      with ((sid ++ String "," (date ++ String "," a)) ++ String c eol)%string.
    - rewrite (rstrip_digit_then_blank _ c eol Hc Heol).
      repeat (rewrite string_app_assoc || rewrite append_String).
      reflexivity.
    - repeat (rewrite string_app_assoc || rewrite append_String
              || rewrite append_Empty).
      reflexivity. }
  unfold parse_row. rewrite Hstrip.
  rewrite (split_on_field sid _ Hsid), (split_on_field date _ Hdc),
    (split_on_last pr Hpc).
  unfold index, bind. cbn [lookup list_lookup of_option ret].
  rewrite Hd. cbn [of_option ret]. rewrite Hp. reflexivity.
Qed.

(** The property at a row priced 10.587499 and a line that ends in a line
    feed. *)
Lemma saved_row_reads_back_witness :
  let w := mkrow "ACME" (mkdate 2023 3 1) (literal 10587499 (-6)) in
  let eol := String (ascii_of_nat 10) EmptyString in
  valid_date (timestamp w) = true
  /\ 1000 <= year (timestamp w)
  /\ is_finite (price w) = true
  /\ ascii_only (stock_id w) = true
  /\ needs_quotes (stock_id w) = false
  /\ lstrip (stock_id w) = stock_id w
  /\ blank eol = true
  /\ display_cells w = map VStr (display_strings w)
  /\ parse_row (csv_record (display_strings w) ++ eol) empty_state
     = (Ok (row_dict (mkrow (stock_id w) (timestamp w) (round2 (price w)))),
        empty_state).
Proof.
  intros w eol.
  assert (H1 : valid_date (timestamp w) = true) by reflexivity.
  assert (H2 : 1000 <= year (timestamp w)) by (cbn; lia).
  assert (H3 : is_finite (price w) = true) by reflexivity.
  assert (H4 : ascii_only (stock_id w) = true) by reflexivity.
  assert (H5 : needs_quotes (stock_id w) = false) by reflexivity.
  assert (H6 : lstrip (stock_id w) = stock_id w) by reflexivity.
  assert (H7 : blank eol = true) by reflexivity.
  split; [exact H1|]. split; [exact H2|]. split; [exact H3|]. split; [exact H4|].
  split; [exact H5|]. split; [exact H6|]. split; [exact H7|].
  exact (saved_row_reads_back w eol empty_state H1 H2 H3 H4 H5 H6 H7).
Defined.

(** An identifier with a double quote is written between quotes, and the
    sampler reads another identifier from the line. *)
Lemma quoted_identifier_is_not_read_back :
  let w := mkrow (String "A" (String double_quote "B")) (mkdate 2023 3 1)
             (literal 100 (-1)) in
  csv_record (display_strings w)
  = String double_quote
      (String "A" (String double_quote (String double_quote
         (String "B" (String double_quote ",01-03-2023,10.00")))))
  /\ exists sid,
       parse_row (csv_record (display_strings w)) empty_state
       = (Ok (row_dict (mkrow sid (mkdate 2023 3 1) (literal 100 (-1)))),
          empty_state)
       /\ sid <> stock_id w.
Proof.
  split; [vm_compute; reflexivity|].
  eexists. split; [vm_compute; reflexivity|]. discriminate.
Qed.
